(** * Insurance-claim notebook: a shallow embedding of [insurance_demo.ipynb]

    The notebook glues the Box SDK, the OpenAI Agents SDK and pydantic
    together.  What it defines itself is embedded here definition by
    definition: the pydantic models, the vision tool, the input guardrail,
    the four agents and their hand-off lists, [parse_customer_info_file],
    [process_insurance_claim] and the document-generation cell.  The hosted
    services (language model, vision model, web search, Box) are inputs:
    they are the fields of an environment record [Env], and every theorem
    quantifies over all of them. *)

From Stdlib Require Import List String Ascii ZArith NArith Bool Lia.
Import ListNotations.
Open Scope list_scope.

Set Warnings "-register-all".

(* ===================================================================== *)
(** * Python text *)
(* ===================================================================== *)

(** A Python [str] is a sequence of Unicode code points. *)
Definition pystr := list N.

(** ASCII literals of the notebook, as code points. *)
Definition u (s : string) : pystr := map N_of_ascii (list_ascii_of_string s).

(** The characters that cannot be typed in an ASCII literal. *)
Definition QUOTE : pystr := [34%N].          (* a double quote *)
Definition NL : pystr := [10%N].             (* \n *)
Definition NBSP : pystr := [160%N].          (* U+00A0 *)
Definition NBHYPHEN : pystr := [8209%N].     (* U+2011 *)
Definition ENDASH : pystr := [8211%N].       (* U+2013 *)
Definition ELLIPSIS : pystr := [8230%N].     (* U+2026 *)
Definition CROSS_MARK : pystr := [10060%N].  (* U+274C *)
Definition CHECK_MARK : pystr := [9989%N].   (* U+2705 *)
Definition PAGE : pystr := [128196%N].       (* U+1F4C4 *)
Definition ROCKET : pystr := [128640%N].     (* U+1F680 *)

Fixpoint pystr_eqb (a b : pystr) : bool :=
  match a, b with
  | [], [] => true
  | x :: a', y :: b' => (x =? y)%N && pystr_eqb a' b'
  | _, _ => false
  end.

(** [str.isspace] on one character: CPython's [_PyUnicode_IsWhitespace]. *)
Definition isspace (c : N) : bool :=
  ((9 <=? c) && (c <=? 13) || (28 <=? c) && (c <=? 32)
   || (c =? 133) || (c =? 160) || (c =? 5760)
   || (8192 <=? c) && (c <=? 8202)
   || (c =? 8232) || (c =? 8233) || (c =? 8239) || (c =? 8287)
   || (c =? 12288))%N.

Fixpoint lstrip (s : pystr) : pystr :=
  match s with
  | [] => []
  | c :: s' => if isspace c then lstrip s' else s
  end.

Definition rstrip (s : pystr) : pystr := rev (lstrip (rev s)).

(** [s.strip()] with no argument. *)
Definition strip (s : pystr) : pystr := rstrip (lstrip s).

(** Truth value of a [str]: false exactly for the empty string. *)
Definition str_truthy (s : pystr) : bool :=
  match s with [] => false | _ => true end.

(** [sep.join(parts)] on a list of strings. *)
Fixpoint join (sep : pystr) (parts : list pystr) : pystr :=
  match parts with
  | [] => []
  | [p] => p
  | p :: rest => p ++ sep ++ join sep rest
  end.

(** [needle in hay]. *)
Definition contains (needle hay : pystr) : Prop :=
  exists pre post, hay = pre ++ needle ++ post.

(* ===================================================================== *)
(** * Dates *)
(* ===================================================================== *)

(** [datetime.date]: year 1..9999, month 1..12, day 1..31. *)
Record date := { date_year : N; date_month : N; date_day : N }.

Definition digit (n : N) : N := (48 + n mod 10)%N.

(** [date.isoformat()], i.e. ["%04d-%02d-%02d"]. *)
Definition isoformat (d : date) : pystr :=
  [digit (date_year d / 1000); digit (date_year d / 100);
   digit (date_year d / 10); digit (date_year d)]
  ++ u "-" ++ [digit (date_month d / 10); digit (date_month d)]
  ++ u "-" ++ [digit (date_day d / 10); digit (date_day d)].

Definition is_digit (c : N) : bool := ((48 <=? c) && (c <=? 57))%N.

(** The shape YYYY-MM-DD. *)
Definition iso_shaped (s : pystr) : bool :=
  match s with
  | [y1; y2; y3; y4; h1; m1; m2; h2; d1; d2] =>
      is_digit y1 && is_digit y2 && is_digit y3 && is_digit y4
      && (h1 =? 45)%N && is_digit m1 && is_digit m2 && (h2 =? 45)%N
      && is_digit d1 && is_digit d2
  | _ => false
  end.

(* ===================================================================== *)
(** * JSON values, as Python's [json] module produces them *)
(* ===================================================================== *)

(** [None], [bool], [int], [float], [str], [list] and [dict].  A float is
    kept as its literal; a dict is kept in insertion order. *)
Inductive json : Type :=
| JNull
| JBool (b : bool)
| JInt (n : Z)
| JFloat (literal : pystr)
| JStr (s : pystr)
| JArr (items : list json)
| JObj (members : list (pystr * json)).

(** A text handed to a JSON decoder either denotes a value or is rejected. *)
Inductive text : Type :=
| Json (j : json)
| NotJson (raw : pystr).

Fixpoint lookup (k : pystr) (d : list (pystr * json)) : option json :=
  match d with
  | [] => None
  | (k', v) :: d' => if pystr_eqb k k' then Some v else lookup k d'
  end.

(** [d[k] = v]: an existing key keeps its place, a new one goes last. *)
Fixpoint store (k : pystr) (v : json) (d : list (pystr * json))
  : list (pystr * json) :=
  match d with
  | [] => [(k, v)]
  | (k', v') :: d' =>
      if pystr_eqb k k' then (k, v) :: d' else (k', v') :: store k v d'
  end.

(* ===================================================================== *)
(** * Exceptions, the world, and the monad of notebook code *)
(* ===================================================================== *)

Inductive PyExc : Type :=
| KeyError (key : pystr)
| TypeError
| AttributeError
| AssertionError (arg : pystr)
| ValidationError
| JSONDecodeError
| OSError
| InputGuardrailTripwireTriggered
| MaxTurnsExceeded
| ModelBehaviorError
| ServiceError (what : pystr).

Definition Exc (A : Type) : Type := (PyExc + A)%type.

Definition option_bind {A B} (o : option A) (f : A -> option B) : option B :=
  match o with Some a => f a | None => None end.

Notation "x <-? c ;; k" := (option_bind c (fun x => k))
  (at level 61, c at next level, right associativity).

(* ===================================================================== *)
(** * The pydantic models *)
(* ===================================================================== *)

Module InsuranceGuardrailOutput.
Record t := mk { is_insurance_related : bool; reasoning : pystr }.
End InsuranceGuardrailOutput.

Module DamageInfo.
Record t := mk { damage_description : pystr; damaged_parts_list : list pystr }.
End DamageInfo.

Module EstimatedCost.
Record t := mk { estimated_cost : pystr }.
End EstimatedCost.

Module Claim.
Record t := mk {
  report_date : pystr;
  assigned_adjuster : pystr;
  other_driver_insurance_company : option pystr;
  other_driver_policy_number : option pystr;
  cross_streets_of_accident : pystr;
  date_of_incident : pystr;
  time_of_incident : pystr;
  number_of_vehicles_involved : pystr;
  customer_initial_report : pystr;
  law_enforcement_agency : option pystr;
  law_enforcement_report_id : option pystr;
  damage_description : option pystr;
  estimated_cost : option pystr;
  damaged_parts_list : option (list pystr) }.

(** [claim.report_date = v]. *)
Definition set_report_date (v : pystr) (c : t) : t :=
  mk v (assigned_adjuster c) (other_driver_insurance_company c)
     (other_driver_policy_number c) (cross_streets_of_accident c)
     (date_of_incident c) (time_of_incident c)
     (number_of_vehicles_involved c) (customer_initial_report c)
     (law_enforcement_agency c) (law_enforcement_report_id c)
     (damage_description c) (estimated_cost c) (damaged_parts_list c).
End Claim.

Module Customer.
Record t := mk {
  first_name : pystr;
  last_name : pystr;
  street_address : pystr;
  city : pystr;
  state : pystr;
  zip_code : pystr;
  phone_number : pystr;
  email : pystr;
  car_year : pystr;
  car_make : pystr;
  car_model : pystr;
  vin : pystr;
  license_plate : pystr;
  car_mileage : pystr;
  car_color : pystr;
  policy_number : pystr }.
End Customer.

Module Shop.
Record t := mk { shop_name : pystr; shop_address : pystr; shop_phone : pystr }.
End Shop.

Module Shops.
Record t := mk {
  shop_one : option Shop.t;
  shop_two : option Shop.t;
  shop_three : option Shop.t }.
End Shops.

Module InsuranceReport.
Record t := mk {
  claim_number : pystr;
  claim : Claim.t;
  customer : Customer.t;
  shops : Shops.t }.

(** [report.claim.report_date = v]: the one attribute assignment of the
    notebook on a report. *)
Definition set_claim_report_date (v : pystr) (r : t) : t :=
  mk (claim_number r) (Claim.set_report_date v (claim r)) (customer r)
     (shops r).
End InsuranceReport.

(** The values that can be the final output of a run: an instance of the
    output type of one of the four agents. *)
Inductive PyVal : Type :=
| VDamageInfo (d : DamageInfo.t)
| VEstimatedCost (c : EstimatedCost.t)
| VShops (s : Shops.t)
| VInsuranceReport (r : InsuranceReport.t).

Inductive OutputType : Type :=
| TDamageInfo | TEstimatedCost | TShops | TInsuranceReport.

(** [type(v)]. *)
Definition type_of (v : PyVal) : OutputType :=
  match v with
  | VDamageInfo _ => TDamageInfo
  | VEstimatedCost _ => TEstimatedCost
  | VShops _ => TShops
  | VInsuranceReport _ => TInsuranceReport
  end.

Definition OutputType_eqb (a b : OutputType) : bool :=
  match a, b with
  | TDamageInfo, TDamageInfo | TEstimatedCost, TEstimatedCost
  | TShops, TShops | TInsuranceReport, TInsuranceReport => true
  | _, _ => false
  end.

(** [str(cls)] for a class defined in the notebook. *)
Definition class_repr (t : OutputType) : pystr :=
  u "<class '__main__."
  ++ match t with
     | TDamageInfo => u "DamageInfo"
     | TEstimatedCost => u "EstimatedCost"
     | TShops => u "Shops"
     | TInsuranceReport => u "InsuranceReport"
     end
  ++ u "'>".

(** ** Validation

    pydantic, default configuration: a [str] field takes a string and
    nothing else; an [Optional] field with default [None] may be absent or
    null; a nested model takes an object; unknown keys are ignored. *)

Definition field_str (k : string) (d : list (pystr * json)) : option pystr :=
  match lookup (u k) d with
  | Some (JStr s) => Some s
  | _ => None
  end.

Definition field_opt_str (k : string) (d : list (pystr * json))
  : option (option pystr) :=
  match lookup (u k) d with
  | None | Some JNull => Some None
  | Some (JStr s) => Some (Some s)
  | Some _ => None
  end.

Fixpoint str_list (l : list json) : option (list pystr) :=
  match l with
  | [] => Some []
  | JStr s :: l' => ss <-? str_list l' ;; Some (s :: ss)
  | _ :: _ => None
  end.

Definition field_str_list (k : string) (d : list (pystr * json))
  : option (list pystr) :=
  match lookup (u k) d with
  | Some (JArr l) => str_list l
  | _ => None
  end.

Definition field_opt_str_list (k : string) (d : list (pystr * json))
  : option (option (list pystr)) :=
  match lookup (u k) d with
  | None | Some JNull => Some None
  | Some (JArr l) => ss <-? str_list l ;; Some (Some ss)
  | Some _ => None
  end.

Definition validate_DamageInfo (j : json) : option DamageInfo.t :=
  match j with
  | JObj d =>
      a <-? field_str "damage_description" d ;;
      b <-? field_str_list "damaged_parts_list" d ;;
      Some (DamageInfo.mk a b)
  | _ => None
  end.

Definition validate_EstimatedCost (j : json) : option EstimatedCost.t :=
  match j with
  | JObj d => a <-? field_str "estimated_cost" d ;; Some (EstimatedCost.mk a)
  | _ => None
  end.

Definition validate_Claim (j : json) : option Claim.t :=
  match j with
  | JObj d =>
      f1 <-? field_str "report_date" d ;;
      f2 <-? field_str "assigned_adjuster" d ;;
      f3 <-? field_opt_str "other_driver_insurance_company" d ;;
      f4 <-? field_opt_str "other_driver_policy_number" d ;;
      f5 <-? field_str "cross_streets_of_accident" d ;;
      f6 <-? field_str "date_of_incident" d ;;
      f7 <-? field_str "time_of_incident" d ;;
      f8 <-? field_str "number_of_vehicles_involved" d ;;
      f9 <-? field_str "customer_initial_report" d ;;
      f10 <-? field_opt_str "law_enforcement_agency" d ;;
      f11 <-? field_opt_str "law_enforcement_report_id" d ;;
      f12 <-? field_opt_str "damage_description" d ;;
      f13 <-? field_opt_str "estimated_cost" d ;;
      f14 <-? field_opt_str_list "damaged_parts_list" d ;;
      Some (Claim.mk f1 f2 f3 f4 f5 f6 f7 f8 f9 f10 f11 f12 f13 f14)
  | _ => None
  end.

(** The sixteen field names of [Customer], in declaration order; this is
    also the list [parse_customer_info_file] iterates over. *)
Definition customer_fields : list string :=
  ["first_name"; "last_name"; "street_address"; "city"; "state";
   "zip_code"; "phone_number"; "email"; "car_year"; "car_make";
   "car_model"; "vin"; "license_plate"; "car_mileage"; "car_color";
   "policy_number"]%string.

Definition validate_Customer (j : json) : option Customer.t :=
  match j with
  | JObj d =>
      f1 <-? field_str "first_name" d ;;
      f2 <-? field_str "last_name" d ;;
      f3 <-? field_str "street_address" d ;;
      f4 <-? field_str "city" d ;;
      f5 <-? field_str "state" d ;;
      f6 <-? field_str "zip_code" d ;;
      f7 <-? field_str "phone_number" d ;;
      f8 <-? field_str "email" d ;;
      f9 <-? field_str "car_year" d ;;
      f10 <-? field_str "car_make" d ;;
      f11 <-? field_str "car_model" d ;;
      f12 <-? field_str "vin" d ;;
      f13 <-? field_str "license_plate" d ;;
      f14 <-? field_str "car_mileage" d ;;
      f15 <-? field_str "car_color" d ;;
      f16 <-? field_str "policy_number" d ;;
      Some (Customer.mk f1 f2 f3 f4 f5 f6 f7 f8 f9 f10 f11 f12 f13 f14 f15
              f16)
  | _ => None
  end.

Definition validate_Shop (j : json) : option Shop.t :=
  match j with
  | JObj d =>
      a <-? field_str "shop_name" d ;;
      b <-? field_str "shop_address" d ;;
      c <-? field_str "shop_phone" d ;;
      Some (Shop.mk a b c)
  | _ => None
  end.

Definition field_opt_Shop (k : string) (d : list (pystr * json))
  : option (option Shop.t) :=
  match lookup (u k) d with
  | None | Some JNull => Some None
  | Some j => s <-? validate_Shop j ;; Some (Some s)
  end.

Definition validate_Shops (j : json) : option Shops.t :=
  match j with
  | JObj d =>
      a <-? field_opt_Shop "shop_one" d ;;
      b <-? field_opt_Shop "shop_two" d ;;
      c <-? field_opt_Shop "shop_three" d ;;
      Some (Shops.mk a b c)
  | _ => None
  end.

Definition validate_InsuranceReport (j : json) : option InsuranceReport.t :=
  match j with
  | JObj d =>
      n <-? field_str "claim_number" d ;;
      cj <-? lookup (u "claim") d ;;
      c <-? validate_Claim cj ;;
      kj <-? lookup (u "customer") d ;;
      k <-? validate_Customer kj ;;
      sj <-? lookup (u "shops") d ;;
      s <-? validate_Shops sj ;;
      Some (InsuranceReport.mk n c k s)
  | _ => None
  end.

(** Validation of a JSON text against an agent's [output_type]. *)
Definition validate_json (t : OutputType) (x : text) : option PyVal :=
  match x with
  | NotJson _ => None
  | Json j =>
      match t with
      | TDamageInfo => option_map VDamageInfo (validate_DamageInfo j)
      | TEstimatedCost => option_map VEstimatedCost (validate_EstimatedCost j)
      | TShops => option_map VShops (validate_Shops j)
      | TInsuranceReport =>
          option_map VInsuranceReport (validate_InsuranceReport j)
      end
  end.

(** ** [model_dump(mode="json")] *)

Definition dump_opt_str (o : option pystr) : json :=
  match o with Some s => JStr s | None => JNull end.

Definition dump_opt_str_list (o : option (list pystr)) : json :=
  match o with Some l => JArr (map JStr l) | None => JNull end.

Definition dump_DamageInfo (d : DamageInfo.t) : json :=
  JObj [(u "damage_description", JStr (DamageInfo.damage_description d));
        (u "damaged_parts_list",
         JArr (map JStr (DamageInfo.damaged_parts_list d)))].

Definition dump_EstimatedCost (c : EstimatedCost.t) : json :=
  JObj [(u "estimated_cost", JStr (EstimatedCost.estimated_cost c))].

Definition dump_Claim (c : Claim.t) : json :=
  JObj [(u "report_date", JStr (Claim.report_date c));
        (u "assigned_adjuster", JStr (Claim.assigned_adjuster c));
        (u "other_driver_insurance_company",
         dump_opt_str (Claim.other_driver_insurance_company c));
        (u "other_driver_policy_number",
         dump_opt_str (Claim.other_driver_policy_number c));
        (u "cross_streets_of_accident",
         JStr (Claim.cross_streets_of_accident c));
        (u "date_of_incident", JStr (Claim.date_of_incident c));
        (u "time_of_incident", JStr (Claim.time_of_incident c));
        (u "number_of_vehicles_involved",
         JStr (Claim.number_of_vehicles_involved c));
        (u "customer_initial_report", JStr (Claim.customer_initial_report c));
        (u "law_enforcement_agency",
         dump_opt_str (Claim.law_enforcement_agency c));
        (u "law_enforcement_report_id",
         dump_opt_str (Claim.law_enforcement_report_id c));
        (u "damage_description", dump_opt_str (Claim.damage_description c));
        (u "estimated_cost", dump_opt_str (Claim.estimated_cost c));
        (u "damaged_parts_list",
         dump_opt_str_list (Claim.damaged_parts_list c))].

Definition dump_Customer (c : Customer.t) : json :=
  JObj [(u "first_name", JStr (Customer.first_name c));
        (u "last_name", JStr (Customer.last_name c));
        (u "street_address", JStr (Customer.street_address c));
        (u "city", JStr (Customer.city c));
        (u "state", JStr (Customer.state c));
        (u "zip_code", JStr (Customer.zip_code c));
        (u "phone_number", JStr (Customer.phone_number c));
        (u "email", JStr (Customer.email c));
        (u "car_year", JStr (Customer.car_year c));
        (u "car_make", JStr (Customer.car_make c));
        (u "car_model", JStr (Customer.car_model c));
        (u "vin", JStr (Customer.vin c));
        (u "license_plate", JStr (Customer.license_plate c));
        (u "car_mileage", JStr (Customer.car_mileage c));
        (u "car_color", JStr (Customer.car_color c));
        (u "policy_number", JStr (Customer.policy_number c))].

Definition dump_Shop (s : Shop.t) : json :=
  JObj [(u "shop_name", JStr (Shop.shop_name s));
        (u "shop_address", JStr (Shop.shop_address s));
        (u "shop_phone", JStr (Shop.shop_phone s))].

Definition dump_opt_Shop (o : option Shop.t) : json :=
  match o with Some s => dump_Shop s | None => JNull end.

Definition dump_Shops (s : Shops.t) : json :=
  JObj [(u "shop_one", dump_opt_Shop (Shops.shop_one s));
        (u "shop_two", dump_opt_Shop (Shops.shop_two s));
        (u "shop_three", dump_opt_Shop (Shops.shop_three s))].

Definition dump_InsuranceReport (r : InsuranceReport.t) : json :=
  JObj [(u "claim_number", JStr (InsuranceReport.claim_number r));
        (u "claim", dump_Claim (InsuranceReport.claim r));
        (u "customer", dump_Customer (InsuranceReport.customer r));
        (u "shops", dump_Shops (InsuranceReport.shops r))].

Definition model_dump (v : PyVal) : json :=
  match v with
  | VDamageInfo d => dump_DamageInfo d
  | VEstimatedCost c => dump_EstimatedCost c
  | VShops s => dump_Shops s
  | VInsuranceReport r => dump_InsuranceReport r
  end.

(* ===================================================================== *)
(** * Services and the world the notebook runs in *)
(* ===================================================================== *)

(** The arguments of [openAIClient.responses.create]. *)
Record ResponsesRequest := {
  req_model : pystr;
  req_input : json;
  req_text : json }.

(** One entry of [document_generation_data]. *)
Record DocGenDocumentGenerationData := {
  generated_file_name : pystr;
  user_input : json }.

(** The arguments of [box_client.docgen.create_docgen_batch_v2025_r0]. *)
Record DocgenBatchRequest := {
  file : pystr;
  input_source : pystr;
  destination_folder : pystr;
  output_type_flag : pystr;
  document_generation_data : list DocGenDocumentGenerationData }.

(** The dict returned by [upload_dummy_content] and kept in the global
    [uploaded_ids]; [uploaded_image_ids] maps file names to ids. *)
Record UploadedIds := {
  base_folder_id : pystr;
  claims_folder_id : pystr;
  claim_folder_id : pystr;
  images_folder_id : pystr;
  uploaded_image_ids : list (pystr * pystr);
  template_file_id : pystr }.

Inductive AgentId : Type :=
| claim_orchestrator
| image_analysis_agent
| cost_estimation_agent
| repair_shop_agent.

Definition AgentId_eqb (a b : AgentId) : bool :=
  match a, b with
  | claim_orchestrator, claim_orchestrator
  | image_analysis_agent, image_analysis_agent
  | cost_estimation_agent, cost_estimation_agent
  | repair_shop_agent, repair_shop_agent => true
  | _, _ => false
  end.

(** The two tools handed to agents: the function tool made of
    [analyze_vehicle_damage_gpt4v] and the hosted [WebSearchTool()]. *)
Inductive Tool : Type :=
| analyze_vehicle_damage_gpt4v_tool
| WebSearchTool.

Definition Tool_eqb (a b : Tool) : bool :=
  match a, b with
  | analyze_vehicle_damage_gpt4v_tool, analyze_vehicle_damage_gpt4v_tool
  | WebSearchTool, WebSearchTool => true
  | _, _ => false
  end.

(** A tool call in a model response, with its decoded arguments. *)
Inductive ToolCall : Type :=
| call_analyze_vehicle_damage_gpt4v
    (image_urls : list pystr) (year make model : pystr)
| call_web_search (query : pystr).

Definition tool_of (c : ToolCall) : Tool :=
  match c with
  | call_analyze_vehicle_damage_gpt4v _ _ _ _ =>
      analyze_vehicle_damage_gpt4v_tool
  | call_web_search _ => WebSearchTool
  end.

(** What a run accumulates and shows to the next model call. *)
Inductive RunItem : Type :=
| MessageOutputItem (a : AgentId) (t : text)
| ToolCallItem (a : AgentId) (c : ToolCall)
| ToolCallOutputItem (a : AgentId) (output : Exc json)
| HandoffOutputItem (source target : AgentId).

(** One model response: an optional text message, tool calls, and calls of
    [transfer_to_<agent>] functions. *)
Record ModelResponse := {
  message : option text;
  tool_calls : list ToolCall;
  handoff_calls : list AgentId }.

(** Every request that leaves the notebook. *)
Inductive Call : Type :=
| OpenFile (path : pystr)
| BoxGetFileById (file_id : pystr)
| GuardrailModelCall (input : pystr)
| ModelCall (a : AgentId)
| VisionCall (req : ResponsesRequest)
| WebSearchCall (query : pystr)
| DocGenCall (req : DocgenBatchRequest).

(** The environment of one execution of the notebook: the files, the Box
    account, the clock, the models behind the agents, the vision model and
    the scheduler.  [llm a input items] is the response of the model behind
    agent [a] to the original input and the items generated so far. *)
Record Env := {
  uploaded_ids : UploadedIds;
  file_system : pystr -> option text;
  box_download_url : pystr -> Exc pystr;
  box_create_docgen_batch : DocgenBatchRequest -> Exc pystr;
  today : date;
  py_repr : json -> pystr;
  llm : AgentId -> pystr -> list RunItem -> Exc ModelResponse;
  guardrail_llm : pystr -> Exc InsuranceGuardrailOutput.t;
  responses_create : ResponsesRequest -> Exc text;
  first_turn_fails_first : bool }.

Record World := { stdout : list pystr; calls : list Call }.

Definition fresh : World := {| stdout := []; calls := [] |}.

(** Notebook code: it prints, calls services, and returns or raises. *)
Definition M (A : Type) : Type := World -> World * Exc A.

Definition ret {A} (a : A) : M A := fun w => (w, inr a).

Definition raise {A} (e : PyExc) : M A := fun w => (w, inl e).

Definition bind {A B} (c : M A) (k : A -> M B) : M B :=
  fun w =>
    match c w with
    | (w', inl e) => (w', inl e)
    | (w', inr a) => k a w'
    end.

Notation "x <- c ;; k" := (bind c (fun x => k))
  (at level 61, c at next level, right associativity).
Notation "c ;;; k" := (bind c (fun _ => k))
  (at level 61, right associativity).

(** [print(line)]. *)
Definition print (line : pystr) : M unit :=
  fun w => ({| stdout := stdout w ++ [line]; calls := calls w |}, inr tt).

(** A request to a service, and its answer. *)
Definition call {A} (c : Call) (answer : Exc A) : M A :=
  fun w => ({| stdout := stdout w; calls := calls w ++ [c] |}, answer).

(** [try: body except Exception as exc: handler(exc)]. *)
Definition try_except {A} (body : M A) (handler : PyExc -> M A) : M A :=
  fun w =>
    match body w with
    | (w', inl e) => handler e w'
    | (w', inr a) => (w', inr a)
    end.

Fixpoint for_each {A B} (f : A -> M B) (l : list A) : M (list B) :=
  match l with
  | [] => ret []
  | a :: l' => b <- f a ;; bs <- for_each f l' ;; ret (b :: bs)
  end.

(** [json.loads(s)]. *)
Definition json_loads (s : text) : M json :=
  match s with
  | Json j => ret j
  | NotJson _ => raise JSONDecodeError
  end.

(* ===================================================================== *)
(** * Step 4: the vision tool and the guardrail *)
(* ===================================================================== *)

(** The text of the [input_text] part built by
    [analyze_vehicle_damage_gpt4v]. *)
Definition damage_prompt (year make model : pystr) : pystr :=
  u "Think deeply. Based on these images, create a list of parts that you estimate "
  ++ u "will need repaired or replaced, as well as a detailed description of the damage "
  ++ u "to the vehicle. Make sure to think about and include hidden damage that you "
  ++ u "might not be able to see in the photos, for example camera in the bumper or the "
  ++ u "batteries the vehicle uses. The vehicle is a " ++ year ++ u " " ++ make
  ++ u " " ++ model ++ u ". "
  ++ u "Return a valid JSON object that includes the following:" ++ NL
  ++ u " - " ++ QUOTE ++ u "damage_description" ++ QUOTE
  ++ u ": a concise summary describing the overall damage to "
  ++ u "the vehicle." ++ NL
  ++ u " - " ++ QUOTE ++ u "damaged_parts_list" ++ QUOTE
  ++ u ": a list of parts that need repair or replacement." ++ NL
  ++ u "Do NOT include any cost estimates, extra explanations, or any text outside of "
  ++ u "this JSON object. Follow proper JSON formatting.".

Definition input_content (image_urls : list pystr) (year make model : pystr)
  : json :=
  JArr [JObj [(u "role", JStr (u "user"));
              (u "content",
               JArr ([JObj [(u "type", JStr (u "input_text"));
                            (u "text", JStr (damage_prompt year make model))]]
                     ++ map (fun url =>
                               JObj [(u "type", JStr (u "input_image"));
                                     (u "image_url", JStr url)])
                          image_urls))]].

Definition schema : json :=
  JObj [(u "type", JStr (u "object"));
        (u "properties",
         JObj [(u "damage_description",
                JObj [(u "type", JStr (u "string"))]);
               (u "damaged_parts_list",
                JObj [(u "type", JStr (u "array"));
                      (u "items", JObj [(u "type", JStr (u "string"))])])]);
        (u "required",
         JArr [JStr (u "damage_description"); JStr (u "damaged_parts_list")]);
        (u "additionalProperties", JBool false)].

Definition damage_request (image_urls : list pystr) (year make model : pystr)
  : ResponsesRequest :=
  {| req_model := u "gpt-4.1";
     req_input := input_content image_urls year make model;
     req_text :=
       JObj [(u "format",
              JObj [(u "type", JStr (u "json_schema"));
                    (u "name", JStr (u "DamageInfo"));
                    (u "schema", schema);
                    (u "strict", JBool true)])] |}.

Definition analyze_vehicle_damage_gpt4v (env : Env)
    (image_urls : list pystr) (year make model : pystr) : M json :=
  print (py_repr env (input_content image_urls year make model)) ;;;
  response_output_text <-
    call (VisionCall (damage_request image_urls year make model))
         (responses_create env (damage_request image_urls year make model)) ;;
  json_loads response_output_text.

Record GuardrailFunctionOutput := {
  output_info : InsuranceGuardrailOutput.t;
  tripwire_triggered : bool }.

(** [Runner.run(guardrail_agent, input_data)] is one exchange with the
    guardrail model, whose answer is [guardrail_llm env input_data]. *)
Definition insurance_query_guardrail (env : Env) (input_data : pystr)
  : M GuardrailFunctionOutput :=
  final_output <-
    call (GuardrailModelCall input_data) (guardrail_llm env input_data) ;;
  ret {| output_info := final_output;
         tripwire_triggered :=
           negb (InsuranceGuardrailOutput.is_insurance_related final_output) |}.

(* ===================================================================== *)
(** * Step 5: the agents *)
(* ===================================================================== *)

Inductive Guardrail : Type := insurance_query_guardrail_ref.

(** An [Agent] object.  The instructions are text for the model and have no
    effect on the code; the hand-off list holds references to agents. *)
Record Agent := {
  name : pystr;
  model : pystr;
  tools : list Tool;
  handoffs : list AgentId;
  input_guardrails : list Guardrail;
  output_type : OutputType }.

(** The four objects as their constructors leave them. *)
Definition constructed (a : AgentId) : Agent :=
  match a with
  | repair_shop_agent =>
      {| name := u "Repair Shop Finder"; model := u "gpt-4.1-mini";
         tools := [WebSearchTool]; handoffs := [];
         input_guardrails := []; output_type := TShops |}
  | cost_estimation_agent =>
      {| name := u "Cost Estimator"; model := u "gpt-4.1-mini";
         tools := []; handoffs := [repair_shop_agent];
         input_guardrails := []; output_type := TEstimatedCost |}
  | image_analysis_agent =>
      {| name := u "Image Analyst"; model := u "gpt-4.1";
         tools := [analyze_vehicle_damage_gpt4v_tool];
         handoffs := [cost_estimation_agent];
         input_guardrails := []; output_type := TDamageInfo |}
  | claim_orchestrator =>
      {| name := u "Insurance Claim Orchestrator"; model := u "gpt-4.1";
         tools := []; handoffs := [image_analysis_agent];
         input_guardrails := [insurance_query_guardrail_ref];
         output_type := TInsuranceReport |}
  end.

(** [target.handoffs = hs] on the heap of agents. *)
Definition set_handoffs (target : AgentId) (hs : list AgentId)
    (heap : AgentId -> Agent) : AgentId -> Agent :=
  fun a =>
    if AgentId_eqb a target
    then {| name := name (heap a); model := model (heap a);
            tools := tools (heap a); handoffs := hs;
            input_guardrails := input_guardrails (heap a);
            output_type := output_type (heap a) |}
    else heap a.

(** The agents as every run sees them, after the last statement of the
    cell: [repair_shop_agent.handoffs = [claim_orchestrator]]. *)
Definition agents : AgentId -> Agent :=
  set_handoffs repair_shop_agent [claim_orchestrator] constructed.

(* ===================================================================== *)
(** * The run loop of the Agents SDK

    [Runner.run] belongs to the SDK, not to the notebook.  The loop below
    is its documented behaviour, restricted to what the notebook uses: a
    turn calls the model of the current agent; an unknown tool or hand-off
    is a [ModelBehaviorError]; function tools run and their errors are
    reported to the model (the default [failure_error_function]); a
    hand-off, when present, wins and makes its target the current agent;
    otherwise a text message is validated against the agent's
    [output_type] and ends the run; otherwise the agent runs again.  The
    input guardrails of the starting agent run alongside the first turn.
    At most [DEFAULT_MAX_TURNS] turns are taken. *)
(* ===================================================================== *)

Inductive NextStep : Type :=
| NextStepFinalOutput (output : PyVal)
| NextStepHandoff (new_agent : AgentId)
| NextStepRunAgain.

Record SingleStepResult := {
  new_step_items : list RunItem;
  next_step : NextStep }.

Record RunResult := {
  final_output : PyVal;
  last_agent : AgentId;
  new_items : list RunItem }.

Definition DEFAULT_MAX_TURNS : nat := 10.

(** Running one tool call.  The function tool never raises into the run:
    its exception becomes the output shown to the model.  The hosted web
    search runs on the model's side and leaves no local output. *)
Definition invoke_tool (env : Env) (a : AgentId) (c : ToolCall)
  : M (list RunItem) :=
  match c with
  | call_analyze_vehicle_damage_gpt4v image_urls year make model =>
      fun w =>
        let (w', output) :=
          analyze_vehicle_damage_gpt4v env image_urls year make model w in
        (w', inr [ToolCallOutputItem a output])
  | call_web_search query =>
      call (WebSearchCall query) (inr [])
  end.

Definition message_items (a : AgentId) (m : option text) : list RunItem :=
  match m with
  | Some t => [MessageOutputItem a t]
  | None => []
  end.

Definition run_single_turn (env : Env) (a : AgentId) (input : pystr)
    (items : list RunItem) : M SingleStepResult :=
  response <- call (ModelCall a) (llm env a input items) ;;
  if negb (forallb (fun c => existsb (Tool_eqb (tool_of c)) (tools (agents a)))
             (tool_calls response))
  then raise ModelBehaviorError
  else if negb (forallb (fun t => existsb (AgentId_eqb t) (handoffs (agents a)))
                  (handoff_calls response))
  then raise ModelBehaviorError
  else
    outputs <- for_each (invoke_tool env a) (tool_calls response) ;;
    let generated :=
      message_items a (message response)
      ++ map (ToolCallItem a) (tool_calls response)
      ++ List.concat outputs in
    match handoff_calls response with
    | target :: _ =>
        ret {| new_step_items := generated ++ [HandoffOutputItem a target];
               next_step := NextStepHandoff target |}
    | [] =>
        match message response with
        | Some t =>
            match validate_json (output_type (agents a)) t with
            | Some v =>
                ret {| new_step_items := generated;
                       next_step := NextStepFinalOutput v |}
            | None => raise ModelBehaviorError
            end
        | None =>
            ret {| new_step_items := generated;
                   next_step := NextStepRunAgain |}
        end
    end.

Definition run_guardrail (env : Env) (g : Guardrail) (input : pystr)
  : M GuardrailFunctionOutput :=
  match g with
  | insurance_query_guardrail_ref => insurance_query_guardrail env input
  end.

Fixpoint run_input_guardrails (env : Env) (gs : list Guardrail)
    (input : pystr) : M unit :=
  match gs with
  | [] => ret tt
  | g :: gs' =>
      result <- run_guardrail env g input ;;
      if tripwire_triggered result
      then raise InputGuardrailTripwireTriggered
      else run_input_guardrails env gs' input
  end.

(** The first turn: the guardrails and the turn are started together and
    both run to their end; when both fail, the environment says which
    failure was the first to be seen. *)
Definition first_turn (env : Env) (a : AgentId) (input : pystr)
  : M SingleStepResult :=
  fun w =>
    let (w1, guard) :=
      run_input_guardrails env (input_guardrails (agents a)) input w in
    let (w2, turn) := run_single_turn env a input [] w1 in
    (w2,
     match guard, turn with
     | inl eg, inl et => inl (if first_turn_fails_first env then et else eg)
     | inl eg, inr _ => inl eg
     | inr _, inl et => inl et
     | inr _, inr step => inr step
     end).

Fixpoint run_loop (turns_left : nat) (env : Env) (input : pystr)
    (first : bool) (current : AgentId) (items : list RunItem)
  : M RunResult :=
  match turns_left with
  | O => raise MaxTurnsExceeded
  | S n =>
      step <- (if first then first_turn env current input
               else run_single_turn env current input items) ;;
      match next_step step with
      | NextStepFinalOutput v =>
          ret {| final_output := v; last_agent := current;
                 new_items := items ++ new_step_items step |}
      | NextStepHandoff new_agent =>
          run_loop n env input false new_agent (items ++ new_step_items step)
      | NextStepRunAgain =>
          run_loop n env input false current (items ++ new_step_items step)
      end
  end.

Definition Runner_run (env : Env) (starting_agent : AgentId) (input : pystr)
  : M RunResult :=
  run_loop DEFAULT_MAX_TURNS env input true starting_agent [].

(* ===================================================================== *)
(** * Step 6: the claim workflow *)
(* ===================================================================== *)

Definition CLAIM_INFO_FILE_PATH : pystr :=
  u "./supporting_files/dummy_customer_information.json".

(** [v[k]] for a string key. *)
Definition subscript (v : json) (k : pystr) : M json :=
  match v with
  | JObj d =>
      match lookup k d with
      | Some x => ret x
      | None => raise (KeyError k)
      end
  | _ => raise TypeError
  end.

(** [with open(path) as f: json.load(f)].  [file_system] gives, for a
    path, nothing when the file cannot be opened and otherwise its content
    as text; a file whose bytes are not UTF-8 text (Python's
    [UnicodeDecodeError]) and the limits of the decoder on size and depth
    are outside this model. *)
Definition json_load_file (env : Env) (path : pystr) : M json :=
  f <- call (OpenFile path)
         (match file_system env path with
          | Some t => inr t
          | None => inl OSError
          end) ;;
  json_loads f.

Definition parse_customer_info_file (env : Env) (json_path : pystr)
  : M (Customer.t * json) :=
  raw <- json_load_file env json_path ;;
  customer_kwargs <-
    for_each (fun field =>
                v <- subscript raw (u "customer_" ++ u field) ;;
                ret (u field, v))
      customer_fields ;;
  match validate_Customer (JObj customer_kwargs) with
  | Some customer => ret (customer, raw)
  | None => raise ValidationError
  end.

Definition customer_address (customer : Customer.t) : pystr :=
  Customer.street_address customer ++ u ", " ++ Customer.city customer
  ++ u ", " ++ Customer.state customer ++ u " " ++ Customer.zip_code customer.

Definition query (env : Env) (customer : Customer.t) (raw_json : json)
    (image_urls : list pystr) : pystr :=
  NL
  ++ u "    Process an insurance claim for a " ++ Customer.car_year customer
  ++ u " " ++ Customer.car_make customer ++ u " "
  ++ Customer.car_model customer ++ u " with damage." ++ NL
  ++ u "    Customer is located at: " ++ customer_address customer ++ NL
  ++ u "    Analyze these damage photos: " ++ join (u ", ") image_urls ++ NL
  ++ u "    Other information to use for the final object: "
  ++ py_repr env raw_json ++ NL
  ++ u "    ".

(** [str(exc)] for the exception the [try] block can raise. *)
Definition str_exc (e : PyExc) : pystr :=
  match e with
  | AssertionError arg => arg
  | _ => []
  end.

(** [report.claim], an attribute only an [InsuranceReport] has. *)
Definition attr_claim (v : PyVal) : M Claim.t :=
  match v with
  | VInsuranceReport r => ret (InsuranceReport.claim r)
  | _ => raise AttributeError
  end.

(** [report.claim.report_date = d]. *)
Definition assign_report_date (d : pystr) (v : PyVal) : M PyVal :=
  match v with
  | VInsuranceReport r =>
      ret (VInsuranceReport (InsuranceReport.set_claim_report_date d r))
  | _ => raise AttributeError
  end.

(** The statements of [process_insurance_claim] up to the query. *)
Definition prepare_query (env : Env) : M pystr :=
  print (u "Loading customer information " ++ ELLIPSIS) ;;;
  parsed <- parse_customer_info_file env CLAIM_INFO_FILE_PATH ;;
  let (customer, raw_json) := parsed in
  let image_ids := map snd (uploaded_image_ids (uploaded_ids env)) in
  image_urls <-
    for_each (fun image_id =>
                download_url <-
                  call (BoxGetFileById image_id)
                       (box_download_url env image_id) ;;
                print (u "Download URL: " ++ download_url) ;;;
                ret download_url)
      image_ids ;;
  ret (query env customer raw_json image_urls).

(** The statements of [process_insurance_claim] after [Runner.run]. *)
Definition require_report (env : Env) (result : RunResult) : M PyVal :=
  report <-
    try_except
      (let report := final_output result in
       match report with
       | VInsuranceReport _ => ret report
       | _ => raise (AssertionError (class_repr (type_of report)))
       end)
      (fun exc =>
         print (CROSS_MARK ++ NBSP
                ++ u "Orchestrator failed to return a valid InsuranceReport:"
                ++ NL ++ u " " ++ str_exc exc) ;;;
         raise exc) ;;
  claim <- attr_claim report ;;
  report <-
    (if negb (str_truthy (Claim.report_date claim))
        || negb (str_truthy (strip (Claim.report_date claim)))
     then assign_report_date (isoformat (today env)) report
     else ret report) ;;
  print (CHECK_MARK ++ NBSP ++ u "Workflow finished " ++ ENDASH ++ NBSP
         ++ u "InsuranceReport ready") ;;;
  ret report.

Definition process_insurance_claim (env : Env) : M PyVal :=
  query <- prepare_query env ;;
  print (u "Running claim orchestrator " ++ ELLIPSIS) ;;;
  result <- Runner_run env claim_orchestrator query ;;
  require_report env result.

(* ===================================================================== *)
(** * Step 7: the document-generation cell *)
(* ===================================================================== *)

(** [d.get(k, default)]. *)
Definition dict_get (v : json) (k : pystr) (default : json) : M json :=
  match v with
  | JObj d =>
      match lookup k d with
      | Some x => ret x
      | None => ret default
      end
  | _ => raise AttributeError
  end.

(** [sep.join(v)]: [v] must be iterable and yield strings only. *)
Definition str_join (sep : pystr) (v : json) : M pystr :=
  match v with
  | JArr l =>
      match str_list l with
      | Some parts => ret (join sep parts)
      | None => raise TypeError
      end
  | JStr s => ret (join sep (map (fun c => [c]) s))
  | JObj d => ret (join sep (map fst d))
  | _ => raise TypeError
  end.

(** [d[k1][k2] = x]: the inner dict is the object held by the outer one. *)
Definition setitem2 (v : json) (k1 k2 : pystr) (x : json) : M json :=
  match v with
  | JObj d =>
      match lookup k1 d with
      | Some (JObj inner) => ret (JObj (store k1 (JObj (store k2 x inner)) d))
      | Some _ => raise TypeError
      | None => raise (KeyError k1)
      end
  | _ => raise TypeError
  end.

(** [final_report.claim_number]. *)
Definition attr_claim_number (v : PyVal) : M pystr :=
  match v with
  | VInsuranceReport r => ret (InsuranceReport.claim_number r)
  | _ => raise AttributeError
  end.

Definition docgen_request (env : Env) (claim_number : pystr)
    (docgen_user_input : json) : DocgenBatchRequest :=
  {| file := template_file_id (uploaded_ids env);
     input_source := u "api";
     destination_folder := claim_folder_id (uploaded_ids env);
     output_type_flag := u "pdf";
     document_generation_data :=
       [{| generated_file_name :=
             u "Pre" ++ NBHYPHEN ++ u "Inspection" ++ NBHYPHEN ++ u "Report"
             ++ NBHYPHEN ++ claim_number;
           user_input := docgen_user_input |}] |}.

Definition generate_report (env : Env) (final_report : PyVal) : M pystr :=
  let docgen_user_input := model_dump final_report in
  claim <- subscript docgen_user_input (u "claim") ;;
  parts_list <- dict_get claim (u "damaged_parts_list") (JArr []) ;;
  joined <- str_join (u ", ") parts_list ;;
  docgen_user_input <-
    setitem2 docgen_user_input (u "claim") (u "damaged_parts_list")
      (JStr joined) ;;
  print (PAGE ++ u "  Submitting Box Doc" ++ NBSP ++ u "Gen job " ++ ELLIPSIS) ;;;
  claim_number <- attr_claim_number final_report ;;
  batch_id <-
    call (DocGenCall (docgen_request env claim_number docgen_user_input))
         (box_create_docgen_batch env
            (docgen_request env claim_number docgen_user_input)) ;;
  print (u "Doc" ++ NBSP ++ u "Gen batch created (batch_id = " ++ batch_id
         ++ u ").") ;;;
  ret batch_id.

(** Steps 6 and 7 run one after the other: a cell that raises stops the
    notebook. *)
Definition notebook (env : Env) : M pystr :=
  print (ROCKET ++ NBSP ++ u "Starting complete insurance" ++ NBHYPHEN
         ++ u "claim workflow " ++ ELLIPSIS) ;;;
  final_report <- process_insurance_claim env ;;
  generate_report env final_report.

(* ===================================================================== *)
(** * The vocabulary of the statements *)
(* ===================================================================== *)

(** Empty or made of whitespace only. *)
Definition blank (s : pystr) : bool := forallb isspace s.

(** The members of a dict. *)
Definition members (j : json) : list (pystr * json) :=
  match j with JObj d => d | _ => [] end.

(** The world after one more printed line, and after one more call. *)
Definition logged (line : pystr) (w : World) : World :=
  {| stdout := stdout w ++ [line]; calls := calls w |}.

Definition called (c : Call) (w : World) : World :=
  {| stdout := stdout w; calls := calls w ++ [c] |}.

(** The lines the notebook prints around the run. *)
Definition START : pystr :=
  ROCKET ++ NBSP ++ u "Starting complete insurance" ++ NBHYPHEN
  ++ u "claim workflow " ++ ELLIPSIS.

Definition RUNNING : pystr := u "Running claim orchestrator " ++ ELLIPSIS.

Definition FINISHED : pystr :=
  CHECK_MARK ++ NBSP ++ u "Workflow finished " ++ ENDASH ++ NBSP
  ++ u "InsuranceReport ready".

Definition FAILED (t : OutputType) : pystr :=
  CROSS_MARK ++ NBSP
  ++ u "Orchestrator failed to return a valid InsuranceReport:"
  ++ NL ++ u " " ++ class_repr t.

(** [only_calls P c]: whatever [c] does, it leaves the earlier calls in
    place and adds calls of kind [P] only. *)
Definition only_calls {A} (P : Call -> bool) (c : M A) : Prop :=
  forall w w' r, c w = (w', r) ->
    exists cs, calls w' = calls w ++ cs /\ forallb P cs = true.

(** Kinds of calls. *)
Definition is_prelude_call (c : Call) : bool :=
  match c with OpenFile _ | BoxGetFileById _ => true | _ => false end.

Definition is_guardrail_call (c : Call) : bool :=
  match c with GuardrailModelCall _ => true | _ => false end.

Definition is_tool_call (c : Call) : bool :=
  match c with VisionCall _ | WebSearchCall _ => true | _ => false end.

Definition is_run_call (c : Call) : bool :=
  match c with
  | GuardrailModelCall _ | ModelCall _ | VisionCall _ | WebSearchCall _ =>
      true
  | _ => false
  end.

Definition is_later_call (c : Call) : bool :=
  match c with
  | ModelCall _ | VisionCall _ | WebSearchCall _ | DocGenCall _ => true
  | _ => false
  end.

Definition specialist (a : AgentId) : bool :=
  negb (AgentId_eqb a claim_orchestrator).

(** A call to the model of a specialist, to the vision service, to web
    search or to the document-generation service. *)
Definition downstream_call (c : Call) : bool :=
  match c with
  | ModelCall a => specialist a
  | VisionCall _ | WebSearchCall _ | DocGenCall _ => true
  | _ => false
  end.

(** The agents whose model was called, in order: one entry per turn. *)
Definition agents_run (cs : list Call) : list AgentId :=
  flat_map (fun c => match c with ModelCall a => [a] | _ => [] end) cs.

(** The ring Orchestrator, Image Analyst, Cost Estimator, Repair Shop
    Finder, Orchestrator. *)
Definition next_agent (a : AgentId) : AgentId :=
  match a with
  | claim_orchestrator => image_analysis_agent
  | image_analysis_agent => cost_estimation_agent
  | cost_estimation_agent => repair_shop_agent
  | repair_shop_agent => claim_orchestrator
  end.

(** Every turn belongs to the agent of the turn before or to the next
    agent on the ring. *)
Fixpoint follows_handoffs (l : list AgentId) : bool :=
  match l with
  | a :: (b :: _) as rest =>
      (AgentId_eqb b a || AgentId_eqb b (next_agent a))
      && follows_handoffs rest
  | _ => true
  end.

Definition starts_with (a : AgentId) (l : list AgentId) : bool :=
  match l with
  | [] => true
  | b :: _ => AgentId_eqb b a
  end.

(** What a turn of agent [a] can decide. *)
Definition step_ok (a : AgentId) (res : Exc SingleStepResult) : Prop :=
  match res with
  | inl _ => True
  | inr step =>
      match next_step step with
      | NextStepHandoff t => t = next_agent a
      | NextStepFinalOutput v => type_of v = output_type (agents a)
      | NextStepRunAgain => True
      end
  end.

(** What every run of the loop satisfies, whatever the models answer. *)
Definition run_ok (a : AgentId) (cs : list Call) (res : Exc RunResult)
  : Prop :=
  forallb is_run_call cs = true
  /\ starts_with a (agents_run cs) = true
  /\ follows_handoffs (agents_run cs) = true
  /\ forall r, res = inr r ->
       (exists before, agents_run cs = before ++ [last_agent r])
       /\ type_of (final_output r) = output_type (agents (last_agent r)).

(** What the run loop does with the outcome of a turn. *)
Definition after_turn (n : nat) (env : Env) (input : pystr) (a : AgentId)
    (items : list RunItem) (step : SingleStepResult) : M RunResult :=
  match next_step step with
  | NextStepFinalOutput v =>
      ret {| final_output := v; last_agent := a;
             new_items := items ++ new_step_items step |}
  | NextStepHandoff new_agent =>
      run_loop n env input false new_agent (items ++ new_step_items step)
  | NextStepRunAgain =>
      run_loop n env input false a (items ++ new_step_items step)
  end.

(** A turn as the run loop takes it: the first one with the input
    guardrails alongside. *)
Definition take_turn (env : Env) (input : pystr) (first : bool)
    (a : AgentId) (items : list RunItem) : M SingleStepResult :=
  if first then first_turn env a input
  else run_single_turn env a input items.

(** What a turn decided, or the exception it raised. *)
Definition decision (res : Exc SingleStepResult) : Exc NextStep :=
  match res with
  | inl e => inl e
  | inr step => inr (next_step step)
  end.

(** [turns env input first a items w ts w']: from the world [w], with [a]
    the current agent and [items] generated so far, the turns [ts] are
    taken one after the other and leave the world [w'].  An entry is the
    agent of a turn and what the turn decided.  A turn follows another
    one only when that one handed off (the target takes the next turn,
    with the items of the turn added) or decided to run again (the same
    agent takes it); no turn follows a final output or an exception. *)
Inductive turns (env : Env) (input : pystr)
  : bool -> AgentId -> list RunItem -> World
    -> list (AgentId * Exc NextStep) -> World -> Prop :=
| turns_none first a items w :
    turns env input first a items w [] w
| turns_last first a items w w' res :
    take_turn env input first a items w = (w', res) ->
    turns env input first a items w [(a, decision res)] w'
| turns_handoff first a items w w1 step target ts w' :
    take_turn env input first a items w = (w1, inr step) ->
    next_step step = NextStepHandoff target ->
    turns env input false target (items ++ new_step_items step) w1 ts w' ->
    turns env input first a items w
      ((a, inr (NextStepHandoff target)) :: ts) w'
| turns_again first a items w w1 step ts w' :
    take_turn env input first a items w = (w1, inr step) ->
    next_step step = NextStepRunAgain ->
    turns env input false a (items ++ new_step_items step) w1 ts w' ->
    turns env input first a items w ((a, inr NextStepRunAgain) :: ts) w'.

(** A decision after which the run goes on. *)
Definition goes_on (d : Exc NextStep) : bool :=
  match d with
  | inr (NextStepHandoff _) | inr NextStepRunAgain => true
  | _ => false
  end.

(** The verdict of the guardrail as the run loop sees it. *)
Definition guardrail_outcome (env : Env) (input : pystr) : Exc unit :=
  match guardrail_llm env input with
  | inl e => inl e
  | inr verdict =>
      if negb (InsuranceGuardrailOutput.is_insurance_related verdict)
      then inl InputGuardrailTripwireTriggered
      else inr tt
  end.

(** The report with its date filled in when it is blank. *)
Definition fill_report_date (env : Env) (r : InsuranceReport.t)
  : InsuranceReport.t :=
  if blank (Claim.report_date (InsuranceReport.claim r))
  then InsuranceReport.set_claim_report_date (isoformat (today env)) r
  else r.

Definition same_other_claim_fields (c c' : Claim.t) : Prop :=
  Claim.assigned_adjuster c' = Claim.assigned_adjuster c
  /\ Claim.other_driver_insurance_company c'
     = Claim.other_driver_insurance_company c
  /\ Claim.other_driver_policy_number c' = Claim.other_driver_policy_number c
  /\ Claim.cross_streets_of_accident c' = Claim.cross_streets_of_accident c
  /\ Claim.date_of_incident c' = Claim.date_of_incident c
  /\ Claim.time_of_incident c' = Claim.time_of_incident c
  /\ Claim.number_of_vehicles_involved c'
     = Claim.number_of_vehicles_involved c
  /\ Claim.customer_initial_report c' = Claim.customer_initial_report c
  /\ Claim.law_enforcement_agency c' = Claim.law_enforcement_agency c
  /\ Claim.law_enforcement_report_id c' = Claim.law_enforcement_report_id c
  /\ Claim.damage_description c' = Claim.damage_description c
  /\ Claim.estimated_cost c' = Claim.estimated_cost c
  /\ Claim.damaged_parts_list c' = Claim.damaged_parts_list c.

(** Two reports that differ in [claim.report_date] at most. *)
Definition same_but_report_date (r r' : InsuranceReport.t) : Prop :=
  InsuranceReport.claim_number r' = InsuranceReport.claim_number r
  /\ InsuranceReport.customer r' = InsuranceReport.customer r
  /\ InsuranceReport.shops r' = InsuranceReport.shops r
  /\ same_other_claim_fields (InsuranceReport.claim r)
       (InsuranceReport.claim r').

(** The text part of a request to the vision service. *)
Definition request_text (req : ResponsesRequest) : option pystr :=
  match req_input req with
  | JArr [JObj m] =>
      match lookup (u "content") m with
      | Some (JArr (JObj part :: _)) =>
          match lookup (u "text") part with
          | Some (JStr t) => Some t
          | _ => None
          end
      | _ => None
      end
  | _ => None
  end.

(** The shape the vision service is asked for: an object with exactly a
    string [damage_description] and a list of strings
    [damaged_parts_list]. *)
Definition DamageInfo_shape (j : json) : bool :=
  match j with
  | JObj d =>
      match field_str "damage_description" d,
            field_str_list "damaged_parts_list" d with
      | Some _, Some _ =>
          forallb (fun kv =>
                     pystr_eqb (fst kv) (u "damage_description")
                     || pystr_eqb (fst kv) (u "damaged_parts_list")) d
      | _, _ => false
      end
  | _ => false
  end.

(** The attributes of a [Customer] by name. *)
Definition customer_attributes : list (string * (Customer.t -> pystr)) :=
  [("first_name", Customer.first_name); ("last_name", Customer.last_name);
   ("street_address", Customer.street_address); ("city", Customer.city);
   ("state", Customer.state); ("zip_code", Customer.zip_code);
   ("phone_number", Customer.phone_number); ("email", Customer.email);
   ("car_year", Customer.car_year); ("car_make", Customer.car_make);
   ("car_model", Customer.car_model); ("vin", Customer.vin);
   ("license_plate", Customer.license_plate);
   ("car_mileage", Customer.car_mileage); ("car_color", Customer.car_color);
   ("policy_number", Customer.policy_number)]%string.

(** [getattr(customer, field)]. *)
Definition getattr (c : Customer.t) (field : string) : option pystr :=
  option_map (fun p => snd p c)
    (find (fun p => String.eqb (fst p) field) customer_attributes).

(** The string a customer file holds for a field, if it is one. *)
Definition customer_value (d : list (pystr * json)) (field : string)
  : pystr :=
  match lookup (u "customer_" ++ u field) d with
  | Some (JStr s) => s
  | _ => []
  end.

(* ===================================================================== *)
(** * Concrete executions *)
(* ===================================================================== *)

Module Sample.

Definition customer_record : list (pystr * json) :=
  map (fun kv => (u "customer_" ++ u (fst kv), JStr (u (snd kv))))
    [("first_name", "Ada"); ("last_name", "Byron");
     ("street_address", "123 Main St"); ("city", "Springfield");
     ("state", "IL"); ("zip_code", "62704");
     ("phone_number", "555-0100"); ("email", "ada@example.com");
     ("car_year", "2023"); ("car_make", "Honda"); ("car_model", "Civic");
     ("vin", "1HGCM82633A004352"); ("license_plate", "ABC123");
     ("car_mileage", "12000"); ("car_color", "Blue");
     ("policy_number", "P-42")]%string.

Definition raw : json :=
  JObj (customer_record ++ [(u "claim_number", JStr (u "G8947892834455"))]).

(** The same file with the car year written as a number. *)
Definition raw_numeric_year : json :=
  JObj (store (u "customer_car_year") (JInt 2023) customer_record).

Definition ids : UploadedIds :=
  {| base_folder_id := u "1"; claims_folder_id := u "2";
     claim_folder_id := u "3"; images_folder_id := u "4";
     uploaded_image_ids := [(u "front.jpg", u "11"); (u "rear.jpg", u "12")];
     template_file_id := u "5" |}.

Definition customer_json : json :=
  JObj (map (fun kv => (u (fst kv), JStr (u (snd kv))))
          [("first_name", "Ada"); ("last_name", "Byron");
           ("street_address", "123 Main St"); ("city", "Springfield");
           ("state", "IL"); ("zip_code", "62704");
           ("phone_number", "555-0100"); ("email", "ada@example.com");
           ("car_year", "2023"); ("car_make", "Honda");
           ("car_model", "Civic"); ("vin", "1HGCM82633A004352");
           ("license_plate", "ABC123"); ("car_mileage", "12000");
           ("car_color", "Blue"); ("policy_number", "P-42")]%string).

Definition claim_members (report_date : string) : list (pystr * json) :=
  [(u "report_date", JStr (u report_date));
   (u "assigned_adjuster", JStr (u "J. Doe"));
   (u "cross_streets_of_accident", JStr (u "1st and Main"));
   (u "date_of_incident", JStr (u "2025-04-20"));
   (u "time_of_incident", JStr (u "10:30"));
   (u "number_of_vehicles_involved", JStr (u "2"));
   (u "customer_initial_report", JStr (u "Rear-ended at a light"));
   (u "other_driver_insurance_company", JNull);
   (u "other_driver_policy_number", JNull);
   (u "law_enforcement_agency", JNull);
   (u "law_enforcement_report_id", JNull)].

Definition damage_json : json :=
  JObj [(u "damage_description", JStr (u "Rear bumper crushed"));
        (u "damaged_parts_list",
         JArr [JStr (u "rear bumper"); JStr (u "parking camera")])].

(** A vision answer without [damaged_parts_list]. *)
Definition damage_json_missing_parts : json :=
  JObj [(u "damage_description", JStr (u "Rear bumper crushed"))].

Definition shops_json : json :=
  JObj [(u "shop_one",
         JObj [(u "shop_name", JStr (u "Main St Auto"));
               (u "shop_address", JStr (u "200 Main St"));
               (u "shop_phone", JStr (u "555-0199"))]);
        (u "shop_two", JNull);
        (u "shop_three", JNull)].

(** A report with everything the specialists found. *)
Definition full_report_json (report_date : string) : json :=
  JObj [(u "claim_number", JStr (u "G8947892834455"));
        (u "claim",
         JObj (claim_members report_date
               ++ [(u "damage_description", JStr (u "Rear bumper crushed"));
                   (u "estimated_cost", JStr (u "$1,000 - $2,000"));
                   (u "damaged_parts_list",
                    JArr [JStr (u "rear bumper");
                          JStr (u "parking camera")])]));
        (u "customer", customer_json);
        (u "shops", shops_json)].

(** A report with nothing from the specialists. *)
Definition bare_report_json : json :=
  JObj [(u "claim_number", JStr (u "G8947892834455"));
        (u "claim",
         JObj (claim_members "2025-04-21"
               ++ [(u "damage_description", JNull);
                   (u "estimated_cost", JNull);
                   (u "damaged_parts_list", JNull)]));
        (u "customer", customer_json);
        (u "shops",
         JObj [(u "shop_one", JNull); (u "shop_two", JNull);
               (u "shop_three", JNull)])].

Definition hand_off (target : AgentId) : Exc ModelResponse :=
  inr {| message := None; tool_calls := []; handoff_calls := [target] |}.

Definition reply_and_hand_off (j : json) (target : AgentId)
  : Exc ModelResponse :=
  inr {| message := Some (Json j); tool_calls := [];
         handoff_calls := [target] |}.

Definition reply (j : json) : Exc ModelResponse :=
  inr {| message := Some (Json j); tool_calls := []; handoff_calls := [] |}.

Definition use_tool (c : ToolCall) : Exc ModelResponse :=
  inr {| message := None; tool_calls := [c]; handoff_calls := [] |}.

Definition has_tool_output (items : list RunItem) : bool :=
  existsb (fun i => match i with ToolCallOutputItem _ _ => true | _ => false end)
    items.

Definition analyst (items : list RunItem) : Exc ModelResponse :=
  if has_tool_output items
  then reply_and_hand_off damage_json cost_estimation_agent
  else use_tool (call_analyze_vehicle_damage_gpt4v
                   [u "https://dl.example/11"; u "https://dl.example/12"]
                   (u "2023") (u "Honda") (u "Civic")).

(** The models follow their instructions: every specialist replies and
    hands off, and the orchestrator merges when it regains control. *)
Definition llm_chain (report_date : string) (a : AgentId) (_ : pystr)
    (items : list RunItem) : Exc ModelResponse :=
  match a with
  | claim_orchestrator =>
      match items with
      | [] => hand_off image_analysis_agent
      | _ => reply (full_report_json report_date)
      end
  | image_analysis_agent => analyst items
  | cost_estimation_agent =>
      reply_and_hand_off
        (JObj [(u "estimated_cost", JStr (u "$1,000 - $2,000"))])
        repair_shop_agent
  | repair_shop_agent => reply_and_hand_off shops_json claim_orchestrator
  end.

(** The orchestrator answers at once, without any hand-off. *)
Definition llm_shortcut (a : AgentId) (_ : pystr) (_ : list RunItem)
  : Exc ModelResponse :=
  reply bare_report_json.

(** The Image Analyst replies with its DamageInfo and does not hand off. *)
Definition llm_stops_at_analyst (a : AgentId) (_ : pystr)
    (items : list RunItem) : Exc ModelResponse :=
  match a with
  | claim_orchestrator => hand_off image_analysis_agent
  | _ => reply damage_json
  end.

(** The orchestrator sends the claim round the specialists twice before it
    merges. *)
Definition llm_two_rounds (a : AgentId) (_ : pystr) (items : list RunItem)
  : Exc ModelResponse :=
  match a with
  | claim_orchestrator =>
      if Nat.ltb (List.length items) 5
      then hand_off image_analysis_agent
      else reply (full_report_json "2025-04-21")
  | image_analysis_agent => hand_off cost_estimation_agent
  | cost_estimation_agent => hand_off repair_shop_agent
  | repair_shop_agent => hand_off claim_orchestrator
  end.

Definition make_env (file : text)
    (llm : AgentId -> pystr -> list RunItem -> Exc ModelResponse)
    (in_domain : bool) (vision : text) : Env :=
  {| uploaded_ids := ids;
     file_system :=
       fun path =>
         if pystr_eqb path CLAIM_INFO_FILE_PATH then Some file else None;
     box_download_url := fun id => inr (u "https://dl.example/" ++ id);
     box_create_docgen_batch := fun _ => inr (u "777");
     today := {| date_year := 2026; date_month := 3; date_day := 7 |};
     py_repr := fun _ => u "{...}";
     llm := llm;
     guardrail_llm :=
       fun _ => inr (InsuranceGuardrailOutput.mk in_domain (u "because"));
     responses_create := fun _ => inr vision;
     first_turn_fails_first := false |}.

Definition env_chain : Env :=
  make_env (Json raw) (llm_chain "2025-04-21") true (Json damage_json).

Definition env_blank_date : Env :=
  make_env (Json raw) (llm_chain "   ") true (Json damage_json).

Definition env_shortcut : Env :=
  make_env (Json raw) llm_shortcut true (Json damage_json).

Definition env_stops_at_analyst : Env :=
  make_env (Json raw) llm_stops_at_analyst true (Json damage_json).

Definition env_two_rounds : Env :=
  make_env (Json raw) llm_two_rounds true (Json damage_json).

Definition env_out_of_domain : Env :=
  make_env (Json raw) (llm_chain "2025-04-21") false (Json damage_json).

Definition env_vision_missing_parts : Env :=
  make_env (Json raw) (llm_chain "2025-04-21") true
    (Json damage_json_missing_parts).

Definition env_numeric_year : Env :=
  make_env (Json raw_numeric_year) (llm_chain "2025-04-21") true
    (Json damage_json).

(** A report as the merge step leaves it, with the given list of parts. *)
Definition report_with (parts : option (list pystr)) : InsuranceReport.t :=
  InsuranceReport.mk (u "G8947892834455")
    (Claim.mk (u "2025-04-21") (u "J. Doe") None None (u "1st and Main")
       (u "2025-04-20") (u "10:30") (u "2") (u "Rear-ended at a light")
       None None (Some (u "Rear bumper crushed"))
       (Some (u "$1,000 - $2,000")) parts)
    (Customer.mk (u "Ada") (u "Byron") (u "123 Main St") (u "Springfield")
       (u "IL") (u "62704") (u "555-0100") (u "ada@example.com") (u "2023")
       (u "Honda") (u "Civic") (u "1HGCM82633A004352") (u "ABC123")
       (u "12000") (u "Blue") (u "P-42"))
    (Shops.mk None None None).

Definition urls : list pystr :=
  [u "https://dl.example/11"; u "https://dl.example/12"].

(** The query a fresh execution builds, the run it starts and the result
    of that run. *)
Definition the_query (env : Env) : pystr :=
  match snd (prepare_query env fresh) with
  | inr q => q
  | inl _ => []
  end.

Definition the_run (env : Env) : World * Exc RunResult :=
  Runner_run env claim_orchestrator (the_query env)
    (logged RUNNING (fst (prepare_query env fresh))).

Definition the_result (env : Env) : RunResult :=
  match snd (the_run env) with
  | inr result => result
  | inl _ =>
      {| final_output := VShops (Shops.mk None None None);
         last_agent := claim_orchestrator; new_items := [] |}
  end.

(** The value a fresh execution of the driver returns. *)
Definition the_report (env : Env) : PyVal :=
  match snd (process_insurance_claim env fresh) with
  | inr v => v
  | inl _ => VShops (Shops.mk None None None)
  end.

End Sample.


(* ===================================================================== *)
(** * Step 3 and step 8: the demo content in Box *)
(* ===================================================================== *)

Definition BASE_FOLDER_NAME : pystr := u "Open AI Demo".
Definition CLAIMS_FOLDER_NAME : pystr := u "Claims".
Definition CLAIM_ID : pystr := u "G8947892834455".
Definition BASE_FOLDER_ID : pystr := u "317948020158".
Definition IMAGES_FOLDER_PATH : pystr := u "./supporting_files/images".
Definition REPORT_TEMPLATE_PATH : pystr :=
  u "./supporting_files/finished_report_template.docx".

(** The content of a file opened with mode ["rb"]. *)
Definition bytes : Type := list N.

(** A folder or a file as Box answers with it. *)
Record BoxItem := { item_id : pystr; item_name : pystr }.

(** The requests of steps 3 and 8 to the local disk and to Box. *)
Inductive SetupCall : Type :=
| ListDir (path : pystr)
| OpenRb (path : pystr)
| CreateFolder (name parent_id : pystr)
| UploadFile (name parent_id : pystr) (content : bytes)
| CreateDocgenTemplate (file_id : pystr)
| DeleteFolderById (folder_id : pystr) (recursive : bool).

(** The local disk and the Box account of steps 3 and 8.
    [uploads_upload_file name parent content] is the first entry of the
    upload's answer; [str_of_exception] is Python's [str] on an
    exception. *)
Record SetupEnv := {
  os_listdir : pystr -> Exc (list pystr);
  os_path_isfile : pystr -> bool;
  open_rb : pystr -> Exc bytes;
  folders_create_folder : pystr -> pystr -> Exc BoxItem;
  uploads_upload_file : pystr -> pystr -> bytes -> Exc BoxItem;
  docgen_template_create : pystr -> Exc pystr;
  folders_delete_folder_by_id : pystr -> bool -> Exc unit;
  str_of_exception : PyExc -> pystr }.

Record SetupWorld := {
  setup_stdout : list pystr;
  setup_calls : list SetupCall }.

Definition setup_fresh : SetupWorld :=
  {| setup_stdout := []; setup_calls := [] |}.

(** The code of steps 3 and 8: it prints, calls the disk and Box, and
    returns or raises. *)
Definition Setup (A : Type) : Type := SetupWorld -> SetupWorld * Exc A.

Definition sret {A} (a : A) : Setup A := fun w => (w, inr a).

Definition sbind {A B} (c : Setup A) (k : A -> Setup B) : Setup B :=
  fun w =>
    match c w with
    | (w', inl e) => (w', inl e)
    | (w', inr a) => k a w'
    end.

Notation "x <~ c ;; k" := (sbind c (fun x => k))
  (at level 61, c at next level, right associativity).
Notation "c ;;~ k" := (sbind c (fun _ => k))
  (at level 61, right associativity).

Definition sprint (line : pystr) : Setup unit :=
  fun w =>
    ({| setup_stdout := setup_stdout w ++ [line];
        setup_calls := setup_calls w |}, inr tt).

Definition scall {A} (c : SetupCall) (answer : Exc A) : Setup A :=
  fun w =>
    ({| setup_stdout := setup_stdout w;
        setup_calls := setup_calls w ++ [c] |}, answer).

Definition stry {A} (body : Setup A) (handler : PyExc -> Setup A)
  : Setup A :=
  fun w =>
    match body w with
    | (w', inl e) => handler e w'
    | (w', inr a) => (w', inr a)
    end.

(** [os.path.join(a, b)] on POSIX. *)
Definition os_path_join (a b : pystr) : pystr :=
  match b with
  | 47%N :: _ => b
  | _ =>
      match rev a with
      | [] => b
      | 47%N :: _ => a ++ b
      | _ => a ++ u "/" ++ b
      end
  end.

(** [d[k] = v] on a dict of strings. *)
Fixpoint dict_store (k v : pystr) (d : list (pystr * pystr))
  : list (pystr * pystr) :=
  match d with
  | [] => [(k, v)]
  | (k', v') :: d' =>
      if pystr_eqb k k' then (k, v) :: d' else (k', v') :: dict_store k v d'
  end.

(** The loop over [os.listdir(images_folder_path)]. *)
Fixpoint upload_images (box : SetupEnv) (images_folder_path : pystr)
    (images_folder_id : pystr) (names : list pystr)
    (uploaded_image_ids : list (pystr * pystr))
  : Setup (list (pystr * pystr)) :=
  match names with
  | [] => sret uploaded_image_ids
  | image_file :: rest =>
      let image_path := os_path_join images_folder_path image_file in
      if os_path_isfile box image_path
      then
        img_stream <~ scall (OpenRb image_path) (open_rb box image_path) ;;
        uploaded_image <~
          scall (UploadFile image_file images_folder_id img_stream)
                (uploads_upload_file box image_file images_folder_id
                   img_stream) ;;
        sprint (u "Uploaded image: " ++ item_name uploaded_image
                ++ u " (ID: " ++ item_id uploaded_image ++ u ")") ;;~
        upload_images box images_folder_path images_folder_id rest
          (dict_store (item_name uploaded_image) (item_id uploaded_image)
             uploaded_image_ids)
      else
        upload_images box images_folder_path images_folder_id rest
          uploaded_image_ids
  end.

(** [client.folders.create_folder(name, CreateFolderParent(id=parent))]
    and the line printed after it. *)
Definition create_folder (box : SetupEnv) (what name parent_id : pystr)
  : Setup BoxItem :=
  folder <~ scall (CreateFolder name parent_id)
              (folders_create_folder box name parent_id) ;;
  sprint (u "Created " ++ what ++ u " folder: " ++ item_name folder
          ++ u " (ID: " ++ item_id folder ++ u ")") ;;~
  sret folder.

Definition upload_dummy_content (box : SetupEnv)
    (base_folder_name claims_folder_name claim_id images_folder_path
       base_folder_id report_template_path : pystr) : Setup UploadedIds :=
  base_folder <~ create_folder box (u "base") base_folder_name
                   base_folder_id ;;
  claims_folder <~ create_folder box (u "Claims") claims_folder_name
                     (item_id base_folder) ;;
  claim_folder <~ create_folder box (u "claim") claim_id
                    (item_id claims_folder) ;;
  images_folder <~ create_folder box (u "images") (u "images")
                     (item_id claim_folder) ;;
  names <~ scall (ListDir images_folder_path)
             (os_listdir box images_folder_path) ;;
  uploaded_image_ids <~
    upload_images box images_folder_path (item_id images_folder) names [] ;;
  f <~ scall (OpenRb report_template_path)
         (open_rb box report_template_path) ;;
  uploaded_template <~
    scall (UploadFile (u "report_template.docx") (item_id base_folder) f)
          (uploads_upload_file box (u "report_template.docx")
             (item_id base_folder) f) ;;
  sprint (u "Uploaded report template (ID: " ++ item_id uploaded_template
          ++ u ")") ;;~
  stry
    (docgen_template <~
       scall (CreateDocgenTemplate (item_id uploaded_template))
             (docgen_template_create box (item_id uploaded_template)) ;;
     sprint (u "Marked file as Doc Gen template (ID: " ++ docgen_template
             ++ u ")"))
    (fun e =>
       sprint (u "Error marking file as Doc Gen template: "
               ++ str_of_exception box e)) ;;~
  sret {| base_folder_id := item_id base_folder;
          claims_folder_id := item_id claims_folder;
          claim_folder_id := item_id claim_folder;
          images_folder_id := item_id images_folder;
          uploaded_image_ids := uploaded_image_ids;
          template_file_id := item_id uploaded_template |}.

(** The call of step 3, with the constants of the notebook. *)
Definition step3 (box : SetupEnv) : Setup UploadedIds :=
  upload_dummy_content box BASE_FOLDER_NAME CLAIMS_FOLDER_NAME CLAIM_ID
    IMAGES_FOLDER_PATH BASE_FOLDER_ID REPORT_TEMPLATE_PATH.

Definition remove_demo_folder (box : SetupEnv) (folder_id : pystr)
  : Setup unit :=
  scall (DeleteFolderById folder_id true)
        (folders_delete_folder_by_id box folder_id true) ;;~
  sprint (u "Deleted folder (ID: " ++ folder_id
          ++ u ") and all sub-contents.").

(** The call of step 8, on the ids kept from step 3. *)
Definition step8 (box : SetupEnv) (uploaded_ids : UploadedIds) : Setup unit :=
  remove_demo_folder box (base_folder_id uploaded_ids).

(* ===================================================================== *)
(** * More vocabulary *)
(* ===================================================================== *)

(** The same disk and account with another answer to the marking of the
    template. *)
Definition with_docgen_template_create (answer : pystr -> Exc pystr)
    (box : SetupEnv) : SetupEnv :=
  {| os_listdir := os_listdir box;
     os_path_isfile := os_path_isfile box;
     open_rb := open_rb box;
     folders_create_folder := folders_create_folder box;
     uploads_upload_file := uploads_upload_file box;
     docgen_template_create := answer;
     folders_delete_folder_by_id := folders_delete_folder_by_id box;
     str_of_exception := str_of_exception box |}.

(** The names of the files uploaded, in order. *)
Definition uploaded_names (cs : list SetupCall) : list pystr :=
  flat_map (fun c => match c with UploadFile name _ _ => [name] | _ => [] end)
    cs.

(** The URLs of the image parts of a request to the vision service. *)
Definition request_image_urls (req : ResponsesRequest) : list pystr :=
  match req_input req with
  | JArr [JObj m] =>
      match lookup (u "content") m with
      | Some (JArr (_ :: parts)) =>
          flat_map (fun part =>
                      match part with
                      | JObj p =>
                          match lookup (u "type") p,
                                lookup (u "image_url") p with
                          | Some (JStr t), Some (JStr url) =>
                              if pystr_eqb t (u "input_image") then [url]
                              else []
                          | _, _ => []
                          end
                      | _ => []
                      end) parts
      | _ => []
      end
  | _ => []
  end.

(** The key of the customer file for a field. *)
Definition customer_key (field : string) : pystr :=
  u "customer_" ++ u field.

(** What the customer file holds under the key of a field ([None] when it
    holds nothing). *)
Definition file_value (d : list (pystr * json)) (field : string) : json :=
  match lookup (customer_key field) d with
  | Some v => v
  | None => JNull
  end.

Definition is_str (j : json) : bool :=
  match j with JStr _ => true | _ => false end.

Definition is_object (j : json) : bool :=
  match j with JObj _ => true | _ => false end.

(** The tool calls an agent may cause, by its [tools]. *)
Definition may_call (a : AgentId) (c : Call) : bool :=
  match c with
  | VisionCall _ =>
      existsb (Tool_eqb analyze_vehicle_damage_gpt4v_tool) (tools (agents a))
  | WebSearchCall _ => existsb (Tool_eqb WebSearchTool) (tools (agents a))
  | _ => false
  end.

(** Reading a call log turn by turn: the vision service is called in turns
    of the Image Analyst only, web search in turns of the Repair Shop
    Finder only. *)
Fixpoint confined (current : option AgentId) (cs : list Call) : bool :=
  match cs with
  | [] => true
  | ModelCall a :: rest => confined (Some a) rest
  | VisionCall _ :: rest =>
      match current with
      | Some image_analysis_agent => confined current rest
      | _ => false
      end
  | WebSearchCall _ :: rest =>
      match current with
      | Some repair_shop_agent => confined current rest
      | _ => false
      end
  | _ :: rest => confined current rest
  end.

(** The agent that hands off to [a]. *)
Definition previous_agent (a : AgentId) : AgentId :=
  match a with
  | claim_orchestrator => repair_shop_agent
  | image_analysis_agent => claim_orchestrator
  | cost_estimation_agent => image_analysis_agent
  | repair_shop_agent => cost_estimation_agent
  end.

(** The report with another list of parts. *)
Definition with_parts (parts : option (list pystr)) (r : InsuranceReport.t)
  : InsuranceReport.t :=
  let c := InsuranceReport.claim r in
  InsuranceReport.mk (InsuranceReport.claim_number r)
    (Claim.mk (Claim.report_date c) (Claim.assigned_adjuster c)
       (Claim.other_driver_insurance_company c)
       (Claim.other_driver_policy_number c)
       (Claim.cross_streets_of_accident c) (Claim.date_of_incident c)
       (Claim.time_of_incident c) (Claim.number_of_vehicles_involved c)
       (Claim.customer_initial_report c) (Claim.law_enforcement_agency c)
       (Claim.law_enforcement_report_id c) (Claim.damage_description c)
       (Claim.estimated_cost c) parts)
    (InsuranceReport.customer r) (InsuranceReport.shops r).

(** The three lines of the query that carry data of the customer. *)
Definition car_of (customer : Customer.t) : pystr :=
  Customer.car_year customer ++ u " " ++ Customer.car_make customer
  ++ u " " ++ Customer.car_model customer.

(* ===================================================================== *)
(** * More concrete executions *)
(* ===================================================================== *)

Module Demo.

(** A disk with two photos and a sub-directory in the images folder, and a
    Box account that numbers what it creates by name. *)
Definition box (marking : Exc pystr) : SetupEnv :=
  {| os_listdir :=
       fun path =>
         if pystr_eqb path IMAGES_FOLDER_PATH
         then inr [u "front.jpg"; u "thumbs"; u "rear.jpg"]
         else inl OSError;
     os_path_isfile :=
       fun path =>
         negb (pystr_eqb path (IMAGES_FOLDER_PATH ++ u "/thumbs"));
     open_rb := fun path => inr path;
     folders_create_folder :=
       fun name parent =>
         inr {| item_id := parent ++ u "/" ++ name; item_name := name |};
     uploads_upload_file :=
       fun name parent _ =>
         inr {| item_id := parent ++ u "/" ++ name; item_name := name |};
     docgen_template_create := fun _ => marking;
     folders_delete_folder_by_id := fun _ _ => inr tt;
     str_of_exception := fun _ => u "forbidden" |}.

(** A customer file without the city. *)
Definition raw_without_city : list (pystr * json) :=
  filter (fun kv => negb (pystr_eqb (fst kv) (u "customer_city")))
    Sample.customer_record.

Definition env_without_city : Env :=
  Sample.make_env (Json (JObj raw_without_city))
    (Sample.llm_chain "2025-04-21") true (Json Sample.damage_json).

(** A customer file that holds a list. *)
Definition env_list_file : Env :=
  Sample.make_env (Json (JArr [])) (Sample.llm_chain "2025-04-21") true
    (Json Sample.damage_json).

(** A Box account that refuses the download URL of the second image. *)
Definition env_refused_url : Env :=
  {| uploaded_ids := Sample.ids;
     file_system := file_system Sample.env_chain;
     box_download_url :=
       fun id =>
         if pystr_eqb id (u "12") then inl (ServiceError (u "404"))
         else inr (u "https://dl.example/" ++ id);
     box_create_docgen_batch := box_create_docgen_batch Sample.env_chain;
     today := today Sample.env_chain;
     py_repr := py_repr Sample.env_chain;
     llm := llm Sample.env_chain;
     guardrail_llm := guardrail_llm Sample.env_chain;
     responses_create := responses_create Sample.env_chain;
     first_turn_fails_first := false |}.

(** The customer of the sample file. *)
Definition customer : Customer.t :=
  InsuranceReport.customer (Sample.report_with None).

(** The request an execution submits to document generation. *)
Definition the_request (env : Env) : DocgenBatchRequest :=
  match rev (calls (fst (notebook env fresh))) with
  | DocGenCall req :: _ => req
  | _ => docgen_request env [] JNull
  end.

End Demo.

(* ===================================================================== *)
(** * Facts about text, dates and dicts *)
(* ===================================================================== *)

Lemma pystr_eqb_eq a b : pystr_eqb a b = true <-> a = b.
Proof.
  revert b; induction a as [|x a IH]; intros [|y b]; simpl;
    try (split; congruence).
  rewrite andb_true_iff, N.eqb_eq, IH. split.
  - intros [-> ->]; reflexivity.
  - intros [= -> ->]; split; reflexivity.
Qed.

Lemma pystr_eqb_refl a : pystr_eqb a a = true.
Proof. now apply pystr_eqb_eq. Qed.

Lemma AgentId_eqb_eq a b : AgentId_eqb a b = true <-> a = b.
Proof. destruct a, b; simpl; split; congruence. Qed.

Lemma AgentId_eqb_refl a : AgentId_eqb a a = true.
Proof. now apply AgentId_eqb_eq. Qed.

Lemma lstrip_nil_iff s : lstrip s = [] <-> blank s = true.
Proof.
  unfold blank. induction s as [|c s IH]; simpl.
  - tauto.
  - destruct (isspace c); simpl; [exact IH | split; discriminate].
Qed.

Lemma lstrip_not_blank s : blank (lstrip s) = true -> lstrip s = [].
Proof.
  induction s as [|c s IH]; simpl; [reflexivity|].
  destruct (isspace c) eqn:E; [exact IH|].
  unfold blank; simpl; rewrite E; discriminate.
Qed.

Lemma blank_rev s : blank (rev s) = blank s.
Proof.
  unfold blank. apply eq_true_iff_eq. rewrite !forallb_forall.
  split; intros H x Hx; apply H; [apply in_rev in Hx | apply in_rev]; tauto.
Qed.

Lemma strip_nil_iff s : strip s = [] <-> blank s = true.
Proof.
  unfold strip, rstrip. split.
  - intros H. apply lstrip_nil_iff.
    apply (f_equal (@rev N)) in H. rewrite rev_involutive in H. simpl in H.
    apply lstrip_nil_iff in H. rewrite blank_rev in H.
    now apply lstrip_not_blank.
  - intros H. apply lstrip_nil_iff in H. rewrite H. reflexivity.
Qed.

(** The test of the driver, [not s or not s.strip()], is [blank]. *)
Lemma blank_test s :
  negb (str_truthy s) || negb (str_truthy (strip s)) = blank s.
Proof.
  destruct s as [|c s]; [reflexivity|].
  cbn [str_truthy negb orb].
  destruct (blank (c :: s)) eqn:B.
  - apply strip_nil_iff in B. rewrite B. reflexivity.
  - destruct (strip (c :: s)) eqn:S; [|reflexivity].
    apply strip_nil_iff in S. congruence.
Qed.

Lemma is_digit_digit n : is_digit (digit n) = true.
Proof.
  unfold is_digit, digit.
  assert (H : (n mod 10 < 10)%N) by (apply N.mod_lt; discriminate).
  revert H. generalize (n mod 10)%N. intros m H.
  apply andb_true_iff; split; apply N.leb_le; lia.
Qed.

Lemma isoformat_shape d : iso_shaped (isoformat d) = true.
Proof.
  unfold isoformat. change (u "-") with [45%N]. cbn [app iso_shaped].
  rewrite !is_digit_digit. reflexivity.
Qed.

Lemma lookup_store_same k v d : lookup k (store k v d) = Some v.
Proof.
  induction d as [|[k' v'] d IH]; simpl.
  - now rewrite pystr_eqb_refl.
  - destruct (pystr_eqb k k') eqn:E; simpl; rewrite ?pystr_eqb_refl, ?E; auto.
Qed.

Lemma lookup_store_other k k' v d :
  k' <> k -> lookup k' (store k v d) = lookup k' d.
Proof.
  intros N. assert (F : pystr_eqb k' k = false).
  { destruct (pystr_eqb k' k) eqn:E; [apply pystr_eqb_eq in E; tauto | easy]. }
  induction d as [|[k0 v0] d IH]; simpl.
  - now rewrite F.
  - destruct (pystr_eqb k k0) eqn:E; simpl.
    + apply pystr_eqb_eq in E; subst k0. now rewrite F.
    + now rewrite IH.
Qed.

Lemma str_list_map_JStr l : str_list (map JStr l) = Some l.
Proof. induction l as [|s l IH]; simpl; [reflexivity | now rewrite IH]. Qed.

Lemma validate_json_type t x v : validate_json t x = Some v -> type_of v = t.
Proof.
  destruct x as [j|raw]; [|discriminate]. destruct t; simpl;
    match goal with |- option_map _ ?o = _ -> _ => destruct o end;
    simpl; intros [= <-]; reflexivity.
Qed.

Lemma handoffs_ring a : handoffs (agents a) = [next_agent a].
Proof. destruct a; reflexivity. Qed.

Lemma orchestrator_output_type a :
  output_type (agents a) = TInsuranceReport <-> a = claim_orchestrator.
Proof. destruct a; simpl; split; congruence. Qed.

Lemma fill_report_date_same env r :
  same_but_report_date r (fill_report_date env r).
Proof.
  unfold fill_report_date.
  destruct (blank _); destruct r as [n c k s]; destruct c;
    repeat split; reflexivity.
Qed.

(* ===================================================================== *)
(** * Facts about notebook code: which calls it makes *)
(* ===================================================================== *)

Lemma bind_run {A B} (c : M A) (k : A -> M B) w :
  bind c k w =
  match c w with
  | (w', inl e) => (w', inl e)
  | (w', inr a) => k a w'
  end.
Proof. reflexivity. Qed.

Lemma for_each_nil {A B} (f : A -> M B) w : for_each f [] w = (w, inr []).
Proof. reflexivity. Qed.

Lemma only_calls_ret {A} P (a : A) : only_calls P (ret a).
Proof.
  intros w w' r [= <- <-]. exists []. now rewrite app_nil_r.
Qed.

Lemma only_calls_raise {A} P e : only_calls P (@raise A e).
Proof.
  intros w w' r [= <- <-]. exists []. now rewrite app_nil_r.
Qed.

Lemma only_calls_print P line : only_calls P (print line).
Proof.
  intros w w' r [= <- <-]. exists []. simpl. now rewrite app_nil_r.
Qed.

Lemma only_calls_call {A} (P : Call -> bool) c (answer : Exc A) :
  P c = true -> only_calls P (call c answer).
Proof.
  intros H w w' r [= <- <-]. exists [c]. simpl. now rewrite H.
Qed.

Lemma only_calls_bind {A B} P (c : M A) (k : A -> M B) :
  only_calls P c -> (forall a, only_calls P (k a)) -> only_calls P (bind c k).
Proof.
  intros Hc Hk w w' r. rewrite bind_run.
  destruct (c w) as [w1 [e|a]] eqn:E.
  - intros [= <- <-]. exact (Hc _ _ _ E).
  - intros E2. destruct (Hc _ _ _ E) as (cs1 & C1 & F1).
    destruct (Hk a _ _ _ E2) as (cs2 & C2 & F2).
    exists (cs1 ++ cs2). rewrite C2, C1, app_assoc, forallb_app, F1, F2. auto.
Qed.

Lemma only_calls_try {A} P (body : M A) handler :
  only_calls P body -> (forall e, only_calls P (handler e)) ->
  only_calls P (try_except body handler).
Proof.
  intros Hc Hk w w' r. unfold try_except.
  destruct (body w) as [w1 [e|a]] eqn:E.
  - intros E2. destruct (Hc _ _ _ E) as (cs1 & C1 & F1).
    destruct (Hk e _ _ _ E2) as (cs2 & C2 & F2).
    exists (cs1 ++ cs2). rewrite C2, C1, app_assoc, forallb_app, F1, F2. auto.
  - intros [= <- <-]. exact (Hc _ _ _ E).
Qed.

Lemma only_calls_for_each {A B} P (f : A -> M B) l :
  (forall a, only_calls P (f a)) -> only_calls P (for_each f l).
Proof.
  intros H. induction l as [|a l IH]; simpl.
  - apply only_calls_ret.
  - apply only_calls_bind; [apply H|]. intros b.
    apply only_calls_bind; [apply IH|]. intros bs. apply only_calls_ret.
Qed.

Lemma only_calls_weaken {A} (P Q : Call -> bool) (c : M A) :
  (forall x, P x = true -> Q x = true) -> only_calls P c -> only_calls Q c.
Proof.
  intros PQ H w w' r E. destruct (H _ _ _ E) as (cs & -> & F).
  exists cs; split; [reflexivity|].
  rewrite forallb_forall in *. auto.
Qed.

Lemma only_calls_if {A} P (b : bool) (c1 c2 : M A) :
  only_calls P c1 -> only_calls P c2 -> only_calls P (if b then c1 else c2).
Proof. destruct b; auto. Qed.

Create HintDb effects.
#[local] Hint Resolve only_calls_ret only_calls_raise only_calls_print
  : effects.

(** One statement of a block: settle it, then go on with the rest. *)
Ltac statement := apply only_calls_bind; [|intros ?].

Lemma forallb_false_in (P : Call -> bool) cs c :
  forallb P cs = true -> P c = false -> ~ In c cs.
Proof.
  rewrite forallb_forall. intros H F I. rewrite (H c I) in F. discriminate.
Qed.

Lemma agents_run_app cs1 cs2 :
  agents_run (cs1 ++ cs2) = agents_run cs1 ++ agents_run cs2.
Proof. apply flat_map_app. Qed.

Lemma agents_run_none (P : Call -> bool) cs :
  (forall a, P (ModelCall a) = false) ->
  forallb P cs = true -> agents_run cs = [].
Proof.
  intros HP. induction cs as [|c cs IH]; simpl; [reflexivity|].
  intros H. apply andb_true_iff in H. destruct H as [Hc H].
  destruct c; simpl; auto. rewrite HP in Hc. discriminate.
Qed.

Lemma only_calls_subscript P v k : only_calls P (subscript v k).
Proof.
  unfold subscript. destruct v; auto with effects.
  destruct (lookup _ _); auto with effects.
Qed.

Lemma only_calls_analyze env image_urls year make model :
  only_calls is_tool_call
    (analyze_vehicle_damage_gpt4v env image_urls year make model).
Proof.
  unfold analyze_vehicle_damage_gpt4v, json_loads.
  statement; [apply only_calls_print|].
  statement; [now apply only_calls_call|].
  match goal with |- only_calls _ (match ?t with _ => _ end) => destruct t end;
    auto with effects.
Qed.

Lemma only_calls_invoke_tool env a c :
  only_calls is_tool_call (invoke_tool env a c).
Proof.
  destruct c as [image_urls year make model|query]; simpl.
  - intros w w' r.
    destruct (analyze_vehicle_damage_gpt4v env image_urls year make model w)
      as [w1 output] eqn:E.
    intros [= <- <-]. exact (only_calls_analyze _ _ _ _ _ _ _ _ E).
  - now apply only_calls_call.
Qed.

Lemma only_calls_guardrails env gs input :
  only_calls is_guardrail_call (run_input_guardrails env gs input).
Proof.
  induction gs as [|g gs IH]; simpl; [apply only_calls_ret|].
  apply only_calls_bind.
  - destruct g. unfold run_guardrail, insurance_query_guardrail.
    apply only_calls_bind; [now apply only_calls_call|].
    intros v. apply only_calls_ret.
  - intros result. apply only_calls_if; [apply only_calls_raise | exact IH].
Qed.

Lemma only_calls_single_turn env a input items :
  only_calls is_later_call (run_single_turn env a input items).
Proof.
  unfold run_single_turn.
  apply only_calls_bind; [now apply only_calls_call|]. intros response.
  apply only_calls_if; [apply only_calls_raise|].
  apply only_calls_if; [apply only_calls_raise|].
  apply only_calls_bind.
  - apply only_calls_for_each. intros c.
    apply only_calls_weaken with (P := is_tool_call);
      [|apply only_calls_invoke_tool].
    intros [ | | | | | | ]; simpl; congruence.
  - intros outputs. destruct (handoff_calls response); [|apply only_calls_ret].
    destruct (message response) as [t|]; [|apply only_calls_ret].
    destruct (validate_json _ t); auto with effects.
Qed.

Lemma run_loop_S n env input first a items :
  run_loop (S n) env input first a items =
  (step <- (if first then first_turn env a input
            else run_single_turn env a input items) ;;
   after_turn n env input a items step).
Proof. reflexivity. Qed.

Lemma only_calls_run_loop n env input :
  forall a items, only_calls is_later_call (run_loop n env input false a items).
Proof.
  induction n as [|n IH]; intros a items; [apply only_calls_raise|].
  rewrite run_loop_S. apply only_calls_bind;
    [apply only_calls_single_turn|].
  intros step. unfold after_turn.
  destruct (next_step step); auto with effects.
Qed.

Lemma only_calls_after_turn n env input a items step :
  only_calls is_later_call (after_turn n env input a items step).
Proof.
  unfold after_turn.
  destruct (next_step step); auto using only_calls_run_loop with effects.
Qed.

Lemma only_calls_require_report env result :
  only_calls is_later_call (require_report env result).
Proof.
  unfold require_report.
  apply only_calls_bind.
  { apply only_calls_try.
    - destruct (final_output result); auto with effects.
    - intros e. apply only_calls_bind; auto with effects. }
  intros report. apply only_calls_bind.
  { destruct report; simpl; auto with effects. }
  intros claim. apply only_calls_bind.
  { apply only_calls_if; [|apply only_calls_ret].
    destruct report; simpl; auto with effects. }
  intros report'. apply only_calls_bind; auto with effects.
Qed.

Lemma only_calls_generate_report env v :
  only_calls is_later_call (generate_report env v).
Proof.
  unfold generate_report.
  apply only_calls_bind; [apply only_calls_subscript|].
  intros claim. apply only_calls_bind.
  { unfold dict_get. destruct claim; auto with effects.
    destruct (lookup _ _); auto with effects. }
  intros parts. apply only_calls_bind.
  { unfold str_join. destruct parts; auto with effects.
    destruct (str_list _); auto with effects. }
  intros joined. apply only_calls_bind.
  { unfold setitem2. destruct (model_dump v); auto with effects.
    destruct (lookup _ _) as [[]|]; auto with effects. }
  intros ui. apply only_calls_bind; [apply only_calls_print|]. intros _.
  apply only_calls_bind.
  { destruct v; simpl; auto with effects. }
  intros n. apply only_calls_bind; [now apply only_calls_call|].
  intros id. apply only_calls_bind; auto with effects.
Qed.

Lemma only_calls_prepare_query env :
  only_calls is_prelude_call (prepare_query env).
Proof.
  unfold prepare_query.
  apply only_calls_bind; [apply only_calls_print|]. intros _.
  apply only_calls_bind.
  { unfold parse_customer_info_file, json_load_file, json_loads.
    apply only_calls_bind.
    { apply only_calls_bind; [now apply only_calls_call|].
      intros [j|raw]; auto with effects. }
    intros raw. apply only_calls_bind.
    { apply only_calls_for_each. intros field.
      apply only_calls_bind; [apply only_calls_subscript|].
      intros v. apply only_calls_ret. }
    intros kwargs.
    destruct (validate_Customer _); auto with effects. }
  intros [customer raw_json]. apply only_calls_bind.
  { apply only_calls_for_each. intros image_id.
    apply only_calls_bind; [now apply only_calls_call|]. intros url.
    apply only_calls_bind; [apply only_calls_print|]. intros _.
    apply only_calls_ret. }
  intros urls. apply only_calls_ret.
Qed.

(* ===================================================================== *)
(** * Facts about the run loop *)
(* ===================================================================== *)

Lemma run_single_turn_spec env a input items w w' res :
  run_single_turn env a input items w = (w', res) ->
  exists cs,
    calls w' = calls w ++ ModelCall a :: cs
    /\ forallb is_tool_call cs = true
    /\ (tools (agents a) = [] -> cs = [])
    /\ step_ok a res.
Proof.
  unfold run_single_turn. rewrite bind_run. cbn [call].
  destruct (llm env a input items) as [e|response].
  { intros [= <- <-]. exists []. simpl. auto. }
  destruct (forallb _ (tool_calls response)) eqn:T; cbn [negb].
  2:{ intros [= <- <-]. exists []. simpl. auto. }
  destruct (forallb _ (handoff_calls response)) eqn:H; cbn [negb].
  2:{ intros [= <- <-]. exists []. simpl. auto. }
  rewrite bind_run.
  destruct (for_each (invoke_tool env a) (tool_calls response) _)
    as [w1 [e|outputs]] eqn:F;
    destruct (only_calls_for_each is_tool_call (invoke_tool env a)
                (tool_calls response) (only_calls_invoke_tool env a) _ _ _ F)
      as (cs & C & P);
    assert (CS : tools (agents a) = [] -> cs = [])
      by (intros E; rewrite E in T;
          destruct (tool_calls response); [|discriminate];
          rewrite for_each_nil in F; injection F as <- _; simpl in C;
          rewrite <- (app_nil_r (calls w ++ [ModelCall a])) in C at 1;
          now apply app_inv_head in C);
    simpl in C.
  - intros [= <- <-]. exists cs. rewrite C, <- app_assoc. simpl. auto.
  - destruct (handoff_calls response) as [|target rest] eqn:HC.
    + destruct (message response) as [t|].
      * destruct (validate_json (output_type (agents a)) t) as [v|] eqn:V.
        -- intros [= <- <-]. exists cs. rewrite C, <- app_assoc.
           repeat split; auto. simpl. now apply validate_json_type in V.
        -- intros [= <- <-]. exists cs. rewrite C, <- app_assoc.
           repeat split; auto.
      * intros [= <- <-]. exists cs. rewrite C, <- app_assoc.
        repeat split; auto.
    + intros [= <- <-]. exists cs. rewrite C, <- app_assoc.
      repeat split; auto. simpl.
      simpl in H. apply andb_true_iff in H. destruct H as [H _].
      rewrite handoffs_ring in H. simpl in H. rewrite orb_false_r in H.
      now apply AgentId_eqb_eq in H.
Qed.

Lemma first_turn_spec env a input w w' res :
  first_turn env a input w = (w', res) ->
  exists gs cs,
    calls w' = calls w ++ gs ++ ModelCall a :: cs
    /\ forallb is_guardrail_call gs = true
    /\ forallb is_tool_call cs = true
    /\ step_ok a res.
Proof.
  unfold first_turn.
  destruct (run_input_guardrails env _ input w) as [w1 guard] eqn:G.
  destruct (run_single_turn env a input [] w1) as [w2 turn] eqn:T.
  intros [= <- <-].
  destruct (only_calls_guardrails _ _ _ _ _ _ G) as (gs & CG & PG).
  destruct (run_single_turn_spec _ _ _ _ _ _ _ T) as (cs & CT & PT & _ & OK).
  exists gs, cs. rewrite CT, CG, <- app_assoc. repeat split; auto.
  destruct guard, turn; simpl; auto.
Qed.

(** A turn, first or not, is one model call of the current agent. *)
Lemma turn_spec env (first : bool) a input items w w' res :
  (if first then first_turn env a input
   else run_single_turn env a input items) w = (w', res) ->
  exists cs,
    calls w' = calls w ++ cs
    /\ forallb is_run_call cs = true
    /\ agents_run cs = [a]
    /\ step_ok a res.
Proof.
  destruct first; intros H.
  - destruct (first_turn_spec _ _ _ _ _ _ H) as (gs & cs & C & PG & PT & OK).
    exists (gs ++ ModelCall a :: cs). repeat split; auto.
    + rewrite forallb_app. apply andb_true_iff; split.
      * rewrite forallb_forall in *. intros c Hc. specialize (PG c Hc).
        destruct c; simpl in *; congruence.
      * simpl. rewrite forallb_forall in *. intros c Hc. specialize (PT c Hc).
        destruct c; simpl in *; congruence.
    + rewrite agents_run_app. simpl.
      rewrite (agents_run_none is_guardrail_call gs),
              (agents_run_none is_tool_call cs); auto.
  - destruct (run_single_turn_spec _ _ _ _ _ _ _ H) as (cs & C & PT & _ & OK).
    exists (ModelCall a :: cs). repeat split; auto.
    + simpl. rewrite forallb_forall in *. intros c Hc. specialize (PT c Hc).
      destruct c; simpl in *; congruence.
    + simpl. rewrite (agents_run_none is_tool_call cs); auto.
Qed.

Lemma run_loop_spec n env input :
  forall first a items w w' res,
    run_loop n env input first a items w = (w', res) ->
    exists cs, calls w' = calls w ++ cs /\ run_ok a cs res.
Proof.
  induction n as [|n IH]; intros first a items w w' res.
  - intros [= <- <-]. exists []. rewrite app_nil_r.
    repeat split; auto; discriminate.
  - rewrite run_loop_S, bind_run.
    set (turn := if first then first_turn env a input
                 else run_single_turn env a input items).
    destruct (turn w) as [w1 [e|step]] eqn:T; subst turn;
      destruct (turn_spec _ _ _ _ _ _ _ _ T) as (cs1 & C1 & P1 & A1 & OK).
    + intros [= <- <-]. exists cs1. split; [assumption|].
      unfold run_ok. rewrite A1. simpl. rewrite AgentId_eqb_refl.
      repeat split; auto; discriminate.
    + simpl in OK. unfold after_turn.
      assert (K : forall b w' res,
                 (b = a \/ b = next_agent a) ->
                 run_loop n env input false b (items ++ new_step_items step)
                   w1 = (w', res) ->
                 exists cs, calls w' = calls w ++ cs /\ run_ok a cs res).
      { intros b w2 res2 Hb R.
        destruct (IH _ _ _ _ _ _ R) as (cs2 & C2 & P2 & S2 & F2 & L2).
        exists (cs1 ++ cs2). rewrite C2, C1, <- app_assoc.
        split; [reflexivity|]. unfold run_ok.
        rewrite forallb_app, P1, P2, agents_run_app, A1. simpl.
        rewrite AgentId_eqb_refl. repeat split; auto.
        - destruct (agents_run cs2) as [|c rest]; [reflexivity|].
          simpl in S2. apply AgentId_eqb_eq in S2. subst c.
          apply andb_true_iff; split; [|exact F2].
          destruct Hb as [-> | ->]; rewrite AgentId_eqb_refl;
            auto using orb_true_r.
        - destruct (L2 r H) as [[before E] _]. exists (a :: before).
          rewrite E. reflexivity.
        - now destruct (L2 r H). }
      destruct (next_step step) as [v|t|] eqn:N.
      * intros [= <- <-]. exists cs1. split; [assumption|].
        unfold run_ok. rewrite A1. simpl. rewrite AgentId_eqb_refl.
        repeat split; auto; injection H as <-; simpl; auto.
        exists []. reflexivity.
      * intros R. apply (K t); auto.
      * intros R. apply (K a); auto.
Qed.

Lemma Runner_run_spec env a input w w' res :
  Runner_run env a input w = (w', res) ->
  exists cs, calls w' = calls w ++ cs /\ run_ok a cs res.
Proof. apply run_loop_spec. Qed.

Lemma run_input_guardrails_orchestrator env input w :
  run_input_guardrails env (input_guardrails (agents claim_orchestrator))
    input w
  = (called (GuardrailModelCall input) w, guardrail_outcome env input).
Proof.
  cbn [agents set_handoffs AgentId_eqb constructed input_guardrails
       run_input_guardrails run_guardrail].
  unfold insurance_query_guardrail, guardrail_outcome.
  rewrite !bind_run. cbn [call].
  destruct (guardrail_llm env input) as [e|verdict]; [reflexivity|].
  cbn [ret tripwire_triggered].
  destruct (negb _); reflexivity.
Qed.

(** The first turn of the orchestrator: one guardrail call, one model
    call, nothing else. *)
Lemma first_turn_orchestrator env q w :
  exists w2 turn,
    run_single_turn env claim_orchestrator q []
      (called (GuardrailModelCall q) w) = (w2, turn)
    /\ calls w2
       = calls w ++ [GuardrailModelCall q; ModelCall claim_orchestrator]
    /\ first_turn env claim_orchestrator q w
       = (w2,
          match guardrail_outcome env q, turn with
          | inl eg, inl et =>
              inl (if first_turn_fails_first env then et else eg)
          | inl eg, inr _ => inl eg
          | inr _, inl et => inl et
          | inr _, inr step => inr step
          end).
Proof.
  destruct (run_single_turn env claim_orchestrator q []
              (called (GuardrailModelCall q) w)) as [w2 turn] eqn:T.
  exists w2, turn. split; [reflexivity|].
  destruct (run_single_turn_spec _ _ _ _ _ _ _ T) as (cs & C & _ & N & _).
  rewrite (N eq_refl) in C. split.
  - rewrite C. simpl. now rewrite <- app_assoc.
  - unfold first_turn. rewrite run_input_guardrails_orchestrator, T.
    reflexivity.
Qed.

(* ===================================================================== *)
(** * Facts about the driver and the document-generation cell *)
(* ===================================================================== *)

Lemma process_insurance_claim_run env w :
  process_insurance_claim env w =
  match prepare_query env w with
  | (w1, inl e) => (w1, inl e)
  | (w1, inr q) =>
      match Runner_run env claim_orchestrator q (logged RUNNING w1) with
      | (w2, inl e) => (w2, inl e)
      | (w2, inr result) => require_report env result w2
      end
  end.
Proof.
  unfold process_insurance_claim. rewrite bind_run.
  destruct (prepare_query env w) as [w1 [e|q]]; reflexivity.
Qed.

Lemma require_report_report env result r w :
  final_output result = VInsuranceReport r ->
  require_report env result w =
  (logged FINISHED w, inr (VInsuranceReport (fill_report_date env r))).
Proof.
  intros H. unfold require_report, try_except, bind, fill_report_date.
  rewrite H. cbn [attr_claim ret]. rewrite blank_test.
  destruct (blank (Claim.report_date (InsuranceReport.claim r))); reflexivity.
Qed.

Lemma require_report_other env result w :
  type_of (final_output result) <> TInsuranceReport ->
  require_report env result w =
  (logged (FAILED (type_of (final_output result))) w,
   inl (AssertionError (class_repr (type_of (final_output result))))).
Proof.
  intros H. unfold require_report, try_except, bind.
  destruct (final_output result); try reflexivity. simpl in H. congruence.
Qed.

(** A value comes back from the driver along one path only. *)
Lemma process_returns env w w' v :
  process_insurance_claim env w = (w', inr v) ->
  exists w1 q w2 result r,
    prepare_query env w = (w1, inr q)
    /\ Runner_run env claim_orchestrator q (logged RUNNING w1)
       = (w2, inr result)
    /\ final_output result = VInsuranceReport r
    /\ w' = logged FINISHED w2
    /\ v = VInsuranceReport (fill_report_date env r).
Proof.
  rewrite process_insurance_claim_run.
  destruct (prepare_query env w) as [w1 [e|q]]; [discriminate|].
  destruct (Runner_run env claim_orchestrator q (logged RUNNING w1))
    as [w2 [e|result]] eqn:R; [discriminate|].
  destruct (final_output result) as [x|x|x|r] eqn:F;
    try (rewrite require_report_other by (rewrite F; discriminate);
         discriminate).
  rewrite (require_report_report env result r w2 F). intros [= <- <-].
  exists w1, q, w2, result, r. auto.
Qed.

(** The notebook from the first turn of the run on. *)
Lemma notebook_run env w :
  notebook env w =
  match prepare_query env (logged START w) with
  | (w1, inl e) => (w1, inl e)
  | (w1, inr q) =>
      match first_turn env claim_orchestrator q (logged RUNNING w1) with
      | (w2, inl e) => (w2, inl e)
      | (w2, inr step) =>
          (result <- after_turn 9 env q claim_orchestrator [] step ;;
           final_report <- require_report env result ;;
           generate_report env final_report) w2
      end
  end.
Proof.
  unfold notebook. unfold bind at 1. cbn [print].
  fold START. fold (logged START w).
  rewrite bind_run, process_insurance_claim_run.
  destruct (prepare_query env (logged START w)) as [w1 [e|q]];
    [reflexivity|].
  unfold Runner_run, DEFAULT_MAX_TURNS. rewrite run_loop_S, !bind_run.
  destruct (first_turn env claim_orchestrator q (logged RUNNING w1))
    as [w2 [e|step]]; [reflexivity|].
  unfold bind.
  destruct (after_turn 9 env q claim_orchestrator [] step w2)
    as [w3 [e|result]]; [reflexivity|].
  destruct (require_report env result w3) as [w4 [e|v]]; reflexivity.
Qed.

Lemma generate_report_run env r w :
  generate_report env (VInsuranceReport r) w =
  match Claim.damaged_parts_list (InsuranceReport.claim r) with
  | None => (w, inl TypeError)
  | Some l =>
      let ui :=
        JObj (store (u "claim")
                (JObj (store (u "damaged_parts_list")
                         (JStr (join (u ", ") l))
                         (members (dump_Claim (InsuranceReport.claim r)))))
                (members (dump_InsuranceReport r))) in
      let req := docgen_request env (InsuranceReport.claim_number r) ui in
      (print (PAGE ++ u "  Submitting Box Doc" ++ NBSP ++ u "Gen job "
              ++ ELLIPSIS) ;;;
       batch_id <- call (DocGenCall req) (box_create_docgen_batch env req) ;;
       print (u "Doc" ++ NBSP ++ u "Gen batch created (batch_id = "
              ++ batch_id ++ u ").") ;;;
       ret batch_id) w
  end.
Proof.
  destruct r as [n c k s]. destruct c. simpl.
  destruct damaged_parts_list as [l|].
  - unfold generate_report.
    change (model_dump (VInsuranceReport ?r)) with (dump_InsuranceReport r).
    rewrite bind_run. cbn. rewrite str_list_map_JStr. reflexivity.
  - reflexivity.
Qed.

Lemma customer_kwargs_strings d w fields :
  (forall f, In f fields ->
     exists s, lookup (u "customer_" ++ u f) d = Some (JStr s)) ->
  for_each (fun field =>
              v <- subscript (JObj d) (u "customer_" ++ u field) ;;
              ret (u field, v)) fields w
  = (w, inr (map (fun f => (u f, JStr (customer_value d f))) fields)).
Proof.
  induction fields as [|f fields IH]; intros H; [reflexivity|].
  cbn [for_each map]. rewrite !bind_run. unfold subscript at 1.
  destruct (H f (or_introl eq_refl)) as [s E].
  unfold customer_value at 1. rewrite E. cbn [ret].
  rewrite bind_run, IH by (intros g I; apply H; now right).
  reflexivity.
Qed.

(* ===================================================================== *)
(** * The claims *)
(* ===================================================================== *)

(** ** C1: the merge and the three specialist outputs *)

(** C1, as the code has it.  The driver returns a report only when the run
    ended with the final output of the Orchestrator itself, validated as
    an InsuranceReport.  When the chain is interrupted because the reply
    of a specialist ends the run, the driver raises an AssertionError, and
    when the run raises (turn limit, model error, guardrail) the driver
    raises the same exception: no report is returned.  Nothing checks that
    the three specialists have run before the Orchestrator's output. *)
Theorem report_is_the_orchestrator_output env w :
  (forall w' v,
      process_insurance_claim env w = (w', inr v) ->
      exists q w1 w2 result r,
        Runner_run env claim_orchestrator q w1 = (w2, inr result)
        /\ last_agent result = claim_orchestrator
        /\ final_output result = VInsuranceReport r
        /\ v = VInsuranceReport (fill_report_date env r))
  /\ (forall w1 q w2 result,
        prepare_query env w = (w1, inr q) ->
        Runner_run env claim_orchestrator q (logged RUNNING w1)
        = (w2, inr result) ->
        last_agent result <> claim_orchestrator ->
        exists w' arg,
          process_insurance_claim env w = (w', inl (AssertionError arg)))
  /\ (forall w1 q w2 e,
        prepare_query env w = (w1, inr q) ->
        Runner_run env claim_orchestrator q (logged RUNNING w1)
        = (w2, inl e) ->
        process_insurance_claim env w = (w2, inl e)).
Proof.
  split; [|split].
  - intros w' v H. apply process_returns in H.
    destruct H as (w1 & q & w2 & result & r & _ & R & F & _ & ->).
    exists q, (logged RUNNING w1), w2, result, r. repeat split; auto.
    destruct (Runner_run_spec _ _ _ _ _ _ R) as (cs & _ & _ & _ & _ & L).
    destruct (L result eq_refl) as [_ T]. rewrite F in T. simpl in T.
    symmetry in T. now apply orchestrator_output_type in T.
  - intros w1 q w2 result P R N.
    destruct (Runner_run_spec _ _ _ _ _ _ R) as (cs & _ & _ & _ & _ & L).
    destruct (L result eq_refl) as [_ T].
    rewrite process_insurance_claim_run, P, R.
    rewrite require_report_other; [eauto|].
    rewrite T. intros E. now apply orchestrator_output_type in E.
  - intros w1 q w2 e P R. now rewrite process_insurance_claim_run, P, R.
Qed.

(** The Image Analyst replies and does not hand off: the driver raises. *)
Lemma report_is_the_orchestrator_output_witness :
  exists w arg,
    process_insurance_claim Sample.env_stops_at_analyst fresh
    = (w, inl (AssertionError arg)).
Proof.
  destruct (report_is_the_orchestrator_output Sample.env_stops_at_analyst
              fresh) as (_ & H & _).
  apply (H (fst (prepare_query Sample.env_stops_at_analyst fresh))
           (Sample.the_query Sample.env_stops_at_analyst)
           (fst (Sample.the_run Sample.env_stops_at_analyst))
           (Sample.the_result Sample.env_stops_at_analyst)).
  - vm_compute; reflexivity.
  - vm_compute; reflexivity.
  - vm_compute; discriminate.
Defined.

(** C1 fails as stated: the Orchestrator answers in its first turn, no
    specialist has run, and the driver returns the report, whose damage
    description, cost, parts and shops are all absent. *)
Lemma merge_without_specialist_outputs :
  exists w r,
    process_insurance_claim Sample.env_shortcut fresh
    = (w, inr (VInsuranceReport r))
    /\ agents_run (calls w) = [claim_orchestrator]
    /\ Claim.damage_description (InsuranceReport.claim r) = None
    /\ Claim.estimated_cost (InsuranceReport.claim r) = None
    /\ Claim.damaged_parts_list (InsuranceReport.claim r) = None
    /\ InsuranceReport.shops r = Shops.mk None None None.
Proof.
  eexists. eexists. split; [vm_compute; reflexivity|].
  repeat split; vm_compute; reflexivity.
Qed.

(** ** C2: the guardrail *)

(** C2.  When the guardrail model finds the request [q] of an execution
    not insurance related, the guardrail's tripwire is the negation of
    that verdict, hence set; the notebook raises in the first turn, with
    the tripwire exception unless the Orchestrator's own first model call
    failed and was seen first; and no call goes to a specialist, to the
    vision service, to web search or to document generation. *)
Theorem out_of_domain_request_is_rejected env q verdict :
  In (GuardrailModelCall q) (calls (fst (notebook env fresh))) ->
  guardrail_llm env q = inr verdict ->
  InsuranceGuardrailOutput.is_insurance_related verdict = false ->
  (forall w, exists w' g,
      insurance_query_guardrail env q w = (w', inr g)
      /\ output_info g = verdict
      /\ tripwire_triggered g
         = negb (InsuranceGuardrailOutput.is_insurance_related verdict)
      /\ tripwire_triggered g = true)
  /\ (exists e,
        snd (notebook env fresh) = inl e
        /\ (e = InputGuardrailTripwireTriggered
            \/ first_turn_fails_first env = true
               /\ exists w0 w1,
                    run_single_turn env claim_orchestrator q [] w0
                    = (w1, inl e)))
  /\ forallb (fun c => negb (downstream_call c))
       (calls (fst (notebook env fresh))) = true.
Proof.
  intros I G V. split.
  { intros w. unfold insurance_query_guardrail. rewrite bind_run.
    cbn [call]. rewrite G. cbn [ret]. eexists _, _. split; [reflexivity|].
    cbn [output_info tripwire_triggered]. rewrite V. auto. }
  revert I. rewrite notebook_run.
  destruct (prepare_query env (logged START fresh)) as [w1 [e|q0]] eqn:P;
    destruct (only_calls_prepare_query env _ _ _ P) as (pcs & CP & PP);
    simpl in CP.
  { cbn [fst]. rewrite CP. intros I.
    exfalso. exact (forallb_false_in _ _ (GuardrailModelCall q) PP eq_refl I). }
  destruct (first_turn_orchestrator env q0 (logged RUNNING w1))
    as (w2 & turn & T & C2 & F).
  rewrite F. simpl in C2. rewrite CP in C2.
  assert (Q : forall later, forallb is_later_call later = true ->
              In (GuardrailModelCall q) (calls w2 ++ later) -> q = q0).
  { intros later L I. rewrite C2 in I.
    apply in_app_or in I. destruct I as [I|I].
    - apply in_app_or in I. destruct I as [I|I].
      + exfalso.
        exact (forallb_false_in _ _ (GuardrailModelCall q) PP eq_refl I).
      + simpl in I. destruct I as [I|[I|[]]]; congruence.
    - exfalso.
      exact (forallb_false_in _ _ (GuardrailModelCall q) L eq_refl I). }
  assert (Q0 : In (GuardrailModelCall q) (calls w2) -> q = q0).
  { intros I. apply (Q []); [reflexivity | now rewrite app_nil_r]. }
  assert (E : q = q0 ->
              guardrail_outcome env q0 = inl InputGuardrailTripwireTriggered).
  { intros <-. unfold guardrail_outcome. now rewrite G, V. }
  assert (D : forallb (fun c => negb (downstream_call c)) (calls w2) = true).
  { rewrite C2, forallb_app. apply andb_true_iff; split; [|reflexivity].
    rewrite forallb_forall in *. intros c Hc. specialize (PP c Hc).
    destruct c; simpl in *; congruence. }
  destruct (guardrail_outcome env q0) as [eg|[]] eqn:GO.
  - (* the guardrail tripped: the run stops in the first turn *)
    destruct turn as [et|step]; cbn [fst snd]; intros I;
      specialize (Q0 I); subst q0; specialize (E eq_refl);
      injection E as ->; (split; [|exact D]).
    + exists (if first_turn_fails_first env then et
              else InputGuardrailTripwireTriggered).
      split; [reflexivity|].
      destruct (first_turn_fails_first env); [right|left; reflexivity].
      split; [reflexivity|]. eauto.
    + exists InputGuardrailTripwireTriggered. auto.
  - (* the guardrail let the request through: then [q] is another text *)
    intros I. exfalso.
    assert (X : q = q0).
    { destruct turn as [et|step]; cbn [fst] in I; [now apply Q0|].
      match type of I with
      | In _ (calls (fst (?c w2))) => destruct (c w2) as [w3 r3] eqn:R
      end.
      assert (O : only_calls is_later_call
                    (result <- after_turn 9 env q0 claim_orchestrator []
                                 step ;;
                     final_report <- require_report env result ;;
                     generate_report env final_report)).
      { apply only_calls_bind; [apply only_calls_after_turn|].
        intros result. apply only_calls_bind;
          [apply only_calls_require_report|].
        intros v. apply only_calls_generate_report. }
      destruct (O _ _ _ R) as (later & CL & PL). cbn [fst] in I.
      rewrite CL in I. now apply (Q later). }
    specialize (E X). congruence.
Qed.

(** A request the guardrail model rejects: the notebook raises and the
    specialists and services are left alone. *)
Lemma out_of_domain_request_is_rejected_witness :
  forallb (fun c => negb (downstream_call c))
    (calls (fst (notebook Sample.env_out_of_domain fresh))) = true
  /\ exists e, snd (notebook Sample.env_out_of_domain fresh) = inl e.
Proof.
  destruct (out_of_domain_request_is_rejected Sample.env_out_of_domain
              (Sample.the_query Sample.env_out_of_domain)
              (InsuranceGuardrailOutput.mk false (u "because")))
    as (_ & (e & E & _) & D).
  - vm_compute. do 3 right. left. reflexivity.
  - reflexivity.
  - reflexivity.
  - split; [exact D | exists e; exact E].
Defined.

(** ** C3: the report date *)

(** C3.  Whenever the driver returns, it returns the report [r] the run
    ended with, changed at most in [claim.report_date]: when that date is
    empty or whitespace only it becomes today's date in the form
    YYYY-MM-DD, otherwise the report is returned as it is. *)
Theorem report_date_default_fill env w w' v :
  process_insurance_claim env w = (w', inr v) ->
  exists w1 q w2 result r r',
    Runner_run env claim_orchestrator q w1 = (w2, inr result)
    /\ final_output result = VInsuranceReport r
    /\ v = VInsuranceReport r'
    /\ same_but_report_date r r'
    /\ (blank (Claim.report_date (InsuranceReport.claim r)) = true ->
        Claim.report_date (InsuranceReport.claim r') = isoformat (today env)
        /\ iso_shaped (Claim.report_date (InsuranceReport.claim r')) = true)
    /\ (blank (Claim.report_date (InsuranceReport.claim r)) = false ->
        r' = r).
Proof.
  intros H. apply process_returns in H.
  destruct H as (w1 & q & w2 & result & r & _ & R & F & _ & ->).
  exists (logged RUNNING w1), q, w2, result, r, (fill_report_date env r).
  repeat split; try assumption; try apply fill_report_date_same.
  - unfold fill_report_date. rewrite H. reflexivity.
  - unfold fill_report_date. rewrite H. apply isoformat_shape.
  - intros B. unfold fill_report_date. now rewrite B.
Qed.

(** The Orchestrator leaves three spaces as the date; the report comes
    back dated 2026-03-07, the day of the execution. *)
Lemma report_date_default_fill_witness :
  exists r',
    Sample.the_report Sample.env_blank_date = VInsuranceReport r'
    /\ Claim.report_date (InsuranceReport.claim r') = u "2026-03-07".
Proof.
  destruct (report_date_default_fill Sample.env_blank_date fresh
              (fst (process_insurance_claim Sample.env_blank_date fresh))
              (Sample.the_report Sample.env_blank_date))
    as (w1 & q & w2 & result & r & r' & _ & _ & V & _).
  - vm_compute; reflexivity.
  - exists r'. split; [exact V|].
    vm_compute in V. injection V as <-. reflexivity.
Defined.

(** ** C4: only an InsuranceReport is returned *)

(** C4.  A value returned by the driver is an InsuranceReport; and when
    the run ends with a final output of another type, the driver prints
    the failure line and raises the AssertionError at once. *)
Theorem only_InsuranceReport_is_returned env w :
  (forall w' v, process_insurance_claim env w = (w', inr v) ->
     type_of v = TInsuranceReport)
  /\ (forall w1 q w2 result,
        prepare_query env w = (w1, inr q) ->
        Runner_run env claim_orchestrator q (logged RUNNING w1)
        = (w2, inr result) ->
        type_of (final_output result) <> TInsuranceReport ->
        process_insurance_claim env w
        = (logged (FAILED (type_of (final_output result))) w2,
           inl (AssertionError (class_repr (type_of (final_output result)))))).
Proof.
  split.
  - intros w' v H. apply process_returns in H.
    destruct H as (w1 & q & w2 & result & r & _ & _ & _ & _ & ->).
    reflexivity.
  - intros w1 q w2 result P R T.
    rewrite process_insurance_claim_run, P, R.
    now apply require_report_other.
Qed.

(** The run ends with the DamageInfo of the Image Analyst: the driver
    raises, naming the class it got. *)
Lemma only_InsuranceReport_is_returned_witness :
  snd (process_insurance_claim Sample.env_stops_at_analyst fresh)
  = inl (AssertionError (u "<class '__main__.DamageInfo'>")).
Proof.
  destruct (only_InsuranceReport_is_returned Sample.env_stops_at_analyst
              fresh) as [_ H].
  rewrite (H (fst (prepare_query Sample.env_stops_at_analyst fresh))
             (Sample.the_query Sample.env_stops_at_analyst)
             (fst (Sample.the_run Sample.env_stops_at_analyst))
             (Sample.the_result Sample.env_stops_at_analyst)).
  - vm_compute; reflexivity.
  - vm_compute; reflexivity.
  - vm_compute; reflexivity.
  - vm_compute; discriminate.
Defined.

(** ** C5: the answer of the vision service *)

(** C5, as the code has it.  The tool asks the vision service for a reply
    in the strict DamageInfo schema, with both fields required and no
    additional property, and returns the decoded reply as it is: it checks
    no shape and substitutes nothing.  It raises when the service call
    fails or the reply is not JSON, and as a function tool its outcome,
    error included, goes back to the model: the tool call does not fail
    the run. *)
Theorem vision_tool_returns_the_decoded_answer env image_urls year make
    model w :
  let req := damage_request image_urls year make model in
  lookup (u "format") (members (req_text req))
  = Some (JObj [(u "type", JStr (u "json_schema"));
                (u "name", JStr (u "DamageInfo"));
                (u "schema", schema);
                (u "strict", JBool true)])
  /\ lookup (u "required") (members schema)
     = Some (JArr [JStr (u "damage_description");
                   JStr (u "damaged_parts_list")])
  /\ lookup (u "additionalProperties") (members schema) = Some (JBool false)
  /\ snd (analyze_vehicle_damage_gpt4v env image_urls year make model w)
     = match responses_create env req with
       | inl e => inl e
       | inr (Json j) => inr j
       | inr (NotJson _) => inl JSONDecodeError
       end
  /\ forall a, exists items,
       snd (invoke_tool env a
              (call_analyze_vehicle_damage_gpt4v image_urls year make model)
              w)
       = inr items.
Proof.
  intros req. repeat split; try reflexivity.
  - unfold analyze_vehicle_damage_gpt4v. unfold bind. cbn [print call].
    fold req. destruct (responses_create env req) as [e|[j|raw]]; reflexivity.
  - intros a. cbn [invoke_tool].
    destruct (analyze_vehicle_damage_gpt4v env image_urls year make model w).
    eexists. reflexivity.
Qed.

(** C5 fails as stated: the vision service answers with an object that
    has no [damaged_parts_list]; the tool returns that object, and the
    notebook runs to its end and submits the document. *)
Lemma vision_output_without_parts_list_passes :
  snd (analyze_vehicle_damage_gpt4v Sample.env_vision_missing_parts
         Sample.urls (u "2023") (u "Honda") (u "Civic") fresh)
  = inr Sample.damage_json_missing_parts
  /\ lookup (u "damaged_parts_list")
       (members Sample.damage_json_missing_parts) = None
  /\ DamageInfo_shape Sample.damage_json_missing_parts = false
  /\ exists w batch_id,
       notebook Sample.env_vision_missing_parts fresh = (w, inr batch_id)
       /\ In (VisionCall
                (damage_request Sample.urls (u "2023") (u "Honda")
                   (u "Civic"))) (calls w).
Proof.
  repeat split; try (vm_compute; reflexivity).
  eexists. eexists. split; [vm_compute; reflexivity|].
  vm_compute. tauto.
Qed.

(** ** C6: the hand-off structure *)

(** The calls of a chain of turns: one model call per turn, in order. *)
Lemma turns_calls env input first a items w ts w' :
  turns env input first a items w ts w' ->
  exists cs, calls w' = calls w ++ cs /\ agents_run cs = map fst ts.
Proof.
  induction 1 as [first a items w
                 |first a items w w' res T
                 |first a items w w1 step target ts w' T N _ IH
                 |first a items w w1 step ts w' T N _ IH].
  - exists []. now rewrite app_nil_r.
  - destruct (turn_spec _ _ _ _ _ _ _ _ T) as (cs & C & _ & A & _).
    exists cs. auto.
  - destruct (turn_spec _ _ _ _ _ _ _ _ T) as (cs1 & C1 & _ & A1 & _).
    destruct IH as (cs2 & C2 & A2). exists (cs1 ++ cs2).
    rewrite C2, C1, <- app_assoc, agents_run_app, A1, A2. auto.
  - destruct (turn_spec _ _ _ _ _ _ _ _ T) as (cs1 & C1 & _ & A1 & _).
    destruct IH as (cs2 & C2 & A2). exists (cs1 ++ cs2).
    rewrite C2, C1, <- app_assoc, agents_run_app, A1, A2. auto.
Qed.

(** The run loop takes a chain of turns and stops with it: a result is
    the final output of the last turn, and every turn before it handed
    off or ran again. *)
Lemma run_loop_turns n env input :
  forall first a items w w' res,
    run_loop n env input first a items w = (w', res) ->
    exists ts,
      turns env input first a items w ts w'
      /\ forall r, res = inr r ->
           exists before,
             ts = before
                  ++ [(last_agent r,
                       inr (NextStepFinalOutput (final_output r)))]
             /\ forallb (fun t => goes_on (snd t)) before = true.
Proof.
  induction n as [|n IH]; intros first a items w w' res.
  - intros [= <- <-]. exists []. split; [constructor|discriminate].
  - rewrite run_loop_S, bind_run.
    destruct (take_turn env input first a items w) as [w1 [e|step]] eqn:T;
      unfold take_turn in T; rewrite T; fold (take_turn env input first a items) in T.
    + intros [= <- <-]. exists [(a, decision (inl e))].
      split; [now apply turns_last|discriminate].
    + unfold after_turn. destruct (next_step step) as [v|target|] eqn:N.
      * intros [= <- <-].
        exists [(a, decision (inr step))]. split; [now apply turns_last|].
        intros r [= <-]. exists []. cbn [decision last_agent final_output].
        rewrite N. auto.
      * intros R. destruct (IH _ _ _ _ _ _ R) as (ts & C & L).
        exists ((a, inr (NextStepHandoff target)) :: ts).
        split; [eapply turns_handoff; eauto|].
        intros r E. destruct (L r E) as (before & -> & G).
        exists ((a, inr (NextStepHandoff target)) :: before). auto.
      * intros R. destruct (IH _ _ _ _ _ _ R) as (ts & C & L).
        exists ((a, inr NextStepRunAgain) :: ts).
        split; [eapply turns_again; eauto|].
        intros r E. destruct (L r E) as (before & -> & G).
        exists ((a, inr NextStepRunAgain) :: before). auto.
Qed.

(** C6, as the code has it.  Every agent has one hand-off target and the
    targets form the ring Orchestrator, Image Analyst, Cost Estimator,
    Repair Shop Finder, Orchestrator.  Every run is a chain of turns and
    nothing more: the world it leaves is the world after the last turn of
    the chain, and its model calls are the turns of the chain, one call
    per turn and in order.  The first turn is the Orchestrator's and every
    later turn belongs to the agent of the turn before or to its target.
    A run that returns ends with the first final output: the last turn of
    the chain is the turn of the agent the result names and decided the
    final output of the result, every turn before it handed off or ran
    the same agent again, and no agent runs after it.  Nothing keeps the
    run from going round the ring again. *)
Theorem handoffs_form_a_ring :
  (forall a, handoffs (agents a) = [next_agent a])
  /\ forall env input w,
       exists cs ts,
         calls (fst (Runner_run env claim_orchestrator input w))
         = calls w ++ cs
         /\ turns env input true claim_orchestrator [] w ts
              (fst (Runner_run env claim_orchestrator input w))
         /\ agents_run cs = map fst ts
         /\ starts_with claim_orchestrator (agents_run cs) = true
         /\ follows_handoffs (agents_run cs) = true
         /\ forall r,
              snd (Runner_run env claim_orchestrator input w) = inr r ->
              exists before,
                ts = before
                     ++ [(last_agent r,
                          inr (NextStepFinalOutput (final_output r)))]
                /\ forallb (fun t => goes_on (snd t)) before = true
                /\ agents_run cs = map fst before ++ [last_agent r].
Proof.
  split; [exact handoffs_ring|]. intros env input w.
  destruct (Runner_run env claim_orchestrator input w) as [w' res] eqn:R.
  destruct (Runner_run_spec _ _ _ _ _ _ R) as (cs & C & _ & S & F & _).
  destruct (run_loop_turns _ _ _ _ _ _ _ _ _ R) as (ts & T & L).
  destruct (turns_calls _ _ _ _ _ _ _ _ T) as (cs' & C' & A).
  cbn [fst snd] in *.
  assert (cs' = cs) as ->
    by (apply (app_inv_head (calls w)); congruence).
  exists cs, ts. repeat split; auto.
  intros r E. destruct (L r E) as (before & -> & G).
  exists before. repeat split; auto.
  rewrite A, map_app. reflexivity.
Qed.

(** The run in which every model follows its instructions: the chain has
    four turns that hand off round the ring and then the turn of the
    Orchestrator that gives the report. *)
Lemma handoffs_form_a_ring_witness :
  exists cs ts before,
    calls (fst (Sample.the_run Sample.env_chain))
    = calls (logged RUNNING (fst (prepare_query Sample.env_chain fresh)))
      ++ cs
    /\ ts = before
            ++ [(last_agent (Sample.the_result Sample.env_chain),
                 inr (NextStepFinalOutput
                        (final_output (Sample.the_result Sample.env_chain))))]
    /\ forallb (fun t => goes_on (snd t)) before = true
    /\ agents_run cs
       = map fst before
         ++ [last_agent (Sample.the_result Sample.env_chain)].
Proof.
  destruct handoffs_form_a_ring as [_ H].
  destruct (H Sample.env_chain (Sample.the_query Sample.env_chain)
              (logged RUNNING (fst (prepare_query Sample.env_chain fresh))))
    as (cs & ts & C & _ & _ & _ & _ & L).
  destruct (L (Sample.the_result Sample.env_chain))
    as (before & E & G & A); [vm_compute; reflexivity|].
  exists cs, ts, before. repeat split; assumption.
Defined.

(** C6 fails as stated: the Orchestrator regains control and hands off
    again; the three specialists are entered a second time, and the
    driver returns the report of the second merge. *)
Lemma specialists_are_entered_twice :
  exists w r,
    process_insurance_claim Sample.env_two_rounds fresh
    = (w, inr (VInsuranceReport r))
    /\ agents_run (calls w)
       = [claim_orchestrator; image_analysis_agent; cost_estimation_agent;
          repair_shop_agent; claim_orchestrator; image_analysis_agent;
          cost_estimation_agent; repair_shop_agent; claim_orchestrator].
Proof.
  eexists. eexists. split; vm_compute; reflexivity.
Qed.

(** ** C7: the prompt of the vision tool *)


(** ** C8: the document-generation request *)

(** C8.  For a report whose list of parts is a list, the cell submits one
    request: its user input is the dumped report in which
    [claim.damaged_parts_list] is the parts joined with a comma and a
    space, every other entry being as dumped; the request carries the
    template file, the claim folder as destination and the output type
    pdf. *)
Theorem docgen_submission_flattens_parts env r l w :
  Claim.damaged_parts_list (InsuranceReport.claim r) = Some l ->
  exists req ui claim_members,
    calls (fst (generate_report env (VInsuranceReport r) w))
    = calls w ++ [DocGenCall req]
    /\ snd (generate_report env (VInsuranceReport r) w)
       = box_create_docgen_batch env req
    /\ file req = template_file_id (uploaded_ids env)
    /\ destination_folder req = claim_folder_id (uploaded_ids env)
    /\ output_type_flag req = u "pdf"
    /\ map user_input (document_generation_data req) = [JObj ui]
    /\ lookup (u "claim") ui = Some (JObj claim_members)
    /\ lookup (u "damaged_parts_list") claim_members
       = Some (JStr (join (u ", ") l))
    /\ (forall k, k <> u "damaged_parts_list" ->
          lookup k claim_members
          = lookup k (members (dump_Claim (InsuranceReport.claim r))))
    /\ (forall k, k <> u "claim" ->
          lookup k ui = lookup k (members (dump_InsuranceReport r))).
Proof.
  intros H. rewrite generate_report_run, H. cbv zeta.
  set (cm := store (u "damaged_parts_list") (JStr (join (u ", ") l))
               (members (dump_Claim (InsuranceReport.claim r)))).
  set (ui := store (u "claim") (JObj cm) (members (dump_InsuranceReport r))).
  set (req := docgen_request env (InsuranceReport.claim_number r) (JObj ui)).
  exists req, ui, cm. unfold bind. cbn [print call].
  split; [|split].
  - destruct (box_create_docgen_batch env req); reflexivity.
  - destruct (box_create_docgen_batch env req); reflexivity.
  - split; [reflexivity|]. split; [reflexivity|]. split; [reflexivity|].
    split; [reflexivity|]. split; [apply lookup_store_same|].
    split; [apply lookup_store_same|].
    split; intros k N; now apply lookup_store_other.
Qed.

(** Two parts: the request goes out, as a pdf, with the two parts in one
    text. *)
Lemma docgen_submission_flattens_parts_witness :
  exists req claim_members,
    calls (fst (generate_report Sample.env_chain
                  (VInsuranceReport
                     (Sample.report_with
                        (Some [u "rear bumper"; u "parking camera"])))
                  fresh))
    = [DocGenCall req]
    /\ output_type_flag req = u "pdf"
    /\ lookup (u "damaged_parts_list") claim_members
       = Some (JStr (u "rear bumper, parking camera")).
Proof.
  destruct (docgen_submission_flattens_parts Sample.env_chain
              (Sample.report_with (Some [u "rear bumper"; u "parking camera"]))
              [u "rear bumper"; u "parking camera"] fresh eq_refl)
    as (req & ui & cm & C & _ & _ & _ & O & _ & _ & J & _).
  exists req, cm. split; [exact C|]. split; [exact O | exact J].
Defined.

(** ** C9: the customer file *)

(** C9, as the code has it.  When the file holds an object in which each
    of the sixteen [customer_<field>] keys has a string value, the parser
    opens the file once and returns a Customer whose attribute [f] is the
    value of [customer_f], together with the object as read; and the
    driver only reads the two: its query is computed from exactly this
    Customer and this object. *)
Theorem parse_customer_info_file_strings env path d w :
  file_system env path = Some (Json (JObj d)) ->
  (forall f, In f customer_fields ->
     exists s, lookup (u "customer_" ++ u f) d = Some (JStr s)) ->
  exists customer,
    parse_customer_info_file env path w
    = (called (OpenFile path) w, inr (customer, JObj d))
    /\ (forall f, In f customer_fields ->
          exists s, getattr customer f = Some s
                    /\ lookup (u "customer_" ++ u f) d = Some (JStr s))
    /\ (path = CLAIM_INFO_FILE_PATH ->
        forall w1 q, prepare_query env w = (w1, inr q) ->
          exists image_urls, q = query env customer (JObj d) image_urls).
Proof.
  intros F H.
  assert (P : forall w0,
             parse_customer_info_file env path w0
             = (called (OpenFile path) w0,
                inr (Customer.mk
                       (customer_value d "first_name")
                       (customer_value d "last_name")
                       (customer_value d "street_address")
                       (customer_value d "city")
                       (customer_value d "state")
                       (customer_value d "zip_code")
                       (customer_value d "phone_number")
                       (customer_value d "email")
                       (customer_value d "car_year")
                       (customer_value d "car_make")
                       (customer_value d "car_model")
                       (customer_value d "vin")
                       (customer_value d "license_plate")
                       (customer_value d "car_mileage")
                       (customer_value d "car_color")
                       (customer_value d "policy_number"), JObj d))).
  { intros w0. unfold parse_customer_info_file, json_load_file.
    unfold bind at 1 2. cbn [call]. rewrite F. cbn [json_loads ret].
    unfold bind. rewrite (customer_kwargs_strings d _ customer_fields H).
    reflexivity. }
  eexists. split; [apply P|]. split.
  - intros f I. exists (customer_value d f). split.
    + unfold customer_fields in I. simpl in I.
      repeat (destruct I as [<-|I]; [reflexivity|]). destruct I.
    + destruct (H f I) as [s E]. unfold customer_value. now rewrite E.
  - intros -> w1 q. unfold prepare_query. unfold bind at 1 2.
    cbn [print]. rewrite P.
    unfold bind.
    match goal with
    | |- context [for_each ?f ?l ?w0] =>
        destruct (for_each f l w0) as [w2 [e|urls]]
    end; [discriminate|].
    intros [= _ <-]. eauto.
Qed.

(** The sample file: the Customer is made, and its make is the one in the
    file. *)
Lemma parse_customer_info_file_strings_witness :
  exists customer,
    snd (parse_customer_info_file Sample.env_chain CLAIM_INFO_FILE_PATH
           fresh) = inr (customer, Sample.raw)
    /\ getattr customer "car_make" = Some (u "Honda").
Proof.
  destruct (parse_customer_info_file_strings Sample.env_chain
              CLAIM_INFO_FILE_PATH (members Sample.raw) fresh)
    as (customer & P & G & _).
  - vm_compute; reflexivity.
  - intros f I. simpl in I.
    repeat (destruct I as [<-|I]; [eexists; vm_compute; reflexivity|]).
    destruct I.
  - exists customer. split; [rewrite P; reflexivity|].
    destruct (G "car_make"%string) as (s & A & L);
      [simpl; do 9 right; left; reflexivity|].
    vm_compute in L. injection L as <-. exact A.
Defined.

(** C9 fails as stated: a file with all sixteen keys in which the car year
    is the number 2023 makes the parser raise a validation error. *)
Lemma numeric_car_year_is_rejected :
  forallb (fun f =>
             match lookup (u "customer_" ++ u f)
                     (members Sample.raw_numeric_year) with
             | Some _ => true
             | None => false
             end) customer_fields = true
  /\ snd (parse_customer_info_file Sample.env_numeric_year
            CLAIM_INFO_FILE_PATH fresh) = inl ValidationError.
Proof. split; vm_compute; reflexivity. Qed.

(** ** C10: a report without a list of parts *)

(** C10.  For a report whose [claim.damaged_parts_list] is None, the
    dumped claim holds the key with the value None, the lookup returns
    that None whatever its default, joining it raises a TypeError, and
    the cell stops there: nothing is printed and no request is made. *)
Theorem missing_parts_list_raises_TypeError env r w :
  Claim.damaged_parts_list (InsuranceReport.claim r) = None ->
  lookup (u "damaged_parts_list")
    (members (dump_Claim (InsuranceReport.claim r))) = Some JNull
  /\ (forall default,
        dict_get (dump_Claim (InsuranceReport.claim r))
          (u "damaged_parts_list") default w = (w, inr JNull))
  /\ str_join (u ", ") JNull w = (w, inl TypeError)
  /\ generate_report env (VInsuranceReport r) w = (w, inl TypeError).
Proof.
  intros H. rewrite generate_report_run, H.
  destruct r as [n c k s]. destruct c. simpl in H. subst.
  repeat split; reflexivity.
Qed.

(** The sample report without parts. *)
Lemma missing_parts_list_raises_TypeError_witness :
  generate_report Sample.env_shortcut
    (VInsuranceReport (Sample.report_with None)) fresh
  = (fresh, inl TypeError).
Proof.
  destruct (missing_parts_list_raises_TypeError Sample.env_shortcut
              (Sample.report_with None) fresh eq_refl) as (_ & _ & _ & H).
  exact H.
Defined.

(* ===================================================================== *)
(** * Further properties of the code *)
(* ===================================================================== *)

(** ** The models: dumping and validating *)

Lemma validate_Claim_dump c : validate_Claim (dump_Claim c) = Some c.
Proof.
  destruct c as [f1 f2 f3 f4 f5 f6 f7 f8 f9 f10 f11 f12 f13 f14].
  destruct f3, f4, f10, f11, f12, f13, f14; cbn;
    rewrite ?str_list_map_JStr; reflexivity.
Qed.

Lemma validate_Customer_dump c : validate_Customer (dump_Customer c) = Some c.
Proof. destruct c. reflexivity. Qed.

Lemma validate_Shops_dump s : validate_Shops (dump_Shops s) = Some s.
Proof.
  destruct s as [[[]|] [[]|] [[]|]]; reflexivity.
Qed.

(** X1.  Dumping a value of any of the four output models with
    [model_dump(mode="json")] and validating the dump against the model
    gives the value back. *)
Theorem model_dump_validates_back v :
  validate_json (type_of v) (Json (model_dump v)) = Some v.
Proof.
  destruct v as [d|c|s|r]; cbn [type_of model_dump validate_json].
  - destruct d. cbn. rewrite str_list_map_JStr. reflexivity.
  - destruct c. reflexivity.
  - now rewrite validate_Shops_dump.
  - destruct r as [n c k s]. unfold dump_InsuranceReport.
    cbn [InsuranceReport.claim_number InsuranceReport.claim
         InsuranceReport.customer InsuranceReport.shops].
    remember (dump_Claim c) as cj eqn:Ec.
    remember (dump_Customer k) as kj eqn:Ek.
    remember (dump_Shops s) as sj eqn:Es.
    cbn. subst cj kj sj.
    rewrite validate_Claim_dump, validate_Customer_dump, validate_Shops_dump.
    reflexivity.
Qed.

(** ** The customer file *)

Lemma customer_kwargs_present d w fields :
  (forall f, In f fields -> lookup (customer_key f) d <> None) ->
  for_each (fun field =>
              v <- subscript (JObj d) (u "customer_" ++ u field) ;;
              ret (u field, v)) fields w
  = (w, inr (map (fun f => (u f, file_value d f)) fields)).
Proof.
  induction fields as [|f fields IH]; intros H; [reflexivity|].
  cbn [for_each map]. rewrite !bind_run. unfold subscript at 1.
  unfold file_value at 1, customer_key at 1.
  destruct (lookup (u "customer_" ++ u f) d) as [v|] eqn:E.
  - cbn [ret]. rewrite bind_run, IH by (intros g I; apply H; now right).
    reflexivity.
  - exfalso. apply (H f (or_introl eq_refl)). exact E.
Qed.

Lemma customer_kwargs_missing d w pre f post :
  (forall g, In g pre -> lookup (customer_key g) d <> None) ->
  lookup (customer_key f) d = None ->
  for_each (fun field =>
              v <- subscript (JObj d) (u "customer_" ++ u field) ;;
              ret (u field, v)) (pre ++ f :: post) w
  = (w, inl (KeyError (customer_key f))).
Proof.
  induction pre as [|g pre IH]; intros H M.
  - cbn [app for_each]. rewrite !bind_run. unfold subscript at 1.
    unfold customer_key in M. rewrite M. reflexivity.
  - cbn [app for_each]. rewrite !bind_run. unfold subscript at 1.
    destruct (lookup (u "customer_" ++ u g) d) as [v|] eqn:E.
    + cbn [ret]. rewrite bind_run, IH; auto. intros h I. apply H. now right.
    + exfalso. apply (H g (or_introl eq_refl)). exact E.
Qed.

(** Either every field has its key in the file or there is a first one
    that has not. *)
Lemma first_missing_field d fields :
  (forall f, In f fields -> lookup (customer_key f) d <> None)
  \/ exists pre f post,
       fields = pre ++ f :: post
       /\ (forall g, In g pre -> lookup (customer_key g) d <> None)
       /\ lookup (customer_key f) d = None.
Proof.
  induction fields as [|f fields IH]; [left; intros f []|].
  destruct (lookup (customer_key f) d) as [v|] eqn:E.
  - destruct IH as [IH|(pre & g & post & -> & P & M)].
    + left. intros g [<-|I]; [congruence | now apply IH].
    + right. exists (f :: pre), g, post. repeat split; auto.
      intros h [<-|I]; [congruence | now apply P].
  - right. exists [], f, fields. repeat split; auto.
Qed.

(** A Customer is made of the sixteen values exactly when all of them are
    strings, and then each attribute is the value of its field. *)
Lemma validate_Customer_kwargs d c :
  validate_Customer
    (JObj (map (fun f => (u f, file_value d f)) customer_fields)) = Some c ->
  forall f, In f customer_fields ->
    exists s, getattr c f = Some s /\ file_value d f = JStr s.
Proof.
  unfold customer_fields. cbn -[file_value].
  repeat match goal with
         | |- context [match file_value d ?f with _ => _ end] =>
             destruct (file_value d f) eqn:?; cbn -[file_value];
             try discriminate
         end.
  intros [= <-] f I. simpl in I.
  repeat (destruct I as [<-|I]; [eexists; split; [reflexivity|assumption]|]).
  destruct I.
Qed.

Lemma parse_customer_info_file_object env path d w :
  file_system env path = Some (Json (JObj d)) ->
  parse_customer_info_file env path w
  = match
      for_each (fun field =>
                  v <- subscript (JObj d) (u "customer_" ++ u field) ;;
                  ret (u field, v)) customer_fields
        (called (OpenFile path) w)
    with
    | (w', inl e) => (w', inl e)
    | (w', inr kwargs) =>
        match validate_Customer (JObj kwargs) with
        | Some customer => (w', inr (customer, JObj d))
        | None => (w', inl ValidationError)
        end
    end.
Proof.
  intros F. unfold parse_customer_info_file, json_load_file.
  unfold bind at 1 2. cbn [call]. rewrite F. cbn [json_loads ret].
  unfold bind at 1. fold (called (OpenFile path) w).
  destruct (for_each _ customer_fields (called (OpenFile path) w))
    as [w' [e|kwargs]]; [reflexivity|].
  destruct (validate_Customer (JObj kwargs)); reflexivity.
Qed.

(** X2.  The parser returns only for a file that holds an object in which
    each of the sixteen keys has a string value: the Customer then has
    these values as its attributes, the object is returned as read, and
    the file was opened once. *)
Theorem parse_customer_info_file_returns_only_strings env path w w' customer
    raw :
  parse_customer_info_file env path w = (w', inr (customer, raw)) ->
  exists d,
    file_system env path = Some (Json (JObj d))
    /\ raw = JObj d
    /\ w' = called (OpenFile path) w
    /\ forall f, In f customer_fields ->
         exists s, getattr customer f = Some s
                   /\ lookup (customer_key f) d = Some (JStr s).
Proof.
  destruct (file_system env path) as [[j|bad]|] eqn:F.
  - destruct j as [ | b | n | l | s | items | d];
      try (unfold parse_customer_info_file, json_load_file;
           unfold bind; cbn [call]; rewrite F; discriminate).
    rewrite (parse_customer_info_file_object env path d w F).
    destruct (first_missing_field d customer_fields)
      as [P|(pre & f & post & E & P & M)].
    + rewrite (customer_kwargs_present d _ customer_fields P).
      destruct (validate_Customer _) as [c|] eqn:V; [|discriminate].
      intros [= <- <- <-]. exists d. repeat split; auto.
      intros f I. destruct (validate_Customer_kwargs d c V f I) as (s & A & B).
      exists s. split; [exact A|]. unfold file_value in B.
      destruct (lookup (customer_key f) d) as [v|] eqn:L;
        [congruence | discriminate].
    + rewrite E, (customer_kwargs_missing d _ pre f post P M). discriminate.
  - unfold parse_customer_info_file, json_load_file.
    unfold bind; cbn [call]; rewrite F; discriminate.
  - unfold parse_customer_info_file, json_load_file.
    unfold bind; cbn [call]; rewrite F; discriminate.
Qed.

(** The sample file: the Customer carries the city of the file. *)
Lemma parse_customer_info_file_returns_only_strings_witness :
  exists customer raw d s,
    snd (parse_customer_info_file Sample.env_chain CLAIM_INFO_FILE_PATH fresh)
    = inr (customer, raw)
    /\ raw = JObj d
    /\ getattr customer "city" = Some s
    /\ lookup (customer_key "city") d = Some (JStr s).
Proof.
  destruct (parse_customer_info_file Sample.env_chain CLAIM_INFO_FILE_PATH
              fresh) as [w' [e|[customer raw]]] eqn:R;
    [vm_compute in R; discriminate|].
  destruct (parse_customer_info_file_returns_only_strings _ _ _ _ _ _ R)
    as (d & _ & E & _ & S).
  destruct (S "city"%string) as (s & A & L);
    [vm_compute; tauto|].
  exists customer, raw, d, s. auto.
Defined.

(** X3.  When the file holds an object that lacks some of the sixteen
    keys, the parser raises a KeyError for the first lacking key in the
    order of the fields, after opening the file and nothing else. *)
Theorem parse_customer_info_file_missing_key env path d w pre f post :
  file_system env path = Some (Json (JObj d)) ->
  customer_fields = pre ++ f :: post ->
  (forall g, In g pre -> lookup (customer_key g) d <> None) ->
  lookup (customer_key f) d = None ->
  parse_customer_info_file env path w
  = (called (OpenFile path) w, inl (KeyError (customer_key f))).
Proof.
  intros F E P M.
  rewrite (parse_customer_info_file_object env path d w F), E.
  now rewrite (customer_kwargs_missing d _ pre f post P M).
Qed.

(** The sample file without the city. *)
Lemma parse_customer_info_file_missing_key_witness :
  snd (parse_customer_info_file Demo.env_without_city CLAIM_INFO_FILE_PATH
         fresh)
  = inl (KeyError (u "customer_city")).
Proof.
  rewrite (parse_customer_info_file_missing_key Demo.env_without_city
             CLAIM_INFO_FILE_PATH Demo.raw_without_city fresh
             ["first_name"; "last_name"; "street_address"]%string
             "city"%string
             ["state"; "zip_code"; "phone_number"; "email"; "car_year";
              "car_make"; "car_model"; "vin"; "license_plate";
              "car_mileage"; "car_color"; "policy_number"]%string).
  - reflexivity.
  - vm_compute; reflexivity.
  - reflexivity.
  - intros g I. simpl in I.
    repeat (destruct I as [<-|I]; [vm_compute; discriminate|]). destruct I.
  - vm_compute; reflexivity.
Defined.

(** X4.  A file whose JSON is not an object (a list, a string, a number,
    a boolean or null) makes the parser raise TypeError at the first
    subscript: the file was opened, nothing else was done, and no
    Customer is built. *)
Theorem parse_customer_info_file_not_an_object env path j w :
  file_system env path = Some (Json j) ->
  is_object j = false ->
  parse_customer_info_file env path w
  = (called (OpenFile path) w, inl TypeError).
Proof.
  intros F N. unfold parse_customer_info_file, json_load_file.
  unfold bind at 1 2. cbn [call]. rewrite F.
  cbn [json_loads ret]. unfold bind at 1.
  destruct j; try reflexivity. discriminate.
Qed.

(** A file that holds the empty list. *)
Lemma parse_customer_info_file_not_an_object_witness :
  snd (parse_customer_info_file Demo.env_list_file CLAIM_INFO_FILE_PATH fresh)
  = inl TypeError.
Proof.
  rewrite (parse_customer_info_file_not_an_object Demo.env_list_file
             CLAIM_INFO_FILE_PATH (JArr []) fresh).
  - reflexivity.
  - vm_compute; reflexivity.
  - reflexivity.
Defined.

(** X5.  When the file holds an object with all sixteen keys and the value
    of one of them is not a string, the parser raises a validation
    error. *)
Theorem parse_customer_info_file_not_a_string env path d w f :
  file_system env path = Some (Json (JObj d)) ->
  (forall g, In g customer_fields -> lookup (customer_key g) d <> None) ->
  In f customer_fields ->
  is_str (file_value d f) = false ->
  parse_customer_info_file env path w
  = (called (OpenFile path) w, inl ValidationError).
Proof.
  intros F P I N.
  rewrite (parse_customer_info_file_object env path d w F).
  rewrite (customer_kwargs_present d _ customer_fields P).
  destruct (validate_Customer _) as [c|] eqn:V; [|reflexivity].
  destruct (validate_Customer_kwargs d c V f I) as (s & _ & B).
  rewrite B in N. discriminate.
Qed.

(** The sample file with the car year as a number. *)
Lemma parse_customer_info_file_not_a_string_witness :
  snd (parse_customer_info_file Sample.env_numeric_year CLAIM_INFO_FILE_PATH
         fresh)
  = inl ValidationError.
Proof.
  rewrite (parse_customer_info_file_not_a_string Sample.env_numeric_year
             CLAIM_INFO_FILE_PATH (members Sample.raw_numeric_year) fresh
             "car_year"%string).
  - reflexivity.
  - vm_compute; reflexivity.
  - intros g I. simpl in I.
    repeat (destruct I as [<-|I]; [vm_compute; discriminate|]). destruct I.
  - simpl. do 8 right. left. reflexivity.
  - vm_compute; reflexivity.
Defined.

(** ** The driver before the run *)

Lemma customer_kwargs_world d fields w w' r :
  for_each (fun field =>
              v <- subscript (JObj d) (u "customer_" ++ u field) ;;
              ret (u field, v)) fields w = (w', r) ->
  w' = w.
Proof.
  destruct (first_missing_field d fields) as [P|(pre & f & post & -> & P & M)].
  - rewrite (customer_kwargs_present d w fields P). congruence.
  - rewrite (customer_kwargs_missing d w pre f post P M). congruence.
Qed.

(** Whatever the file, the parser opens it and does nothing else. *)
Lemma parse_customer_info_file_world env path w w' r :
  parse_customer_info_file env path w = (w', r) ->
  w' = called (OpenFile path) w.
Proof.
  destruct (file_system env path) as [[j|bad]|] eqn:F.
  - destruct j as [ | b | n | l | s | items | d];
      try (unfold parse_customer_info_file, json_load_file;
           unfold bind; cbn [call]; rewrite F; cbn;
           intros [= <- _]; reflexivity).
    rewrite (parse_customer_info_file_object env path d w F).
    destruct (for_each _ customer_fields _) as [w1 [e|kwargs]] eqn:K;
      apply customer_kwargs_world in K; subst w1.
    + congruence.
    + destruct (validate_Customer _); congruence.
  - unfold parse_customer_info_file, json_load_file.
    unfold bind; cbn [call]; rewrite F; cbn; intros [= <- _]; reflexivity.
  - unfold parse_customer_info_file, json_load_file.
    unfold bind; cbn [call]; rewrite F; cbn; intros [= <- _]; reflexivity.
Qed.

(** The outcome of the parser does not depend on what was printed or
    called before. *)
Lemma parse_customer_info_file_outcome env path w w0 :
  snd (parse_customer_info_file env path w)
  = snd (parse_customer_info_file env path w0).
Proof.
  destruct (file_system env path) as [[j|bad]|] eqn:F.
  - destruct j as [ | b | n | l | s | items | d];
      try (unfold parse_customer_info_file, json_load_file;
           unfold bind; cbn [call]; rewrite F; reflexivity).
    rewrite !(parse_customer_info_file_object env path d _ F).
    destruct (first_missing_field d customer_fields)
      as [Pr|(pre & f & post & E & Pr & Mi)].
    + rewrite !(customer_kwargs_present d _ customer_fields Pr).
      destruct (validate_Customer _); reflexivity.
    + rewrite E, !(customer_kwargs_missing d _ pre f post Pr Mi).
      reflexivity.
  - unfold parse_customer_info_file, json_load_file.
    unfold bind; cbn [call]; rewrite F; reflexivity.
  - unfold parse_customer_info_file, json_load_file.
    unfold bind; cbn [call]; rewrite F; reflexivity.
Qed.

(** The loop over the image ids, when every URL is obtained. *)
Lemma download_urls_run env ids w w' urls :
  for_each (fun image_id =>
              download_url <-
                call (BoxGetFileById image_id)
                     (box_download_url env image_id) ;;
              print (u "Download URL: " ++ download_url) ;;;
              ret download_url) ids w = (w', inr urls) ->
  map (box_download_url env) ids = map inr urls
  /\ calls w' = calls w ++ map BoxGetFileById ids
  /\ stdout w' = stdout w ++ map (fun url => u "Download URL: " ++ url) urls.
Proof.
  revert w urls. induction ids as [|id ids IH]; intros w urls.
  - intros [= <- <-]. simpl. now rewrite !app_nil_r.
  - cbn [for_each]. unfold bind at 1 2. cbn [call].
    destruct (box_download_url env id) as [e|url] eqn:B; [discriminate|].
    unfold bind at 1 2. cbn [print ret].
    destruct (for_each _ ids _) as [w1 [e|rest]] eqn:R; [discriminate|].
    intros [= <- <-]. destruct (IH _ _ R) as (M & C & S).
    cbn [calls stdout] in C, S. cbn [map]. rewrite B, M, C, S, <- !app_assoc.
    auto.
Qed.

(** The loop over the image ids, when a URL is refused. *)
Lemma download_urls_fail env pre id post e w :
  (forall i, In i pre -> exists url, box_download_url env i = inr url) ->
  box_download_url env id = inl e ->
  exists w',
    for_each (fun image_id =>
                download_url <-
                  call (BoxGetFileById image_id)
                       (box_download_url env image_id) ;;
                print (u "Download URL: " ++ download_url) ;;;
                ret download_url) (pre ++ id :: post) w = (w', inl e)
    /\ calls w' = calls w ++ map BoxGetFileById (pre ++ [id]).
Proof.
  revert w. induction pre as [|i pre IH]; intros w P F.
  - cbn [app for_each]. unfold bind at 1 2. cbn [call]. rewrite F.
    eexists. split; reflexivity.
  - cbn [app for_each]. unfold bind at 1 2. cbn [call].
    destruct (P i (or_introl eq_refl)) as [url B]. rewrite B.
    unfold bind at 1 2. cbn [print ret].
    match goal with
    | |- context [for_each ?f (pre ++ id :: post) ?w0] =>
        destruct (IH w0 (fun j I => P j (or_intror I)) F) as (w' & R & C)
    end.
    rewrite R. exists w'. split; [reflexivity|].
    rewrite C. cbn [calls map]. now rewrite <- app_assoc.
Qed.

Lemma prepare_query_run env w :
  prepare_query env w =
  match parse_customer_info_file env CLAIM_INFO_FILE_PATH
          (logged (u "Loading customer information " ++ ELLIPSIS) w) with
  | (w1, inl e) => (w1, inl e)
  | (w1, inr (customer, raw_json)) =>
      match
        for_each (fun image_id =>
                    download_url <-
                      call (BoxGetFileById image_id)
                           (box_download_url env image_id) ;;
                    print (u "Download URL: " ++ download_url) ;;;
                    ret download_url)
          (map snd (uploaded_image_ids (uploaded_ids env))) w1
      with
      | (w2, inl e) => (w2, inl e)
      | (w2, inr image_urls) =>
          (w2, inr (query env customer raw_json image_urls))
      end
  end.
Proof.
  unfold prepare_query. unfold bind at 1 2. cbn [print].
  fold (logged (u "Loading customer information " ++ ELLIPSIS) w).
  destruct (parse_customer_info_file env CLAIM_INFO_FILE_PATH _)
    as [w1 [e|[customer raw_json]]]; [reflexivity|].
  unfold bind.
  destruct (for_each _ _ w1) as [w2 [e|image_urls]]; reflexivity.
Qed.

(** X6.  When the driver gets as far as its query, it has opened the
    customer file once and then asked Box for the download URL of every
    uploaded image, once each and in the order of the uploads; the URLs
    are printed and joined into the query in that order. *)
Theorem prepare_query_requests_each_image env w w' q :
  prepare_query env w = (w', inr q) ->
  exists customer raw_json image_urls,
    snd (parse_customer_info_file env CLAIM_INFO_FILE_PATH w)
    = inr (customer, raw_json)
    /\ map (box_download_url env)
         (map snd (uploaded_image_ids (uploaded_ids env)))
       = map inr image_urls
    /\ q = query env customer raw_json image_urls
    /\ calls w'
       = calls w ++ OpenFile CLAIM_INFO_FILE_PATH
           :: map BoxGetFileById
                (map snd (uploaded_image_ids (uploaded_ids env)))
    /\ stdout w'
       = stdout w ++ (u "Loading customer information " ++ ELLIPSIS)
           :: map (fun url => u "Download URL: " ++ url) image_urls.
Proof.
  rewrite prepare_query_run.
  destruct (parse_customer_info_file env CLAIM_INFO_FILE_PATH (logged _ w))
    as [w1 [e|[customer raw_json]]] eqn:P; [discriminate|].
  destruct (for_each _ _ w1) as [w2 [e|image_urls]] eqn:U; [discriminate|].
  intros [= <- <-].
  assert (W := parse_customer_info_file_world _ _ _ _ _ P). subst w1.
  destruct (download_urls_run _ _ _ _ _ U) as (M & C & S).
  exists customer, raw_json, image_urls. repeat split; auto.
  - rewrite (parse_customer_info_file_outcome _ _ w
               (logged (u "Loading customer information " ++ ELLIPSIS) w)), P.
    reflexivity.
  - rewrite C. cbn [calls called logged]. now rewrite <- app_assoc.
  - rewrite S. cbn [stdout called logged]. now rewrite <- app_assoc.
Qed.

(** The sample execution asks for the URLs of its two images. *)
Lemma prepare_query_requests_each_image_witness :
  calls (fst (prepare_query Sample.env_chain fresh))
  = [OpenFile CLAIM_INFO_FILE_PATH; BoxGetFileById (u "11");
     BoxGetFileById (u "12")].
Proof.
  destruct (prepare_query_requests_each_image Sample.env_chain fresh
              (fst (prepare_query Sample.env_chain fresh))
              (Sample.the_query Sample.env_chain))
    as (c & raw & urls & _ & _ & _ & C & _).
  - vm_compute; reflexivity.
  - exact C.
Defined.

(** X7.  When the customer file cannot be parsed, the driver raises the
    parser's exception having done nothing but open the file: no URL is
    asked for and neither the guardrail nor any model is called. *)
Theorem unparsed_file_stops_the_driver env w e :
  snd (parse_customer_info_file env CLAIM_INFO_FILE_PATH w) = inl e ->
  snd (process_insurance_claim env w) = inl e
  /\ calls (fst (process_insurance_claim env w))
     = calls w ++ [OpenFile CLAIM_INFO_FILE_PATH].
Proof.
  intros H. rewrite process_insurance_claim_run, prepare_query_run.
  destruct (parse_customer_info_file env CLAIM_INFO_FILE_PATH (logged _ w))
    as [w1 r1] eqn:P.
  assert (W := parse_customer_info_file_world _ _ _ _ _ P). subst w1.
  assert (R : r1 = inl e).
  { rewrite (parse_customer_info_file_outcome _ _ w
               (logged (u "Loading customer information " ++ ELLIPSIS) w)), P
      in H.
    exact H. }
  subst r1. split; reflexivity.
Qed.

(** The file without the city: the driver raises the KeyError. *)
Lemma unparsed_file_stops_the_driver_witness :
  snd (process_insurance_claim Demo.env_without_city fresh)
  = inl (KeyError (u "customer_city")).
Proof.
  destruct (unparsed_file_stops_the_driver Demo.env_without_city fresh
              (KeyError (u "customer_city"))) as [H _].
  - vm_compute; reflexivity.
  - exact H.
Defined.

(** X8.  When Box refuses the download URL of an image, the driver raises
    that exception: the images after it are not asked for, and neither
    the guardrail nor any model is called. *)
Theorem refused_download_url_stops_the_driver env w customer raw_json pre id
    post e :
  snd (parse_customer_info_file env CLAIM_INFO_FILE_PATH w)
  = inr (customer, raw_json) ->
  map snd (uploaded_image_ids (uploaded_ids env)) = pre ++ id :: post ->
  (forall i, In i pre -> exists url, box_download_url env i = inr url) ->
  box_download_url env id = inl e ->
  snd (process_insurance_claim env w) = inl e
  /\ calls (fst (process_insurance_claim env w))
     = calls w ++ OpenFile CLAIM_INFO_FILE_PATH
         :: map BoxGetFileById (pre ++ [id]).
Proof.
  intros H I P F. rewrite process_insurance_claim_run, prepare_query_run.
  destruct (parse_customer_info_file env CLAIM_INFO_FILE_PATH (logged _ w))
    as [w1 r1] eqn:Q.
  assert (W := parse_customer_info_file_world _ _ _ _ _ Q). subst w1.
  rewrite (parse_customer_info_file_outcome _ _ w
             (logged (u "Loading customer information " ++ ELLIPSIS) w)), Q
    in H.
  cbn [snd] in H. subst r1. rewrite I.
  match goal with
  | |- context [for_each ?f (pre ++ id :: post) ?w0] =>
      destruct (download_urls_fail env pre id post e w0 P F) as (w' & R & C)
  end.
  rewrite R. split; [reflexivity|]. cbn [fst]. rewrite C.
  cbn [calls called logged]. now rewrite <- app_assoc.
Qed.

(** The second of two images is refused: the driver raises, having asked
    for both URLs. *)
Lemma refused_download_url_stops_the_driver_witness :
  snd (process_insurance_claim Demo.env_refused_url fresh)
  = inl (ServiceError (u "404"))
  /\ calls (fst (process_insurance_claim Demo.env_refused_url fresh))
     = [OpenFile CLAIM_INFO_FILE_PATH; BoxGetFileById (u "11");
        BoxGetFileById (u "12")].
Proof.
  apply (refused_download_url_stops_the_driver Demo.env_refused_url fresh
           Demo.customer Sample.raw [u "11"] (u "12") []
           (ServiceError (u "404"))).
  - vm_compute; reflexivity.
  - reflexivity.
  - intros i [<-|[]]. eexists. vm_compute; reflexivity.
  - reflexivity.
Defined.

(** ** The report the driver returns *)

Lemma isspace_digit n : isspace (digit n) = false.
Proof.
  unfold digit.
  assert (H : (n mod 10 < 10)%N) by (apply N.mod_lt; discriminate).
  revert H. generalize (n mod 10)%N. intros m H.
  assert (E : (m = 0 \/ m = 1 \/ m = 2 \/ m = 3 \/ m = 4 \/ m = 5 \/ m = 6
               \/ m = 7 \/ m = 8 \/ m = 9)%N) by lia.
  repeat (destruct E as [->|E]; [reflexivity|]). now subst.
Qed.

Lemma isoformat_not_blank d : blank (isoformat d) = false.
Proof.
  unfold isoformat, blank. cbn [app forallb]. now rewrite isspace_digit.
Qed.

(** X9.  No report comes back from the driver undated: the
    [claim.report_date] of a returned report is never empty and never
    whitespace only. *)
Theorem returned_report_is_dated env w w' v :
  process_insurance_claim env w = (w', inr v) ->
  exists r,
    v = VInsuranceReport r
    /\ blank (Claim.report_date (InsuranceReport.claim r)) = false.
Proof.
  intros H. apply process_returns in H.
  destruct H as (w1 & q & w2 & result & r & _ & _ & _ & _ & ->).
  exists (fill_report_date env r). split; [reflexivity|].
  unfold fill_report_date.
  destruct (blank (Claim.report_date (InsuranceReport.claim r))) eqn:B;
    [|exact B].
  destruct r as [n c k s]. destruct c. apply isoformat_not_blank.
Qed.

(** The execution in which the Orchestrator leaves the date blank. *)
Lemma returned_report_is_dated_witness :
  exists r,
    Sample.the_report Sample.env_blank_date = VInsuranceReport r
    /\ blank (Claim.report_date (InsuranceReport.claim r)) = false.
Proof.
  apply (returned_report_is_dated Sample.env_blank_date fresh
           (fst (process_insurance_claim Sample.env_blank_date fresh))).
  vm_compute; reflexivity.
Defined.

(** ** The texts sent to the models *)

(** X10.  The query of the driver holds the vehicle as year, make and
    model, the address as street, city, state and zip code, the image
    URLs joined with a comma and a space, and the text of the raw
    customer dict. *)
Theorem query_carries_the_claim env customer raw_json image_urls :
  contains (car_of customer) (query env customer raw_json image_urls)
  /\ contains
       (Customer.street_address customer ++ u ", " ++ Customer.city customer
        ++ u ", " ++ Customer.state customer ++ u " "
        ++ Customer.zip_code customer)
       (query env customer raw_json image_urls)
  /\ contains (join (u ", ") image_urls)
       (query env customer raw_json image_urls)
  /\ contains (py_repr env raw_json)
       (query env customer raw_json image_urls).
Proof.
  unfold contains, query, car_of, customer_address.
  split; [|split; [|split]].
  - eexists (NL ++ u "    Process an insurance claim for a "), _.
    rewrite <- !app_assoc. reflexivity.
  - eexists (NL ++ u "    Process an insurance claim for a "
             ++ Customer.car_year customer ++ u " "
             ++ Customer.car_make customer ++ u " "
             ++ Customer.car_model customer ++ u " with damage." ++ NL
             ++ u "    Customer is located at: "), _.
    rewrite <- !app_assoc. reflexivity.
  - eexists (NL ++ u "    Process an insurance claim for a "
             ++ Customer.car_year customer ++ u " "
             ++ Customer.car_make customer ++ u " "
             ++ Customer.car_model customer ++ u " with damage." ++ NL
             ++ u "    Customer is located at: "
             ++ (Customer.street_address customer ++ u ", "
                 ++ Customer.city customer ++ u ", "
                 ++ Customer.state customer ++ u " "
                 ++ Customer.zip_code customer) ++ NL
             ++ u "    Analyze these damage photos: "), _.
    rewrite <- !app_assoc. reflexivity.
  - eexists (NL ++ u "    Process an insurance claim for a "
             ++ Customer.car_year customer ++ u " "
             ++ Customer.car_make customer ++ u " "
             ++ Customer.car_model customer ++ u " with damage." ++ NL
             ++ u "    Customer is located at: "
             ++ (Customer.street_address customer ++ u ", "
                 ++ Customer.city customer ++ u ", "
                 ++ Customer.state customer ++ u " "
                 ++ Customer.zip_code customer) ++ NL
             ++ u "    Analyze these damage photos: "
             ++ join (u ", ") image_urls ++ NL
             ++ u "    Other information to use for the final object: "), _.
    rewrite <- !app_assoc. reflexivity.
Qed.

Lemma request_image_urls_parts urls :
  flat_map (fun part =>
              match part with
              | JObj p =>
                  match lookup (u "type") p, lookup (u "image_url") p with
                  | Some (JStr t), Some (JStr url) =>
                      if pystr_eqb t (u "input_image") then [url] else []
                  | _, _ => []
                  end
              | _ => []
              end)
    (map (fun url =>
            JObj [(u "type", JStr (u "input_image"));
                  (u "image_url", JStr url)]) urls)
  = urls.
Proof.
  induction urls as [|url urls IH]; [reflexivity|].
  cbn [map flat_map]. rewrite IH. reflexivity.
Qed.

(** X11.  The request of the vision tool carries the text first and then
    one image part for every URL it was given, in the order given: the
    URLs can be read back from the request. *)
Theorem damage_request_carries_the_images image_urls year make model :
  request_image_urls (damage_request image_urls year make model) = image_urls
  /\ request_text (damage_request image_urls year make model)
     = Some (damage_prompt year make model).
Proof.
  split; [|reflexivity].
  unfold request_image_urls, damage_request, input_content.
  cbn [req_input]. 
  change (lookup (u "content") _) with
    (Some (JArr ([JObj [(u "type", JStr (u "input_text"));
                        (u "text", JStr (damage_prompt year make model))]]
                 ++ map (fun url =>
                           JObj [(u "type", JStr (u "input_image"));
                                 (u "image_url", JStr url)]) image_urls))).
  cbn [app]. apply request_image_urls_parts.
Qed.

(** X12.  The prompt of the vision tool names the vehicle it was called
    for: it holds the sentence "The vehicle is a", the year, the make and
    the model, separated by single spaces and closed by a full stop. *)
Theorem damage_prompt_names_the_vehicle year make model :
  contains
    (u "The vehicle is a " ++ year ++ u " " ++ make ++ u " " ++ model
     ++ u ". ")
    (damage_prompt year make model).
Proof.
  unfold contains.
  exists (firstn 342 (damage_prompt [] [] [])),
         (skipn 4 (skipn 359 (damage_prompt [] [] []))).
  rewrite <- !app_assoc. reflexivity.
Qed.

(** ** The guardrail as a gate *)

Lemma prelude_call_is_not_downstream c :
  is_prelude_call c = true -> downstream_call c = false.
Proof. destruct c; simpl; congruence. Qed.

(** X13.  Nothing downstream happens without the guardrail's consent: a
    call to the model of a specialist, to the vision service, to web
    search or to document generation occurs in an execution of the
    notebook only if the guardrail model was asked about the query and
    found it insurance related. *)
Theorem downstream_calls_need_a_positive_verdict env c :
  In c (calls (fst (notebook env fresh))) ->
  downstream_call c = true ->
  exists q verdict,
    In (GuardrailModelCall q) (calls (fst (notebook env fresh)))
    /\ guardrail_llm env q = inr verdict
    /\ InsuranceGuardrailOutput.is_insurance_related verdict = true.
Proof.
  rewrite notebook_run.
  destruct (prepare_query env (logged START fresh)) as [w1 [e|q0]] eqn:P;
    destruct (only_calls_prepare_query env _ _ _ P) as (pcs & CP & PP);
    simpl in CP.
  { cbn [fst]. rewrite CP. intros I D. rewrite forallb_forall in PP.
    rewrite (prelude_call_is_not_downstream c (PP c I)) in D. discriminate. }
  destruct (first_turn_orchestrator env q0 (logged RUNNING w1))
    as (w2 & turn & T & C2 & F).
  rewrite F. simpl in C2. rewrite CP in C2.
  assert (N : forall x, In x (calls w2) -> downstream_call x = false).
  { intros x I. rewrite C2 in I. apply in_app_or in I. destruct I as [I|I].
    - rewrite forallb_forall in PP.
      exact (prelude_call_is_not_downstream x (PP x I)).
    - simpl in I. destruct I as [<-|[<-|[]]]; reflexivity. }
  assert (G : In (GuardrailModelCall q0) (calls w2)).
  { rewrite C2. apply in_or_app. right. now left. }
  unfold guardrail_outcome.
  destruct (guardrail_llm env q0) as [eg|verdict] eqn:GL.
  - destruct turn; cbn [fst]; intros I D; rewrite (N c I) in D; discriminate.
  - destruct (InsuranceGuardrailOutput.is_insurance_related verdict) eqn:V;
      cbn [negb].
    + intros _ _. exists q0, verdict. split; [|auto].
      destruct turn as [et|step]; cbn [fst]; [exact G|].
      match goal with
      | |- In _ (calls (fst (?k w2))) => destruct (k w2) as [w3 r3] eqn:R
      end.
      assert (O : only_calls is_later_call
                    (result <- after_turn 9 env q0 claim_orchestrator []
                                 step ;;
                     final_report <- require_report env result ;;
                     generate_report env final_report)).
      { apply only_calls_bind; [apply only_calls_after_turn|].
        intros result. apply only_calls_bind;
          [apply only_calls_require_report|].
        intros v. apply only_calls_generate_report. }
      destruct (O _ _ _ R) as (later & CL & _). cbn [fst]. rewrite CL.
      apply in_or_app. now left.
    + destruct turn; cbn [fst]; intros I D; rewrite (N c I) in D;
        discriminate.
Qed.

(** The execution in which every model follows its instructions reaches
    the vision service, and its guardrail had consented. *)
Lemma downstream_calls_need_a_positive_verdict_witness :
  exists q verdict,
    In (GuardrailModelCall q) (calls (fst (notebook Sample.env_chain fresh)))
    /\ guardrail_llm Sample.env_chain q = inr verdict
    /\ InsuranceGuardrailOutput.is_insurance_related verdict = true.
Proof.
  apply (downstream_calls_need_a_positive_verdict Sample.env_chain
           (VisionCall
              (damage_request Sample.urls (u "2023") (u "Honda")
                 (u "Civic")))).
  - vm_compute. do 6 right. left. reflexivity.
  - reflexivity.
Defined.

(** ** Every run of the agents *)

Lemma only_calls_for_each_in {A B} P (f : A -> M B) l :
  (forall a, In a l -> only_calls P (f a)) -> only_calls P (for_each f l).
Proof.
  induction l as [|a l IH]; intros H; simpl.
  - apply only_calls_ret.
  - apply only_calls_bind; [apply H; now left|]. intros b.
    apply only_calls_bind; [apply IH; intros x I; apply H; now right|].
    intros bs. apply only_calls_ret.
Qed.

Lemma only_calls_invoke_tool_of env a c :
  existsb (Tool_eqb (tool_of c)) (tools (agents a)) = true ->
  only_calls (may_call a) (invoke_tool env a c).
Proof.
  destruct c as [image_urls year make model|query]; cbn [tool_of];
    intros H.
  - intros w w' r. cbn [invoke_tool].
    destruct (analyze_vehicle_damage_gpt4v env image_urls year make model w)
      as [w1 output] eqn:E.
    intros [= <- <-]. revert E.
    unfold analyze_vehicle_damage_gpt4v, json_loads. unfold bind.
    cbn [print call].
    destruct (responses_create env _) as [e|[j|bad]]; intros [= <- _];
      (eexists [_]; split; [reflexivity|]); cbn; now rewrite H.
  - cbn [invoke_tool]. apply only_calls_call. exact H.
Qed.

(** A turn is the model call of its agent followed by calls of the tools
    of that agent. *)
Lemma run_single_turn_tools env a input items w w' res :
  run_single_turn env a input items w = (w', res) ->
  exists cs,
    calls w' = calls w ++ ModelCall a :: cs
    /\ forallb (may_call a) cs = true.
Proof.
  unfold run_single_turn. rewrite bind_run. cbn [call].
  destruct (llm env a input items) as [e|response].
  { intros [= <- <-]. exists []. simpl. auto. }
  destruct (forallb _ (tool_calls response)) eqn:T; cbn [negb].
  2:{ intros [= <- <-]. exists []. simpl. auto. }
  destruct (forallb _ (handoff_calls response)) eqn:H; cbn [negb].
  2:{ intros [= <- <-]. exists []. simpl. auto. }
  rewrite bind_run.
  destruct (for_each (invoke_tool env a) (tool_calls response) _)
    as [w1 r1] eqn:F.
  assert (O : only_calls (may_call a)
                (for_each (invoke_tool env a) (tool_calls response))).
  { apply only_calls_for_each_in. intros c I.
    apply only_calls_invoke_tool_of. rewrite forallb_forall in T.
    exact (T c I). }
  destruct (O _ _ _ F) as (cs & C & P). simpl in C.
  assert (W : forall r, (w1, r) = (w', res) ->
              exists cs, calls w' = calls w ++ ModelCall a :: cs
                         /\ forallb (may_call a) cs = true).
  { intros r [= <- _]. exists cs. rewrite C, <- app_assoc. auto. }
  destruct r1 as [e|outputs]; [apply W|].
  destruct (handoff_calls response); [|apply W].
  destruct (message response) as [t|]; [|apply W].
  destruct (validate_json _ t); apply W.
Qed.

Lemma may_call_vision a req :
  may_call a (VisionCall req) = true -> a = image_analysis_agent.
Proof. destruct a; simpl; congruence. Qed.

Lemma may_call_web_search a query :
  may_call a (WebSearchCall query) = true -> a = repair_shop_agent.
Proof. destruct a; simpl; congruence. Qed.

Lemma confined_turn a tcs rest current :
  forallb (may_call a) tcs = true ->
  (forall cur, confined cur rest = true) ->
  confined current (ModelCall a :: tcs ++ rest) = true.
Proof.
  intros T R. cbn [confined]. induction tcs as [|c tcs IH]; [apply R|].
  simpl in T. apply andb_true_iff in T. destruct T as [Tc T].
  destruct c; try discriminate; cbn [app confined].
  - apply may_call_vision in Tc. subst a. now apply IH.
  - apply may_call_web_search in Tc. subst a. now apply IH.
Qed.

Lemma confined_guardrail gs rest current :
  forallb is_guardrail_call gs = true ->
  confined current (gs ++ rest) = confined current rest.
Proof.
  induction gs as [|g gs IH]; [reflexivity|].
  simpl. intros H. apply andb_true_iff in H. destruct H as [Hg H].
  destruct g; try discriminate. now apply IH.
Qed.

Lemma first_turn_tools env a input w w' res :
  first_turn env a input w = (w', res) ->
  exists gs cs,
    calls w' = calls w ++ gs ++ ModelCall a :: cs
    /\ forallb is_guardrail_call gs = true
    /\ forallb (may_call a) cs = true.
Proof.
  unfold first_turn.
  destruct (run_input_guardrails env _ input w) as [w1 guard] eqn:G.
  destruct (run_single_turn env a input [] w1) as [w2 turn] eqn:T.
  intros [= <- _].
  destruct (only_calls_guardrails _ _ _ _ _ _ G) as (gs & CG & PG).
  destruct (run_single_turn_tools _ _ _ _ _ _ _ T) as (cs & CT & PT).
  exists gs, cs. rewrite CT, CG, <- app_assoc. auto.
Qed.

Lemma run_loop_tools_and_turns n env input :
  forall first a items w w' res,
    run_loop n env input first a items w = (w', res) ->
    exists cs,
      calls w' = calls w ++ cs
      /\ (forall cur, confined cur cs = true)
      /\ List.length (agents_run cs) <= n.
Proof.
  induction n as [|n IH]; intros first a items w w' res.
  - intros [= <- <-]. exists []. rewrite app_nil_r. auto.
  - rewrite run_loop_S, bind_run.
    set (turn := if first then first_turn env a input
                 else run_single_turn env a input items).
    destruct (turn w) as [w1 r1] eqn:T; subst turn.
    assert (S1 : exists gs tcs,
               calls w1 = calls w ++ gs ++ ModelCall a :: tcs
               /\ forallb is_guardrail_call gs = true
               /\ forallb (may_call a) tcs = true).
    { destruct first.
      - exact (first_turn_tools _ _ _ _ _ _ T).
      - destruct (run_single_turn_tools _ _ _ _ _ _ _ T) as (cs & C & P).
        exists [], cs. auto. }
    destruct S1 as (gs & tcs & C1 & PG & PT).
    assert (A1 : agents_run (gs ++ ModelCall a :: tcs) = [a]).
    { rewrite agents_run_app. simpl.
      rewrite (agents_run_none is_guardrail_call gs); auto.
      rewrite (agents_run_none (may_call a) tcs); auto. }
    assert (Stop : forall r, (w1, r) = (w', res) ->
              exists cs,
                calls w' = calls w ++ cs
                /\ (forall cur, confined cur cs = true)
                /\ List.length (agents_run cs) <= S n).
    { intros r [= <- _]. exists (gs ++ ModelCall a :: tcs).
      split; [assumption|]. split.
      - intros cur. rewrite confined_guardrail by assumption.
        rewrite <- (app_nil_r tcs). now apply confined_turn.
      - rewrite A1. simpl. lia. }
    assert (Go : forall b,
              run_loop n env input false b
                (items ++ new_step_items
                            match r1 with
                            | inr step => step
                            | inl _ =>
                                {| new_step_items := [];
                                   next_step := NextStepRunAgain |}
                            end) w1 = (w', res) ->
              exists cs,
                calls w' = calls w ++ cs
                /\ (forall cur, confined cur cs = true)
                /\ List.length (agents_run cs) <= S n).
    { intros b R. destruct (IH _ _ _ _ _ _ R) as (cs2 & C2 & F2 & L2).
      exists ((gs ++ ModelCall a :: tcs) ++ cs2).
      rewrite C2, C1, <- !app_assoc. split; [reflexivity|]. split.
      - intros cur. rewrite confined_guardrail by assumption.
        cbn [app]. now apply confined_turn.
      - rewrite app_assoc, agents_run_app, A1. simpl. lia. }
    destruct r1 as [e|step]; [apply Stop|]. unfold after_turn.
    destruct (next_step step); [apply Stop | apply Go | apply Go].
Qed.

(** X14.  In every run the vision service is called in turns of the Image
    Analyst only and web search in turns of the Repair Shop Finder only;
    the Orchestrator and the Cost Estimator cause no tool call at all. *)
Theorem tools_are_confined_to_their_agents env input w :
  exists cs,
    calls (fst (Runner_run env claim_orchestrator input w)) = calls w ++ cs
    /\ confined None cs = true.
Proof.
  destruct (Runner_run env claim_orchestrator input w) as [w' res] eqn:R.
  destruct (run_loop_tools_and_turns _ _ _ _ _ _ _ _ _ R) as (cs & C & F & _).
  exists cs. auto.
Qed.

(** X15.  A run takes at most ten turns: whatever the models answer, no
    more than ten model calls are made for the agents. *)
Theorem a_run_takes_at_most_ten_turns env input w :
  exists cs,
    calls (fst (Runner_run env claim_orchestrator input w)) = calls w ++ cs
    /\ List.length (agents_run cs) <= 10.
Proof.
  destruct (Runner_run env claim_orchestrator input w) as [w' res] eqn:R.
  destruct (run_loop_tools_and_turns _ _ _ _ _ _ _ _ _ R) as (cs & C & _ & L).
  exists cs. auto.
Qed.

(** ** The order of the agents *)

Lemma follows_handoffs_tail a l :
  follows_handoffs (a :: l) = true -> follows_handoffs l = true.
Proof.
  destruct l as [|b l]; [reflexivity|]. cbn [follows_handoffs].
  intros H. apply andb_true_iff in H. tauto.
Qed.

Lemma follows_handoffs_pair l1 x y l2 :
  follows_handoffs (l1 ++ x :: y :: l2) = true -> y = x \/ y = next_agent x.
Proof.
  induction l1 as [|a l1 IH].
  - cbn [app follows_handoffs]. intros H. apply andb_true_iff in H.
    destruct H as [H _]. apply orb_true_iff in H.
    destruct H as [H|H]; apply AgentId_eqb_eq in H; auto.
  - intros H. apply IH. exact (follows_handoffs_tail _ _ H).
Qed.

Lemma previous_next a : previous_agent (next_agent a) = a.
Proof. destruct a; reflexivity. Qed.

(** On a trace that follows the ring, an agent other than the first one
    is preceded by the agent that hands off to it. *)
Lemma predecessor_comes_first a l :
  starts_with a l = true -> follows_handoffs l = true ->
  forall l1 b l2,
    l = l1 ++ b :: l2 -> b <> a -> In (previous_agent b) l1.
Proof.
  intros S F l1. induction l1 as [|x l1 IH] using rev_ind; intros b l2 E N.
  - subst l. simpl in S. apply AgentId_eqb_eq in S. congruence.
  - subst l. rewrite <- app_assoc in F. cbn [app] in F.
    destruct (follows_handoffs_pair _ _ _ _ F) as [->| ->].
    + apply in_or_app. left.
      apply (IH x (x :: l2)); [|exact N].
      now rewrite <- app_assoc.
    + apply in_or_app. right. rewrite previous_next. now left.
Qed.

(** On a trace that follows the ring and ends with the Orchestrator, a
    specialist is followed by the Repair Shop Finder or is it. *)
Lemma repair_shop_comes_last l2 :
  forall l1 b,
    follows_handoffs (l1 ++ b :: l2) = true ->
    (exists before, l1 ++ b :: l2 = before ++ [claim_orchestrator]) ->
    b <> claim_orchestrator ->
    In repair_shop_agent (l1 ++ b :: l2).
Proof.
  induction l2 as [|y l2 IH]; intros l1 b F [before E] N.
  - exfalso. apply N.
    assert (H : rev (l1 ++ [b]) = rev (before ++ [claim_orchestrator]))
      by now rewrite E.
    rewrite !rev_app_distr in H. simpl in H. congruence.
  - destruct (follows_handoffs_pair _ _ _ _ F) as [->| ->].
    + replace (l1 ++ b :: b :: l2) with ((l1 ++ [b]) ++ b :: l2)
        by now rewrite <- app_assoc.
      apply IH; auto.
      * now rewrite <- app_assoc.
      * exists before. now rewrite <- app_assoc.
    + destruct b; try congruence; cbn [next_agent] in *.
      * replace (l1 ++ image_analysis_agent :: cost_estimation_agent :: l2)
          with ((l1 ++ [image_analysis_agent]) ++ cost_estimation_agent :: l2)
          by now rewrite <- app_assoc.
        apply IH; [now rewrite <- app_assoc | | discriminate].
        exists before. now rewrite <- app_assoc.
      * replace (l1 ++ cost_estimation_agent :: repair_shop_agent :: l2)
          with ((l1 ++ [cost_estimation_agent]) ++ repair_shop_agent :: l2)
          by now rewrite <- app_assoc.
        apply IH; [now rewrite <- app_assoc | | discriminate].
        exists before. now rewrite <- app_assoc.
      * apply in_or_app. right. now left.
Qed.

(** X16.  In every run a specialist takes a turn only after the agent
    that hands off to it has taken one: the Image Analyst after the
    Orchestrator, the Cost Estimator after the Image Analyst, the Repair
    Shop Finder after the Cost Estimator; and the Orchestrator regains
    control only from the Repair Shop Finder. *)
Theorem no_turn_before_the_predecessor env input w :
  exists cs,
    calls (fst (Runner_run env claim_orchestrator input w)) = calls w ++ cs
    /\ (forall before b after,
          agents_run cs = before ++ b :: after ->
          b <> claim_orchestrator ->
          In (previous_agent b) before)
    /\ (forall before b after,
          agents_run cs = before ++ b :: claim_orchestrator :: after ->
          b = claim_orchestrator \/ b = repair_shop_agent).
Proof.
  destruct (Runner_run env claim_orchestrator input w) as [w' res] eqn:R.
  destruct (Runner_run_spec _ _ _ _ _ _ R) as (cs & C & _ & S & F & _).
  exists cs. split; [exact C|]. split.
  - intros before b after E N.
    exact (predecessor_comes_first _ _ S F before b after E N).
  - intros before b after E. rewrite E in F.
    destruct (follows_handoffs_pair _ _ _ _ F) as [H|H]; [now left|].
    right. destruct b; simpl in H; congruence.
Qed.

(** X17.  A returned report is all or nothing: when the driver returns a
    report and some specialist has taken a turn in its run, then the
    Image Analyst, the Cost Estimator and the Repair Shop Finder have all
    taken one. *)
Theorem a_returned_report_saw_all_specialists_or_none env w' v b :
  process_insurance_claim env fresh = (w', inr v) ->
  specialist b = true ->
  In b (agents_run (calls w')) ->
  In image_analysis_agent (agents_run (calls w'))
  /\ In cost_estimation_agent (agents_run (calls w'))
  /\ In repair_shop_agent (agents_run (calls w')).
Proof.
  intros H SB IB.
  destruct (process_returns _ _ _ _ H)
    as (w1 & q & w2 & result & r & P & R & FO & -> & _).
  destruct (only_calls_prepare_query env _ _ _ P) as (pcs & CP & PP).
  destruct (Runner_run_spec _ _ _ _ _ _ R) as (cs & C & _ & S & F & L).
  destruct (L result eq_refl) as [[before E] T].
  assert (LA : last_agent result = claim_orchestrator).
  { rewrite FO in T. simpl in T. symmetry in T.
    now apply orchestrator_output_type in T. }
  rewrite LA in E.
  assert (A : agents_run (calls (logged FINISHED w2)) = agents_run cs).
  { cbn [logged calls]. rewrite C. cbn [logged calls]. rewrite CP.
    cbn [fresh calls app]. rewrite agents_run_app.
    rewrite (agents_run_none is_prelude_call pcs); auto. }
  rewrite A in *. clear A.
  assert (NB : b <> claim_orchestrator).
  { intros ->. discriminate. }
  destruct (in_split _ _ IB) as (l1 & l2 & EB).
  assert (RS : In repair_shop_agent (agents_run cs)).
  { rewrite EB. apply repair_shop_comes_last; auto.
    - now rewrite <- EB.
    - exists before. now rewrite <- EB. }
  destruct (in_split _ _ RS) as (r1 & r2 & ER).
  assert (CE : In cost_estimation_agent r1).
  { apply (predecessor_comes_first _ _ S F r1 repair_shop_agent r2 ER).
    discriminate. }
  destruct (in_split _ _ CE) as (c1 & c2 & EC).
  assert (IA : In image_analysis_agent c1).
  { apply (predecessor_comes_first _ _ S F c1 cost_estimation_agent
             (c2 ++ repair_shop_agent :: r2)); [|discriminate].
    rewrite ER, EC, <- app_assoc. reflexivity. }
  repeat split; auto.
  - rewrite ER, EC. apply in_or_app. left. apply in_or_app. now left.
  - rewrite ER. apply in_or_app. now left.
Qed.

(** The execution in which every model follows its instructions. *)
Lemma a_returned_report_saw_all_specialists_or_none_witness :
  In repair_shop_agent
    (agents_run
       (calls (fst (process_insurance_claim Sample.env_chain fresh)))).
Proof.
  destruct (a_returned_report_saw_all_specialists_or_none Sample.env_chain
              (fst (process_insurance_claim Sample.env_chain fresh))
              (Sample.the_report Sample.env_chain) image_analysis_agent)
    as (_ & _ & H).
  - vm_compute; reflexivity.
  - reflexivity.
  - vm_compute. right. left. reflexivity.
  - exact H.
Defined.

(** ** The document-generation cell, again *)

Lemma join_delimiter sep pre a b post :
  join sep (pre ++ (a ++ sep ++ b) :: post)
  = join sep (pre ++ a :: b :: post).
Proof.
  induction pre as [|x pre IH].
  - destruct post as [|p post]; [reflexivity|].
    change (((a ++ sep ++ b) ++ sep ++ join sep (p :: post))
            = a ++ sep ++ b ++ sep ++ join sep (p :: post)).
    now rewrite <- !app_assoc.
  - destruct pre as [|y pre].
    + change (x ++ sep ++ join sep ([] ++ (a ++ sep ++ b) :: post)
              = x ++ sep ++ join sep ([] ++ a :: b :: post)).
      now rewrite IH.
    + change (x ++ sep ++ join sep ((y :: pre) ++ (a ++ sep ++ b) :: post)
              = x ++ sep ++ join sep ((y :: pre) ++ a :: b :: post)).
      now rewrite IH.
Qed.

Lemma generate_report_with_parts env r l w :
  generate_report env (VInsuranceReport (with_parts (Some l) r)) w =
  (let ui :=
     JObj (store (u "claim")
             (JObj (store (u "damaged_parts_list")
                      (JStr (join (u ", ") l))
                      (members (dump_Claim (InsuranceReport.claim r)))))
             (members (dump_InsuranceReport r))) in
   let req := docgen_request env (InsuranceReport.claim_number r) ui in
   (print (PAGE ++ u "  Submitting Box Doc" ++ NBSP ++ u "Gen job "
           ++ ELLIPSIS) ;;;
    batch_id <- call (DocGenCall req) (box_create_docgen_batch env req) ;;
    print (u "Doc" ++ NBSP ++ u "Gen batch created (batch_id = "
           ++ batch_id ++ u ").") ;;;
    ret batch_id) w).
Proof.
  rewrite generate_report_run. destruct r as [n c k s]. destruct c.
  reflexivity.
Qed.

(** X18.  The flattening forgets where one part ends and the next begins:
    a report in which one part holds a comma and a space is submitted
    exactly as the report in which that part is two parts. *)
Theorem flattening_forgets_part_boundaries env r pre a b post w :
  generate_report env
    (VInsuranceReport
       (with_parts (Some (pre ++ (a ++ u ", " ++ b) :: post)) r)) w
  = generate_report env
      (VInsuranceReport (with_parts (Some (pre ++ a :: b :: post)) r)) w.
Proof.
  rewrite !generate_report_with_parts. now rewrite join_delimiter.
Qed.

(** The driver calls the disk, Box for URLs, the guardrail, the models
    and their tools, and nothing else. *)
Lemma process_insurance_claim_calls env w w' r :
  process_insurance_claim env w = (w', r) ->
  exists cs,
    calls w' = calls w ++ cs
    /\ forallb (fun c => is_prelude_call c || is_run_call c) cs = true.
Proof.
  rewrite process_insurance_claim_run.
  destruct (prepare_query env w) as [w1 [e|q]] eqn:P;
    destruct (only_calls_prepare_query env _ _ _ P) as (pcs & CP & PP).
  - intros [= <- _]. exists pcs. split; [exact CP|].
    rewrite forallb_forall in *. intros c I. now rewrite (PP c I).
  - destruct (Runner_run env claim_orchestrator q (logged RUNNING w1))
      as [w2 res] eqn:R.
    destruct (Runner_run_spec _ _ _ _ _ _ R) as (cs & C & PR & _).
    cbn [logged calls] in C.
    assert (Both : forallb (fun c => is_prelude_call c || is_run_call c)
                     (pcs ++ cs) = true).
    { rewrite forallb_app. apply andb_true_iff. split;
        rewrite forallb_forall in *; intros c I.
      - now rewrite (PP c I).
      - rewrite (PR c I). apply orb_true_r. }
    destruct res as [e|result].
    + intros [= <- _]. exists (pcs ++ cs). rewrite C, CP, <- app_assoc. auto.
    + destruct (final_output result) as [x|x|x|rep] eqn:F;
        try (rewrite require_report_other by (rewrite F; discriminate);
             intros [= <- _]; exists (pcs ++ cs); cbn [logged calls];
             rewrite C, CP, <- app_assoc; auto).
      rewrite (require_report_report env result rep w2 F).
      intros [= <- _]. exists (pcs ++ cs). cbn [logged calls].
      rewrite C, CP, <- app_assoc. auto.
Qed.

Lemma notebook_steps env w :
  notebook env w =
  match process_insurance_claim env (logged START w) with
  | (w1, inl e) => (w1, inl e)
  | (w1, inr final_report) => generate_report env final_report w1
  end.
Proof.
  unfold notebook. unfold bind at 1. cbn [print].
  fold START. fold (logged START w). rewrite bind_run.
  destruct (process_insurance_claim env (logged START w)) as [w1 [e|v]];
    reflexivity.
Qed.

(** X19.  A document is asked for only on behalf of a returned report:
    when an execution of the notebook submits a request, the driver had
    returned a report with a list of parts, the request is the last call
    of the execution and the only one to document generation, and its
    user input holds the parts of that report joined with a comma and a
    space. *)
Theorem a_document_is_submitted_for_a_returned_report env req :
  In (DocGenCall req) (calls (fst (notebook env fresh))) ->
  exists w1 r l claim_members,
    process_insurance_claim env (logged START fresh)
    = (w1, inr (VInsuranceReport r))
    /\ Claim.damaged_parts_list (InsuranceReport.claim r) = Some l
    /\ calls (fst (notebook env fresh)) = calls w1 ++ [DocGenCall req]
    /\ (forall other, ~ In (DocGenCall other) (calls w1))
    /\ file req = template_file_id (uploaded_ids env)
    /\ destination_folder req = claim_folder_id (uploaded_ids env)
    /\ map generated_file_name (document_generation_data req)
       = [u "Pre" ++ NBHYPHEN ++ u "Inspection" ++ NBHYPHEN ++ u "Report"
          ++ NBHYPHEN ++ InsuranceReport.claim_number r]
    /\ map (fun data => lookup (u "claim") (members (user_input data)))
         (document_generation_data req)
       = [Some (JObj claim_members)]
    /\ lookup (u "damaged_parts_list") claim_members
       = Some (JStr (join (u ", ") l)).
Proof.
  rewrite notebook_steps.
  destruct (process_insurance_claim env (logged START fresh))
    as [w1 res] eqn:P.
  destruct (process_insurance_claim_calls _ _ _ _ P) as (cs & C & K).
  cbn [logged calls fresh app] in C.
  assert (Free : forall other, ~ In (DocGenCall other) (calls w1)).
  { intros other I. rewrite C in I. rewrite forallb_forall in K.
    specialize (K _ I). discriminate. }
  destruct res as [e|v].
  { cbn [fst]. intros I. exfalso. exact (Free req I). }
  destruct (process_returns _ _ _ _ P)
    as (w0 & q & w2 & result & r0 & _ & _ & _ & _ & ->).
  set (r := fill_report_date env r0) in *.
  rewrite generate_report_run.
  destruct (Claim.damaged_parts_list (InsuranceReport.claim r)) as [l|] eqn:L.
  2:{ cbn [fst]. intros I. exfalso. exact (Free req I). }
  cbv zeta.
  set (cm := store (u "damaged_parts_list") (JStr (join (u ", ") l))
               (members (dump_Claim (InsuranceReport.claim r)))).
  set (ui := store (u "claim") (JObj cm) (members (dump_InsuranceReport r))).
  set (req0 := docgen_request env (InsuranceReport.claim_number r) (JObj ui)).
  unfold bind. cbn [print call].
  assert (E : forall (x : World * Exc pystr),
             calls (fst x) = calls w1 ++ [DocGenCall req0] ->
             In (DocGenCall req) (calls (fst x)) ->
             exists w1' r' l' claim_members,
               (w1, @inr PyExc PyVal (VInsuranceReport r))
               = (w1', inr (VInsuranceReport r'))
               /\ Claim.damaged_parts_list (InsuranceReport.claim r')
                  = Some l'
               /\ calls (fst x) = calls w1' ++ [DocGenCall req]
               /\ (forall other, ~ In (DocGenCall other) (calls w1'))
               /\ file req = template_file_id (uploaded_ids env)
               /\ destination_folder req = claim_folder_id (uploaded_ids env)
               /\ map generated_file_name (document_generation_data req)
                  = [u "Pre" ++ NBHYPHEN ++ u "Inspection" ++ NBHYPHEN
                     ++ u "Report" ++ NBHYPHEN
                     ++ InsuranceReport.claim_number r']
               /\ map (fun data =>
                         lookup (u "claim") (members (user_input data)))
                    (document_generation_data req)
                  = [Some (JObj claim_members)]
               /\ lookup (u "damaged_parts_list") claim_members
                  = Some (JStr (join (u ", ") l'))).
  { intros x Cx I. rewrite Cx in I. apply in_app_or in I.
    destruct I as [I|[I|[]]]; [exfalso; exact (Free req I)|].
    injection I as <-.
    exists w1, r, l, cm. split; [reflexivity|]. split; [exact L|].
    split; [exact Cx|]. split; [exact Free|].
    split; [reflexivity|]. split; [reflexivity|]. split; [reflexivity|].
    split.
    - cbn [req0 docgen_request document_generation_data map user_input
           members]. unfold ui. now rewrite lookup_store_same.
    - apply lookup_store_same. }
  destruct (box_create_docgen_batch env req0); apply E; reflexivity.
Qed.

(** The execution in which every model follows its instructions submits
    its document for the report of the driver. *)
Lemma a_document_is_submitted_for_a_returned_report_witness :
  exists w1 r,
    process_insurance_claim Sample.env_chain (logged START fresh)
    = (w1, inr (VInsuranceReport r))
    /\ InsuranceReport.claim_number r = u "G8947892834455".
Proof.
  destruct (a_document_is_submitted_for_a_returned_report Sample.env_chain
              (Demo.the_request Sample.env_chain))
    as (w1 & r & l & cm & P & _ & _ & _ & _ & _ & N & _).
  - vm_compute. do 11 right. left. reflexivity.
  - exists w1, r. split; [exact P|].
    vm_compute in N. injection N as N. vm_compute. now rewrite <- N.
Defined.

(** ** Step 3: the demo content *)

Lemma sbind_run {A B} (c : Setup A) (k : A -> Setup B) w :
  sbind c k w =
  match c w with
  | (w', inl e) => (w', inl e)
  | (w', inr a) => k a w'
  end.
Proof. reflexivity. Qed.

Lemma sbind_returns {A B} (c : Setup A) (k : A -> Setup B) w w' b :
  sbind c k w = (w', inr b) ->
  exists w1 a, c w = (w1, inr a) /\ k a w1 = (w', inr b).
Proof.
  rewrite sbind_run. destruct (c w) as [w1 [e|a]]; [discriminate|]. eauto.
Qed.

Lemma create_folder_returns box what name parent w w' folder :
  create_folder box what name parent w = (w', inr folder) ->
  folders_create_folder box name parent = inr folder
  /\ setup_calls w' = setup_calls w ++ [CreateFolder name parent].
Proof.
  unfold create_folder. unfold sbind. cbn [scall].
  destruct (folders_create_folder box name parent) as [e|f];
    [discriminate|].
  cbn [sprint sret]. intros [= <- <-]. auto.
Qed.

Lemma create_folder_run box what name parent w folder :
  folders_create_folder box name parent = inr folder ->
  exists w',
    create_folder box what name parent w = (w', inr folder)
    /\ setup_calls w' = setup_calls w ++ [CreateFolder name parent].
Proof.
  intros F. unfold create_folder. unfold sbind. cbn [scall]. rewrite F.
  cbn [sprint sret]. eexists. split; reflexivity.
Qed.

Lemma scall_returns {A} c (answer : Exc A) w w' a :
  scall c answer w = (w', inr a) ->
  answer = inr a /\ setup_calls w' = setup_calls w ++ [c].
Proof. unfold scall. intros [= <- ->]. auto. Qed.

Lemma uploaded_names_app cs1 cs2 :
  uploaded_names (cs1 ++ cs2) = uploaded_names cs1 ++ uploaded_names cs2.
Proof. apply flat_map_app. Qed.

(** The loop uploads the regular files of the listing, in its order, into
    the images folder. *)
Lemma upload_images_returns box path folder_id names :
  forall acc w w' ids,
    upload_images box path folder_id names acc w = (w', inr ids) ->
    exists cs,
      setup_calls w' = setup_calls w ++ cs
      /\ uploaded_names cs
         = filter (fun n => os_path_isfile box (os_path_join path n)) names
      /\ forall name parent content,
           In (UploadFile name parent content) cs -> parent = folder_id.
Proof.
  induction names as [|n names IH]; intros acc w w' ids.
  - intros [= <- _]. exists []. rewrite app_nil_r.
    repeat split; auto. intros ? ? ? [].
  - cbn [upload_images filter].
    destruct (os_path_isfile box (os_path_join path n)).
    + intros H.
      apply sbind_returns in H. destruct H as (w1 & stream & O & H).
      apply sbind_returns in H. destruct H as (w2 & item & U & H).
      apply sbind_returns in H. destruct H as (w3 & [] & P & H).
      apply scall_returns in O. destruct O as [_ CO].
      apply scall_returns in U. destruct U as [_ CU].
      injection P as <-.
      destruct (IH _ _ _ _ H) as (cs & C & N & F). cbn [setup_calls] in C.
      exists (OpenRb (os_path_join path n)
              :: UploadFile n folder_id stream :: cs).
      rewrite C, CU, CO, <- !app_assoc. split; [reflexivity|]. split.
      * unfold uploaded_names in *. cbn [flat_map app]. now rewrite N.
      * intros name parent content [I|[I|I]];
          [discriminate | congruence | eauto].
    + apply IH.
Qed.

Lemma upload_images_marking answer box path folder_id names :
  forall acc w,
    upload_images (with_docgen_template_create answer box) path folder_id
      names acc w
    = upload_images box path folder_id names acc w.
Proof.
  induction names as [|n names IH]; intros acc w; [reflexivity|].
  cbn [upload_images os_path_isfile uploads_upload_file open_rb
       with_docgen_template_create].
  destruct (os_path_isfile box (os_path_join path n)); [|apply IH].
  unfold sbind. cbn [scall].
  destruct (open_rb box (os_path_join path n)) as [e|stream];
    [reflexivity|].
  destruct (uploads_upload_file box n folder_id stream) as [e|item];
    [reflexivity|].
  cbn [sprint]. apply IH.
Qed.

Ltac setup_step :=
  rewrite !sbind_run;
  match goal with
  | |- context [match ?c ?w with _ => _ end] =>
      destruct (c w) as [? [?|?]]; [split; reflexivity|]
  end.

(** X20.  Marking the template for Doc Gen is best effort: whether Box
    accepts or refuses the marking, step 3 returns the same ids (or raises
    the same exception of an earlier request) after the same requests;
    only the printed line differs. *)
Theorem marking_failure_is_swallowed answer box base_folder_name
    claims_folder_name claim_id images_folder_path root_id
    report_template_path w :
  snd (upload_dummy_content (with_docgen_template_create answer box)
         base_folder_name claims_folder_name claim_id images_folder_path
         root_id report_template_path w)
  = snd (upload_dummy_content box base_folder_name claims_folder_name
           claim_id images_folder_path root_id report_template_path w)
  /\ setup_calls
       (fst (upload_dummy_content (with_docgen_template_create answer box)
               base_folder_name claims_folder_name claim_id
               images_folder_path root_id report_template_path w))
     = setup_calls
         (fst (upload_dummy_content box base_folder_name claims_folder_name
                 claim_id images_folder_path root_id
                 report_template_path w)).
Proof.
  unfold upload_dummy_content.
  change (create_folder (with_docgen_template_create answer box))
    with (create_folder box).
  cbn [os_listdir open_rb uploads_upload_file docgen_template_create
       str_of_exception with_docgen_template_create].
  do 5 setup_step.
  rewrite !sbind_run, upload_images_marking.
  match goal with
  | |- context [upload_images ?b ?p ?i ?n ?a ?w0] =>
      destruct (upload_images b p i n a w0) as [? [?|?]]
  end; [split; reflexivity|].
  do 2 setup_step.
  unfold sbind, stry. cbn [scall sprint sret].
  match goal with
  | |- context [answer ?i] =>
      destruct (answer i), (docgen_template_create box i)
  end; split; reflexivity.
Qed.

(** What a run of step 3 that returns has done, request by request. *)
Lemma upload_dummy_content_returns box base_folder_name claims_folder_name
    claim_id images_folder_path root_id report_template_path w w'
    ids :
  upload_dummy_content box base_folder_name claims_folder_name claim_id
    images_folder_path root_id report_template_path w
  = (w', inr ids) ->
  exists base claims claim images names content template cs marking,
    folders_create_folder box base_folder_name root_id = inr base
    /\ folders_create_folder box claims_folder_name (item_id base)
       = inr claims
    /\ folders_create_folder box claim_id (item_id claims) = inr claim
    /\ folders_create_folder box (u "images") (item_id claim) = inr images
    /\ os_listdir box images_folder_path = inr names
    /\ open_rb box report_template_path = inr content
    /\ uploads_upload_file box (u "report_template.docx") (item_id base)
         content = inr template
    /\ uploaded_names cs
       = filter (fun n =>
                   os_path_isfile box (os_path_join images_folder_path n))
           names
    /\ (forall name parent stream,
          In (UploadFile name parent stream) cs -> parent = item_id images)
    /\ setup_calls w'
       = setup_calls w
         ++ [CreateFolder base_folder_name root_id;
             CreateFolder claims_folder_name (item_id base);
             CreateFolder claim_id (item_id claims);
             CreateFolder (u "images") (item_id claim);
             ListDir images_folder_path]
         ++ cs
         ++ [OpenRb report_template_path;
             UploadFile (u "report_template.docx") (item_id base) content;
             CreateDocgenTemplate (item_id template)]
    /\ ids = {| base_folder_id := item_id base;
                claims_folder_id := item_id claims;
                claim_folder_id := item_id claim;
                images_folder_id := item_id images;
                uploaded_image_ids := marking;
                template_file_id := item_id template |}.
Proof.
  unfold upload_dummy_content. intros H.
  apply sbind_returns in H. destruct H as (w1 & base & F1 & H).
  apply sbind_returns in H. destruct H as (w2 & claims & F2 & H).
  apply sbind_returns in H. destruct H as (w3 & claim & F3 & H).
  apply sbind_returns in H. destruct H as (w4 & images & F4 & H).
  apply sbind_returns in H. destruct H as (w5 & names & L & H).
  apply sbind_returns in H. destruct H as (w6 & marking & U & H).
  apply sbind_returns in H. destruct H as (w7 & content & O & H).
  apply sbind_returns in H. destruct H as (w8 & template & T & H).
  apply sbind_returns in H. destruct H as (w9 & [] & P & H).
  apply sbind_returns in H. destruct H as (w10 & [] & D & H).
  apply create_folder_returns in F1. destruct F1 as [F1 C1].
  apply create_folder_returns in F2. destruct F2 as [F2 C2].
  apply create_folder_returns in F3. destruct F3 as [F3 C3].
  apply create_folder_returns in F4. destruct F4 as [F4 C4].
  apply scall_returns in L. destruct L as [L C5].
  apply upload_images_returns in U. destruct U as (cs & C6 & N & I).
  apply scall_returns in O. destruct O as [O C7].
  apply scall_returns in T. destruct T as [T C8].
  injection P as <-. cbn [setup_calls] in D.
  assert (C10 : setup_calls w10
                = setup_calls w8 ++ [CreateDocgenTemplate (item_id template)]).
  { revert D. unfold stry, sbind. cbn [scall sprint].
    destruct (docgen_template_create box (item_id template));
      intros [= <-]; reflexivity. }
  injection H as <- <-.
  exists base, claims, claim, images, names, content, template, cs, marking.
  repeat (split; [assumption|]). split; [|reflexivity].
  rewrite C10, C8, C7, C6, C5, C4, C3, C2, C1, <- !app_assoc. reflexivity.
Qed.

(** X21.  When step 3 returns, every folder was created inside the one
    before it (base, Claims, the claim, images), the template went into
    the base folder, and the ids returned are the ids Box answered
    with. *)
Theorem upload_dummy_content_returns_the_ids_of_box box base_folder_name
    claims_folder_name claim_id images_folder_path root_id
    report_template_path w w' ids :
  upload_dummy_content box base_folder_name claims_folder_name claim_id
    images_folder_path root_id report_template_path w
  = (w', inr ids) ->
  exists base claims claim images content template,
    folders_create_folder box base_folder_name root_id = inr base
    /\ folders_create_folder box claims_folder_name (item_id base)
       = inr claims
    /\ folders_create_folder box claim_id (item_id claims) = inr claim
    /\ folders_create_folder box (u "images") (item_id claim) = inr images
    /\ open_rb box report_template_path = inr content
    /\ uploads_upload_file box (u "report_template.docx") (item_id base)
         content = inr template
    /\ base_folder_id ids = item_id base
    /\ claims_folder_id ids = item_id claims
    /\ claim_folder_id ids = item_id claim
    /\ images_folder_id ids = item_id images
    /\ template_file_id ids = item_id template.
Proof.
  intros H. apply upload_dummy_content_returns in H.
  destruct H as (base & claims & claim & images & names & content
                 & template & cs & marking & F1 & F2 & F3 & F4 & _ & O & T
                 & _ & _ & _ & ->).
  exists base, claims, claim, images, content, template.
  repeat (split; [assumption|]). repeat split.
Qed.

Lemma upload_dummy_content_returns_the_ids_of_box_witness :
  exists ids,
    snd (step3 (Demo.box (inr (u "t"))) setup_fresh) = inr ids
    /\ template_file_id ids = u "317948020158/Open AI Demo/report_template.docx".
Proof.
  destruct (step3 (Demo.box (inr (u "t"))) setup_fresh) as [w' [e|ids]] eqn:R;
    [vm_compute in R; discriminate|].
  exists ids. split; [reflexivity|].
  destruct (upload_dummy_content_returns_the_ids_of_box _ _ _ _ _ _ _ _ _ _ R)
    as (base & claims & claim & images & content & template & F1 & _ & _
        & _ & O & T & _ & _ & _ & _ & ->).
  vm_compute in F1. injection F1 as <-.
  vm_compute in O. injection O as <-.
  vm_compute in T. injection T as <-. reflexivity.
Defined.

(** X22.  When step 3 returns, the files uploaded are the regular files of
    the listing of the images folder, in the order of the listing and into
    the images folder, and after them the report template under the name
    [report_template.docx]; entries of the listing that are not regular
    files are passed over. *)
Theorem step3_uploads_the_regular_files_then_the_template box
    base_folder_name claims_folder_name claim_id images_folder_path
    root_id report_template_path w w' ids :
  upload_dummy_content box base_folder_name claims_folder_name claim_id
    images_folder_path root_id report_template_path w
  = (w', inr ids) ->
  exists names cs,
    os_listdir box images_folder_path = inr names
    /\ setup_calls w' = setup_calls w ++ cs
    /\ uploaded_names cs
       = filter (fun n =>
                   os_path_isfile box (os_path_join images_folder_path n))
           names
         ++ [u "report_template.docx"].
Proof.
  intros H. apply upload_dummy_content_returns in H.
  destruct H as (base & claims & claim & images & names & content
                 & template & cs & marking & _ & _ & _ & _ & L & _ & _
                 & N & _ & C & _).
  exists names. eexists. split; [assumption|]. split; [exact C|].
  rewrite !uploaded_names_app, N. reflexivity.
Qed.

Lemma step3_uploads_the_regular_files_then_the_template_witness :
  exists cs,
    setup_calls (fst (step3 (Demo.box (inr (u "t"))) setup_fresh)) = cs
    /\ uploaded_names cs
       = [u "front.jpg"; u "rear.jpg"; u "report_template.docx"].
Proof.
  destruct (step3 (Demo.box (inr (u "t"))) setup_fresh) as [w' [e|ids]] eqn:R;
    [vm_compute in R; discriminate|].
  destruct (step3_uploads_the_regular_files_then_the_template
              _ _ _ _ _ _ _ _ _ _ R) as (names & cs & L & C & N).
  exists cs. split; [exact C|].
  vm_compute in L. injection L as <-. rewrite N. vm_compute. reflexivity.
Defined.

(** X23.  A listing that fails stops step 3 after the four folders were
    created: nothing is uploaded, nothing is removed again, and the
    exception of the listing is raised. *)
Theorem failed_listing_leaves_the_folders box base_folder_name
    claims_folder_name claim_id images_folder_path root_id
    report_template_path base claims claim images e w :
  folders_create_folder box base_folder_name root_id = inr base ->
  folders_create_folder box claims_folder_name (item_id base) = inr claims ->
  folders_create_folder box claim_id (item_id claims) = inr claim ->
  folders_create_folder box (u "images") (item_id claim) = inr images ->
  os_listdir box images_folder_path = inl e ->
  let r := upload_dummy_content box base_folder_name claims_folder_name
             claim_id images_folder_path root_id
             report_template_path w in
  snd r = inl e
  /\ setup_calls (fst r)
     = setup_calls w
       ++ [CreateFolder base_folder_name root_id;
           CreateFolder claims_folder_name (item_id base);
           CreateFolder claim_id (item_id claims);
           CreateFolder (u "images") (item_id claim);
           ListDir images_folder_path].
Proof.
  intros F1 F2 F3 F4 L. unfold upload_dummy_content.
  destruct (create_folder_run _ (u "base") _ _ w _ F1) as (w1 & R1 & C1).
  destruct (create_folder_run _ (u "Claims") _ _ w1 _ F2) as (w2 & R2 & C2).
  destruct (create_folder_run _ (u "claim") _ _ w2 _ F3) as (w3 & R3 & C3).
  destruct (create_folder_run _ (u "images") _ _ w3 _ F4) as (w4 & R4 & C4).
  rewrite sbind_run, R1, sbind_run, R2, sbind_run, R3, sbind_run, R4,
    sbind_run.
  unfold scall. rewrite L. cbn [fst snd setup_calls].
  split; [reflexivity|]. rewrite C4, C3, C2, C1, <- !app_assoc. reflexivity.
Qed.

Lemma failed_listing_leaves_the_folders_witness :
  snd (upload_dummy_content (Demo.box (inr (u "t"))) BASE_FOLDER_NAME
         CLAIMS_FOLDER_NAME CLAIM_ID (u "./nowhere") BASE_FOLDER_ID
         REPORT_TEMPLATE_PATH setup_fresh)
  = inl OSError.
Proof.
  refine (proj1 (failed_listing_leaves_the_folders (Demo.box (inr (u "t")))
                   BASE_FOLDER_NAME CLAIMS_FOLDER_NAME CLAIM_ID
                   (u "./nowhere") BASE_FOLDER_ID REPORT_TEMPLATE_PATH
                   _ _ _ _ OSError setup_fresh _ _ _ _ _));
    vm_compute; reflexivity.
Defined.

(** X24.  Step 8 undoes step 3 and no more: the one folder it deletes,
    with all its content, is the folder step 3 created first, in which
    step 3 put everything else; the folder the user named as the place for
    the demo is not deleted.  The line about the deletion is printed only
    when Box accepted it. *)
Theorem cleanup_deletes_the_folder_step3_created box base_folder_name
    claims_folder_name claim_id images_folder_path root_id
    report_template_path w w' ids :
  upload_dummy_content box base_folder_name claims_folder_name claim_id
    images_folder_path root_id report_template_path w
  = (w', inr ids) ->
  exists base rest,
    folders_create_folder box base_folder_name root_id = inr base
    /\ setup_calls w'
       = setup_calls w ++ CreateFolder base_folder_name root_id :: rest
    /\ setup_calls (fst (step8 box ids w'))
       = setup_calls w' ++ [DeleteFolderById (item_id base) true]
    /\ (setup_stdout (fst (step8 box ids w')) = setup_stdout w'
        \/ snd (step8 box ids w') = inr tt).
Proof.
  intros H. apply upload_dummy_content_returns in H.
  destruct H as (base & claims & claim & images & names & content
                 & template & cs & marking & F1 & _ & _ & _ & _ & _ & _
                 & _ & _ & C & ->).
  exists base. eexists. split; [exact F1|]. split; [exact C|].
  unfold step8, remove_demo_folder, sbind. cbn [scall base_folder_id].
  destruct (folders_delete_folder_by_id box (item_id base) true) as [e|[]];
    cbn [fst snd sprint setup_calls setup_stdout]; auto.
Qed.

Lemma cleanup_deletes_the_folder_step3_created_witness :
  exists w' ids,
    step3 (Demo.box (inr (u "t"))) setup_fresh = (w', inr ids)
    /\ setup_calls (fst (step8 (Demo.box (inr (u "t"))) ids w'))
       = setup_calls w'
         ++ [DeleteFolderById (u "317948020158/Open AI Demo") true].
Proof.
  destruct (step3 (Demo.box (inr (u "t"))) setup_fresh) as [w' [e|ids]] eqn:R;
    [vm_compute in R; discriminate|].
  exists w', ids. split; [reflexivity|].
  destruct (cleanup_deletes_the_folder_step3_created _ _ _ _ _ _ _ _ _ _ R)
    as (base & rest & F & _ & D & _).
  vm_compute in F. injection F as <-. exact D.
Defined.
